(** * PulseAI-Insights: health-score derivation and ML-prediction orchestration

    A shallow embedding of [server/health-score.ts], the health-score and
    prediction parts of [server/storage.ts], and the ML and team-health
    handlers of [server/routes.ts].

    JavaScript numbers are IEEE-754 binary64 values.  They are modelled by
    the Standard Library's executable specification [spec_float] at
    precision 53 and maximal exponent 1024, so that rounding, overflow,
    signed zeros, infinities and NaN behave as they do in the runtime. *)

From Stdlib Require Import ZArith List Bool Ascii String Lia.
From Stdlib Require Import Floats.SpecFloat Floats.PrimFloat Floats.FloatOps.
From Stdlib Require Import Sorting.Permutation Sorting.Sorted.
Import ListNotations.

Set Warnings "-inexact-float".
Local Open Scope Z_scope.

(** ** JavaScript numbers *)

Definition number : Type := spec_float.

Module JS.

Definition prec : Z := 53.
Definition emax : Z := 1024.

Definition add : number -> number -> number := SFadd prec emax.
Definition sub : number -> number -> number := SFsub prec emax.
Definition mul : number -> number -> number := SFmul prec emax.
Definition div : number -> number -> number := SFdiv prec emax.

(** [a < b], [a <= b], [a > b]: false as soon as one side is NaN. *)
Definition lt (a b : number) : bool := SFltb a b.
Definition le (a b : number) : bool := SFleb a b.
Definition gt (a b : number) : bool := SFltb b a.

(** The number denoted by an integer literal or an integer-valued column. *)
Definition ofZ (z : Z) : number := binary_normalize prec emax z 0 false.

Definition NaN : number := S754_nan.
Definition Infinity : number := S754_infinity false.
Definition NegInfinity : number := S754_infinity true.

(** [Number.isNaN]. *)
Definition isNaN (x : number) : bool :=
  match x with S754_nan => true | _ => false end.

(** [Number.isFinite]. *)
Definition isFinite (x : number) : bool :=
  match x with S754_zero _ | S754_finite _ _ _ => true | _ => false end.

(** [Math.max] and [Math.min] on two arguments: NaN is contagious and
    [+0] counts as larger than [-0]. *)
Definition Math_max (a b : number) : number :=
  match a, b with
  | S754_nan, _ | _, S754_nan => S754_nan
  | S754_zero sa, S754_zero sb => S754_zero (sa && sb)
  | _, _ => if lt a b then b else a
  end.

Definition Math_min (a b : number) : number :=
  match a, b with
  | S754_nan, _ | _, S754_nan => S754_nan
  | S754_zero sa, S754_zero sb => S754_zero (sa || sb)
  | _, _ => if lt b a then b else a
  end.

(** [Math.round]: the closest integral number, ties towards [+Infinity];
    non-finite and already integral arguments are returned unchanged, and
    a result of zero keeps the sign of the argument.  For a finite
    [(-1)^s * m * 2^e] with [e < 0] the integer is
    [floor ((2 * (+-m) + 2^-e) / 2^(1-e))]. *)
Definition Math_round (x : number) : number :=
  match x with
  | S754_finite s m e =>
      if 0 <=? e then x
      else
        let n := Z.shiftr (2 * cond_Zopp s (Zpos m) + Z.shiftl 1 (- e)) (1 - e) in
        if n =? 0 then S754_zero s else ofZ n
  | _ => x
  end.

End JS.

Declare Scope number_scope.
Delimit Scope number_scope with num.
Infix "+" := JS.add : number_scope.
Infix "-" := JS.sub : number_scope.
Infix "*" := JS.mul : number_scope.
Infix "/" := JS.div : number_scope.
Infix "<?" := JS.lt : number_scope.
Infix "<=?" := JS.le : number_scope.
Infix ">?" := JS.gt : number_scope.

(** Numeric literals of the source, read as binary64 values. *)
Definition n0 : number := Eval vm_compute in Prim2SF 0%float.
Definition n1 : number := Eval vm_compute in Prim2SF 1%float.
Definition n2 : number := Eval vm_compute in Prim2SF 2%float.
Definition n5 : number := Eval vm_compute in Prim2SF 5%float.
Definition n10 : number := Eval vm_compute in Prim2SF 10%float.
Definition n20 : number := Eval vm_compute in Prim2SF 20%float.
Definition n40 : number := Eval vm_compute in Prim2SF 40%float.
Definition n70 : number := Eval vm_compute in Prim2SF 70%float.
Definition n50 : number := Eval vm_compute in Prim2SF 50%float.
Definition n80 : number := Eval vm_compute in Prim2SF 80%float.
Definition n100 : number := Eval vm_compute in Prim2SF 100%float.
Definition n1_5 : number := Eval vm_compute in Prim2SF 1.5%float.
Definition n0_6 : number := Eval vm_compute in Prim2SF 0.6%float.
Definition n0_2 : number := Eval vm_compute in Prim2SF 0.2%float.
Definition n0_45 : number := Eval vm_compute in Prim2SF 0.45%float.
Definition n0_25 : number := Eval vm_compute in Prim2SF 0.25%float.
Definition n0_1 : number := Eval vm_compute in Prim2SF 0.1%float.
Definition n0_8 : number := Eval vm_compute in Prim2SF 0.8%float.
Definition n0_75 : number := Eval vm_compute in Prim2SF 0.75%float.

(** ** shared/schema.ts: rows *)

(** A timestamp column, as milliseconds since the epoch. *)
Definition timestamp : Type := Z.

Record EmployeeWeeklyMetric : Type := {
  wm_id : Z;
  wm_employeeId : Z;
  weekStart : timestamp;
  tasksAssigned : number;
  tasksCompleted : number;
  missedDeadlines : number;
  meetingHours : number;
  collaborationScore : number;
  engagementScore : number;
  learningHours : number;
  stretchAssignments : number;
  wm_createdAt : option timestamp
}.

Record InsertHealthScore : Type := {
  ihs_employeeId : Z;
  ihs_burnoutRisk : number;
  ihs_engagementScore : number;
  ihs_performanceScore : number;
  ihs_workloadScore : number;
  ihs_date : timestamp
}.

(** ** server/health-score.ts *)

Section HealthScore.
Local Open Scope number_scope.

(** [clamp(value, min, max)]. *)
Definition clamp3 (value min max : number) : number :=
  JS.Math_max min (JS.Math_min max value).

(** [clamp(value)] with the default bounds [min = 0], [max = 100]. *)
Definition clamp (value : number) : number := clamp3 value n0 n100.

Definition toPercent (value : number) : number :=
  if JS.isNaN value then n0
  else if value <=? n1_5 then value * n100 else value.

(** The Metric Normalizer: a raw score brought to the 0-100 scale. *)
Definition normalize (value : number) : number := clamp (toPercent value).

Definition computeHealthScoreFromMetric (metric : EmployeeWeeklyMetric)
  : InsertHealthScore :=
  let engagementScore := clamp (toPercent metric.(engagementScore)) in
  let collaborationScore := clamp (toPercent metric.(collaborationScore)) in
  let tasksAssigned := JS.Math_max n0 metric.(tasksAssigned) in
  let tasksCompleted := JS.Math_max n0 metric.(tasksCompleted) in
  let missedDeadlines := JS.Math_max n0 metric.(missedDeadlines) in
  let taskCompletionRatio :=
    if tasksAssigned >? n0 then tasksCompleted / tasksAssigned else n0 in
  let deadlineMissRate :=
    if tasksAssigned >? n0 then missedDeadlines / tasksAssigned else n0 in
  let workloadScore :=
    clamp ((tasksAssigned / n40) * n70
           + (metric.(meetingHours) / n10) * n20
           + (metric.(stretchAssignments) / n5) * n10) in
  let performanceScore :=
    clamp (taskCompletionRatio * n100 * n0_6
           + engagementScore * n0_2
           + collaborationScore * n0_2
           - deadlineMissRate * n100 * n0_2) in
  let burnoutRisk :=
    clamp (workloadScore * n0_45
           + deadlineMissRate * n100 * n0_25
           + (n100 - engagementScore) * n0_2
           + (n100 - collaborationScore) * n0_1) in
  {| ihs_employeeId := metric.(wm_employeeId);
     ihs_burnoutRisk := JS.Math_round burnoutRisk;
     ihs_engagementScore := JS.Math_round engagementScore;
     ihs_performanceScore := JS.Math_round performanceScore;
     ihs_workloadScore := JS.Math_round workloadScore;
     ihs_date := metric.(weekStart) |}.

End HealthScore.

(** ** shared/schema.ts: the other tables *)

Record Employee : Type := {
  emp_id : Z;
  emp_name : string;
  emp_role : string;
  emp_department : string;
  emp_email : string
}.

(** A row of [health_scores]: a serial primary key and the inserted columns. *)
Record HealthScore : Type := {
  hs_id : Z;
  hs_employeeId : Z;
  hs_burnoutRisk : number;
  hs_engagementScore : number;
  hs_performanceScore : number;
  hs_workloadScore : number;
  hs_date : timestamp
}.

Record TopFeatures : Type := {
  tf_burnout : list string;
  tf_performance : list string;
  tf_growth : list string
}.

Record InsertEmployeeMlPrediction : Type := {
  imp_employeeId : Z;
  imp_windowStart : timestamp;
  imp_windowEnd : timestamp;
  imp_burnoutRisk : string;
  imp_burnoutConfidence : number;
  imp_performanceTrend : string;
  imp_performanceConfidence : number;
  imp_growthPotential : string;
  imp_growthConfidence : number;
  imp_topFeatures : TopFeatures;
  imp_recommendations : list string;
  imp_explanation : string
}.

(** A row of [employee_ml_predictions]: the inserted columns, a serial id
    and the nullable [created_at] filled by [defaultNow()]. *)
Record EmployeeMlPrediction : Type := {
  mp_id : Z;
  mp_data : InsertEmployeeMlPrediction;
  mp_createdAt : option timestamp
}.

Definition mp_employeeId (p : EmployeeMlPrediction) : Z :=
  p.(mp_data).(imp_employeeId).

(** The tables the pipeline touches, each in scan order, with the next
    value of the serial sequences. *)
Record Database : Type := {
  employees : list Employee;
  healthScores : list HealthScore;
  healthScores_id_seq : Z;
  employeeWeeklyMetrics : list EmployeeWeeklyMetric;
  employeeMlPredictions : list EmployeeMlPrediction;
  employeeMlPredictions_id_seq : Z
}.

Definition emptyDatabase : Database :=
  {| employees := []; healthScores := []; healthScores_id_seq := 1;
     employeeWeeklyMetrics := [];
     employeeMlPredictions := []; employeeMlPredictions_id_seq := 1 |}.

Definition set_healthScores (db : Database) (rows : list HealthScore) (seq : Z)
  : Database :=
  {| employees := db.(employees);
     healthScores := rows; healthScores_id_seq := seq;
     employeeWeeklyMetrics := db.(employeeWeeklyMetrics);
     employeeMlPredictions := db.(employeeMlPredictions);
     employeeMlPredictions_id_seq := db.(employeeMlPredictions_id_seq) |}.

Definition set_mlPredictions (db : Database)
  (rows : list EmployeeMlPrediction) (seq : Z) : Database :=
  {| employees := db.(employees);
     healthScores := db.(healthScores);
     healthScores_id_seq := db.(healthScores_id_seq);
     employeeWeeklyMetrics := db.(employeeWeeklyMetrics);
     employeeMlPredictions := rows; employeeMlPredictions_id_seq := seq |}.

(** ** Query helpers: [ORDER BY] as a stable insertion sort *)

Fixpoint insertBy {A : Type} (leb : A -> A -> bool) (x : A) (l : list A)
  : list A :=
  match l with
  | [] => [x]
  | y :: t => if leb x y then x :: l else y :: insertBy leb x t
  end.

Definition orderBy {A : Type} (leb : A -> A -> bool) (l : list A) : list A :=
  fold_right (insertBy leb) [] l.

Definition asc {A : Type} (key : A -> Z) (x y : A) : bool := key x <=? key y.
Definition desc {A : Type} (key : A -> Z) (x y : A) : bool := key y <=? key x.

(** Descending order on a nullable column: PostgreSQL lists NULL first. *)
Definition descNullable {A : Type} (key : A -> option Z) (x y : A) : bool :=
  match key x, key y with
  | None, _ => true
  | Some _, None => false
  | Some a, Some b => b <=? a
  end.

(** ** server/storage.ts *)

Definition getEmployees (db : Database) : list Employee := db.(employees).

Definition getEmployee (db : Database) (id : Z) : option Employee :=
  find (fun e => e.(emp_id) =? id) db.(employees).

Definition insertedHealthScore (id : Z) (score : InsertHealthScore) : HealthScore :=
  {| hs_id := id;
     hs_employeeId := score.(ihs_employeeId);
     hs_burnoutRisk := score.(ihs_burnoutRisk);
     hs_engagementScore := score.(ihs_engagementScore);
     hs_performanceScore := score.(ihs_performanceScore);
     hs_workloadScore := score.(ihs_workloadScore);
     hs_date := score.(ihs_date) |}.

(** The [.set({...})] of the update branch: the four scores and the date. *)
Definition setHealthScore (score : InsertHealthScore) (row : HealthScore)
  : HealthScore :=
  {| hs_id := row.(hs_id);
     hs_employeeId := row.(hs_employeeId);
     hs_burnoutRisk := score.(ihs_burnoutRisk);
     hs_engagementScore := score.(ihs_engagementScore);
     hs_performanceScore := score.(ihs_performanceScore);
     hs_workloadScore := score.(ihs_workloadScore);
     hs_date := score.(ihs_date) |}.

Definition addHealthScore (db : Database) (score : InsertHealthScore)
  : HealthScore * Database :=
  let newScore := insertedHealthScore db.(healthScores_id_seq) score in
  (newScore,
   set_healthScores db (db.(healthScores) ++ [newScore])
     (db.(healthScores_id_seq) + 1)).

(** The [where] clause of the lookup: same employee and same date. *)
Definition matchesKey (score : InsertHealthScore) (row : HealthScore) : bool :=
  (row.(hs_employeeId) =? score.(ihs_employeeId))
  && (row.(hs_date) =? score.(ihs_date)).

Definition upsertHealthScore (db : Database) (score : InsertHealthScore)
  : HealthScore * Database :=
  match find (matchesKey score) db.(healthScores) with
  | Some existing =>
      let hit (row : HealthScore) := row.(hs_id) =? existing.(hs_id) in
      let rows :=
        map (fun row => if hit row then setHealthScore score row else row)
          db.(healthScores) in
      let updated := hd (setHealthScore score existing) (filter hit rows) in
      (updated, set_healthScores db rows db.(healthScores_id_seq))
  | None => addHealthScore db score
  end.

Record TeamHealth : Type := {
  th_burnoutRisk : number;
  th_engagementScore : number;
  th_performanceScore : number;
  th_workloadScore : number
}.

Definition msPerDay : Z := 86400000.

(** [d = new Date(); d.setDate(d.getDate() - days)] for a clock reading
    [now], on a server whose local days all last 24 hours. *)
Definition daysAgo (now : timestamp) (days : Z) : timestamp :=
  now - days * msPerDay.

Definition zeroTeamHealth : TeamHealth :=
  {| th_burnoutRisk := n0; th_engagementScore := n0;
     th_performanceScore := n0; th_workloadScore := n0 |}.

Definition getLatestTeamHealth (db : Database) (now : timestamp) : TeamHealth :=
  let sevenDaysAgo := daysAgo now 7 in
  let recentScores :=
    filter (fun row => sevenDaysAgo <=? row.(hs_date)) db.(healthScores) in
  if (List.length recentScores =? 0)%nat then zeroTeamHealth
  else
    let total :=
      fold_left
        (fun acc curr =>
           {| th_burnoutRisk := (acc.(th_burnoutRisk) + curr.(hs_burnoutRisk))%num;
              th_engagementScore :=
                (acc.(th_engagementScore) + curr.(hs_engagementScore))%num;
              th_performanceScore :=
                (acc.(th_performanceScore) + curr.(hs_performanceScore))%num;
              th_workloadScore :=
                (acc.(th_workloadScore) + curr.(hs_workloadScore))%num |})
        recentScores zeroTeamHealth in
    let len := JS.ofZ (Z.of_nat (List.length recentScores)) in
    {| th_burnoutRisk := JS.Math_round (total.(th_burnoutRisk) / len)%num;
       th_engagementScore := JS.Math_round (total.(th_engagementScore) / len)%num;
       th_performanceScore := JS.Math_round (total.(th_performanceScore) / len)%num;
       th_workloadScore := JS.Math_round (total.(th_workloadScore) / len)%num |}.

Definition getTeamHealthTrend (db : Database) (now : timestamp) (days : Z)
  : list HealthScore :=
  let startDate := daysAgo now days in
  orderBy (asc hs_date)
    (filter (fun row => startDate <=? row.(hs_date)) db.(healthScores)).

Definition getWeeklyMetrics (db : Database) (employeeId : Z)
  : list EmployeeWeeklyMetric :=
  orderBy (desc weekStart)
    (filter (fun row => row.(wm_employeeId) =? employeeId)
       db.(employeeWeeklyMetrics)).

Definition getLatestMlPrediction (db : Database) (employeeId : Z)
  : option EmployeeMlPrediction :=
  hd_error
    (orderBy (descNullable mp_createdAt)
       (filter (fun row => mp_employeeId row =? employeeId)
          db.(employeeMlPredictions))).

(** Rows given consecutive serial ids starting at [seq]. *)
Fixpoint insertedMlPredictions (seq : Z) (dbNow : timestamp)
  (predictions : list InsertEmployeeMlPrediction) : list EmployeeMlPrediction :=
  match predictions with
  | [] => []
  | p :: rest =>
      {| mp_id := seq; mp_data := p; mp_createdAt := Some dbNow |}
      :: insertedMlPredictions (seq + 1) dbNow rest
  end.

(** [dbNow] is the database clock read by [defaultNow()]. *)
Definition createMlPredictions (db : Database) (dbNow : timestamp)
  (predictions : list InsertEmployeeMlPrediction)
  : list EmployeeMlPrediction * Database :=
  if (List.length predictions =? 0)%nat then ([], db)
  else
    let rows :=
      insertedMlPredictions db.(employeeMlPredictions_id_seq) dbNow predictions in
    (rows,
     set_mlPredictions db (db.(employeeMlPredictions) ++ rows)
       (db.(employeeMlPredictions_id_seq) + Z.of_nat (List.length rows))).

(** ** server/routes.ts: the ML prediction pipeline *)

Record PayloadWeek : Type := {
  week_start : timestamp;
  tasks_assigned : number;
  tasks_completed : number;
  missed_deadlines : number;
  meeting_hours : number;
  collaboration_score : number;
  engagement_score : number;
  learning_hours : number;
  stretch_assignments : number
}.

Record Payload : Type := {
  employee_id : Z;
  weeks : list PayloadWeek
}.

Definition toPayloadWeek (week : EmployeeWeeklyMetric) : PayloadWeek :=
  {| week_start := week.(weekStart);
     tasks_assigned := week.(tasksAssigned);
     tasks_completed := week.(tasksCompleted);
     missed_deadlines := week.(missedDeadlines);
     meeting_hours := week.(meetingHours);
     collaboration_score := week.(collaborationScore);
     engagement_score := week.(engagementScore);
     learning_hours := week.(learningHours);
     stretch_assignments := week.(stretchAssignments) |}.

(** [metrics.slice(0, 4).reverse()]. *)
Definition payloadWindow (metrics : list EmployeeWeeklyMetric)
  : list EmployeeWeeklyMetric :=
  rev (firstn 4 metrics).

Definition buildPayloadForEmployee (db : Database) (employeeId : Z)
  : option Payload :=
  let metrics := getWeeklyMetrics db employeeId in
  let window := payloadWindow metrics in
  if (List.length window <? 4)%nat then None
  else Some {| employee_id := employeeId; weeks := map toPayloadWeek window |}.

(** One element of [results] in the reply of [POST /predict/batch]; the
    fields read through [|| []] or [|| ""] may be missing. *)
Record MlResult : Type := {
  res_employee_id : Z;
  window_start : timestamp;
  window_end : timestamp;
  burnout_risk : string;
  burnout_confidence : number;
  performance_trend : string;
  performance_confidence : number;
  growth_potential : string;
  growth_confidence : number;
  burnout_top_features : option (list string);
  performance_top_features : option (list string);
  growth_top_features : option (list string);
  recommendations : option (list string);
  explanation : option string
}.

(** What the handler reads of the [fetch] reply: [ok], the body as text,
    and the [results] member of the body as JSON, when present. *)
Record FetchResponse : Type := {
  resp_ok : bool;
  resp_text : string;
  resp_results : option (list MlResult)
}.

(** [x || d] on a value that may be missing. *)
Definition orElse {A : Type} (x : option A) (d : A) : A :=
  match x with Some v => v | None => d end.

Definition toPrediction (result : MlResult) : InsertEmployeeMlPrediction :=
  {| imp_employeeId := result.(res_employee_id);
     imp_windowStart := result.(window_start);
     imp_windowEnd := result.(window_end);
     imp_burnoutRisk := result.(burnout_risk);
     imp_burnoutConfidence := result.(burnout_confidence);
     imp_performanceTrend := result.(performance_trend);
     imp_performanceConfidence := result.(performance_confidence);
     imp_growthPotential := result.(growth_potential);
     imp_growthConfidence := result.(growth_confidence);
     imp_topFeatures :=
       {| tf_burnout := orElse result.(burnout_top_features) [];
          tf_performance := orElse result.(performance_top_features) [];
          tf_growth := orElse result.(growth_top_features) [] |};
     imp_recommendations := orElse result.(recommendations) [];
     imp_explanation := orElse result.(explanation) EmptyString |}.

(** [parseInt(s, 10)]: leading white space, an optional sign, then the
    longest run of decimal digits; [None] stands for NaN.  The text of the
    environment variable is held as its UTF-8 bytes.  The integer is
    exact where [parseInt] rounds to the nearest binary64 number, which
    compares alike with every age below [2^53]. *)
Definition byteAt (s : string) (i : nat) : N :=
  match String.get i s with
  | Some c => Ascii.N_of_ascii c
  | None => 256%N
  end.

(** The number of bytes of the white space or line terminator the text
    begins with, 0 when it begins with none: TAB, LF, VT, FF, CR and
    SPACE, then U+00A0, U+1680, U+2000 to U+200A, U+2028, U+2029, U+202F,
    U+205F, U+3000 and U+FEFF in UTF-8. *)
Definition whiteSpaceBytes (s : string) : nat :=
  let b0 := byteAt s 0 in
  let b1 := byteAt s 1 in
  let b2 := byteAt s 2 in
  (if ((9 <=? b0) && (b0 <=? 13)) || (b0 =? 32) then 1%nat
   else if (b0 =? 194) && (b1 =? 160) then 2%nat
   else if (b0 =? 225) && (b1 =? 154) && (b2 =? 128) then 3%nat
   else if (b0 =? 226) && (b1 =? 128)
           && (((128 <=? b2) && (b2 <=? 138))
               || (b2 =? 168) || (b2 =? 169) || (b2 =? 175)) then 3%nat
   else if (b0 =? 226) && (b1 =? 129) && (b2 =? 159) then 3%nat
   else if (b0 =? 227) && (b1 =? 128) && (b2 =? 128) then 3%nat
   else if (b0 =? 239) && (b1 =? 187) && (b2 =? 191) then 3%nat
   else 0%nat)%N.

Fixpoint dropBytes (n : nat) (s : string) : string :=
  match n, s with
  | S k, String _ rest => dropBytes k rest
  | _, _ => s
  end.

Fixpoint trimStartWithin (fuel : nat) (s : string) : string :=
  match fuel with
  | O => s
  | S k =>
      match whiteSpaceBytes s with
      | O => s
      | n => trimStartWithin k (dropBytes n s)
      end
  end.

(** A white space takes at least one byte, so the length of the text is
    fuel enough. *)
Definition trimStart (s : string) : string := trimStartWithin (String.length s) s.

Definition digitOf (c : Ascii.ascii) : option Z :=
  let n := Z.of_nat (Ascii.nat_of_ascii c) in
  if (48 <=? n) && (n <=? 57) then Some (n - 48) else None.

Fixpoint digitsPrefix (s : string) (acc : option Z) : option Z :=
  match s with
  | String c rest =>
      match digitOf c with
      | Some d => digitsPrefix rest (Some (10 * orElse acc 0 + d))
      | None => acc
      end
  | EmptyString => acc
  end.

Definition parseInt10 (s : string) : option Z :=
  match trimStart s with
  | String "-"%char rest => option_map Z.opp (digitsPrefix rest None)
  | String "+"%char rest => digitsPrefix rest None
  | rest => digitsPrefix rest None
  end.

(** What a request reads of its surroundings: the environment variable,
    the clock of the server ([Date.now()]), the clock of the database
    ([defaultNow()]) and the reply of the ML service to a batch ([fetch]
    is taken to resolve). *)
Record Env : Type := {
  ML_PREDICTION_CACHE_TTL_MS : option string;
  dateNow : timestamp;
  dbNow : timestamp;
  fetchPredictBatch : list Payload -> FetchResponse
}.

(** [process.env.ML_PREDICTION_CACHE_TTL_MS || "300000"], parsed. *)
Definition cacheTtlMs (env : Env) : option Z :=
  parseInt10
    match env.(ML_PREDICTION_CACHE_TTL_MS) with
    | Some (String c rest) => String c rest
    | _ => "300000"%string
    end.

(** What a step of a request leaves behind: its value, the database, and
    the bodies it posted to [/predict/batch], in order. *)
Record Outcome (A : Type) : Type := {
  value : A;
  database : Database;
  posted : list (list Payload)
}.
Arguments value {A} _.
Arguments database {A} _.
Arguments posted {A} _.

(** A step that returns [v] without writing or posting. *)
Definition done {A : Type} (v : A) (db : Database) : Outcome A :=
  {| value := v; database := db; posted := [] |}.

Inductive BatchResult : Type :=
| BatchOk (processed saved skipped : nat)
| BatchFailed (detail : string).

(** The test of the loop of [runMlBatch]: a stored prediction with a
    creation time younger than the TTL. *)
Definition recentlyCachedPrediction (env : Env) (db : Database) (payload : Payload)
  : option EmployeeMlPrediction :=
  match getLatestMlPrediction db payload.(employee_id) with
  | Some cached =>
      match cached.(mp_createdAt) with
      | Some createdAt =>
          let ageMs := env.(dateNow) - createdAt in
          match cacheTtlMs env with
          | Some ttl => if ageMs <? ttl then Some cached else None
          | None => None
          end
      | None => None
      end
  | None => None
  end.

(** The loop of [runMlBatch]: [(recentlyCached, toPredict)]. *)
Definition cacheGate (env : Env) (db : Database) (batchPayload : list Payload)
  : list EmployeeMlPrediction * list Payload :=
  fold_left
    (fun acc payload =>
       match recentlyCachedPrediction env db payload with
       | Some cached => (fst acc ++ [cached], snd acc)
       | None => (fst acc, snd acc ++ [payload])
       end)
    batchPayload ([], []).

Definition runMlBatch (env : Env) (db : Database) (batchPayload : list Payload)
  : Outcome BatchResult :=
  let (recentlyCached, toPredict) := cacheGate env db batchPayload in
  if (List.length toPredict =? 0)%nat then
    done (BatchOk 0 0 (List.length recentlyCached)) db
  else
    let mlResponse := env.(fetchPredictBatch) toPredict in
    if negb mlResponse.(resp_ok) then
      {| value := BatchFailed mlResponse.(resp_text);
         database := db; posted := [toPredict] |}
    else
      let predictions := map toPrediction (orElse mlResponse.(resp_results) []) in
      let (saved, db') := createMlPredictions db env.(dbNow) predictions in
      {| value := BatchOk (List.length predictions) (List.length saved)
                    (List.length recentlyCached);
         database := db'; posted := [toPredict] |}.

Inductive ResponseBody : Type :=
| PredictSummary (processed skipped predictionsSaved : nat)
| ErrorMessage (message : string) (detail : option string).

Record Response : Type := {
  status : Z;
  body : ResponseBody
}.

Definition json (b : ResponseBody) : Response := {| status := 200; body := b |}.

Definition employeeNotFound : Response :=
  {| status := 404; body := ErrorMessage "Employee not found" None |}.

Definition mlServiceError (detail : string) : Response :=
  {| status := 502; body := ErrorMessage "ML service error" (Some detail) |}.

(** The loop of the all-employees branch: [(skipped, batchPayload)]. *)
Definition collectPayloads (db : Database) (emps : list Employee)
  : nat * list Payload :=
  fold_left
    (fun acc employee =>
       match buildPayloadForEmployee db employee.(emp_id) with
       | None => (S (fst acc), snd acc)
       | Some payload => (fst acc, snd acc ++ [payload])
       end)
    emps (0%nat, []).

(** The reply to a finished batch; [skipped] says how the handler counts
    the employees the batch reused from the cache. *)
Definition replyToBatch (batch : Outcome BatchResult) (skipped : nat -> nat)
  : Outcome Response :=
  {| value :=
       match batch.(value) with
       | BatchFailed detail => mlServiceError detail
       | BatchOk processed saved cached =>
           json (PredictSummary processed (skipped cached) saved)
       end;
     database := batch.(database);
     posted := batch.(posted) |}.

(** [POST /api/ml/predict], with the [employeeId] query parameter when it
    is present and not empty. *)
Definition mlPredict (env : Env) (employeeIdParam : option Z) (db : Database)
  : Outcome Response :=
  match employeeIdParam with
  | Some employeeId =>
      match getEmployee db employeeId with
      | None => done employeeNotFound db
      | Some _ =>
          match buildPayloadForEmployee db employeeId with
          | None => done (json (PredictSummary 0 1 0)) db
          | Some payload =>
              replyToBatch (runMlBatch env db [payload]) (fun _ => 0%nat)
          end
      end
  | None =>
      let (skipped, batchPayload) := collectPayloads db (getEmployees db) in
      if (List.length batchPayload =? 0)%nat then
        done (json (PredictSummary 0 skipped 0)) db
      else
        replyToBatch (runMlBatch env db batchPayload)
          (fun cached => (skipped + cached)%nat)
  end.

(** [POST /api/ml/predict/:employeeId]. *)
Definition mlPredictOne (env : Env) (employeeId : Z) (db : Database)
  : Outcome Response :=
  match getEmployee db employeeId with
  | None => done employeeNotFound db
  | Some _ =>
      match buildPayloadForEmployee db employeeId with
      | None => done (json (PredictSummary 0 1 0)) db
      | Some payload =>
          replyToBatch (runMlBatch env db [payload]) (fun cached => cached)
      end
  end.

(** The three ways to start a prediction run. *)
Inductive PredictRequest : Type :=
| PredictAll
| PredictQuery (employeeId : Z)
| PredictPath (employeeId : Z).

Definition handlePredict (env : Env) (req : PredictRequest) (db : Database)
  : Outcome Response :=
  match req with
  | PredictAll => mlPredict env None db
  | PredictQuery employeeId => mlPredict env (Some employeeId) db
  | PredictPath employeeId => mlPredictOne env employeeId db
  end.

(** ** server/routes.ts: the team health endpoint *)

Record TrendBucket : Type := {
  tb_count : number;
  tb_burnout : number;
  tb_performance : number
}.

(** [new Date(h.date).toISOString().split('T')[0]]: the UTC calendar day,
    kept as its day number since the epoch; comparing day numbers orders
    the days as [localeCompare] orders their ISO strings. *)
Definition utcDay (t : timestamp) : Z := t / msPerDay.

Definition trendMapGet (m : list (Z * TrendBucket)) (dateStr : Z)
  : option TrendBucket :=
  option_map snd (find (fun kv => fst kv =? dateStr) m).

Fixpoint trendMapSet (m : list (Z * TrendBucket)) (dateStr : Z) (v : TrendBucket)
  : list (Z * TrendBucket) :=
  match m with
  | [] => [(dateStr, v)]
  | (k, x) :: rest =>
      if k =? dateStr then (k, v) :: rest else (k, x) :: trendMapSet rest dateStr v
  end.

Definition trendStep (trendMap : list (Z * TrendBucket)) (h : HealthScore)
  : list (Z * TrendBucket) :=
  let dateStr := utcDay h.(hs_date) in
  let existing :=
    orElse (trendMapGet trendMap dateStr)
      {| tb_count := n0; tb_burnout := n0; tb_performance := n0 |} in
  trendMapSet trendMap dateStr
    {| tb_count := (existing.(tb_count) + n1)%num;
       tb_burnout := (existing.(tb_burnout) + h.(hs_burnoutRisk))%num;
       tb_performance := (existing.(tb_performance) + h.(hs_performanceScore))%num |}.

Record TrendPoint : Type := {
  tp_date : Z;
  tp_burnout : number;
  tp_performance : number
}.

Definition trendDataOf (trendRaw : list HealthScore) : list TrendPoint :=
  let trendMap := fold_left trendStep trendRaw [] in
  orderBy (asc tp_date)
    (map (fun kv =>
            {| tp_date := fst kv;
               tp_burnout :=
                 JS.Math_round ((snd kv).(tb_burnout) / (snd kv).(tb_count))%num;
               tp_performance :=
                 JS.Math_round ((snd kv).(tb_performance) / (snd kv).(tb_count))%num |})
       trendMap).

Section StatusLabels.
Local Open Scope number_scope.

Definition burnoutRiskLabel (health : TeamHealth) : string :=
  if health.(th_burnoutRisk) >? n70 then "High"%string
  else if health.(th_burnoutRisk) >? n40 then "Medium"%string
  else "Low"%string.

Definition growthPotentialLabel (health : TeamHealth) : string :=
  if (health.(th_performanceScore) >? n80) && (health.(th_engagementScore) >? n80)
  then "Emerging"%string
  else if health.(th_performanceScore) <? n50 then "Stalled"%string
  else "Steady"%string.

Definition engagementHealthLabel (health : TeamHealth) : string :=
  if health.(th_workloadScore) >? n80 then "Overloaded"%string
  else if health.(th_engagementScore) <? n40 then "Disconnected"%string
  else "Balanced"%string.

End StatusLabels.

Record TeamHealthResponse : Type := {
  healthScore : number;
  burnoutRisk : string;
  growthPotential : string;
  engagementHealth : string;
  trendData : list TrendPoint
}.

(** [GET /api/team/health]. *)
Definition teamHealth (db : Database) (now : timestamp) : TeamHealthResponse :=
  let health := getLatestTeamHealth db now in
  let trendRaw := getTeamHealthTrend db now 14 in
  {| healthScore :=
       JS.Math_round
         ((health.(th_engagementScore) + health.(th_performanceScore)) / n2)%num;
     burnoutRisk := burnoutRiskLabel health;
     growthPotential := growthPotentialLabel health;
     engagementHealth := engagementHealthLabel health;
     trendData := trendDataOf trendRaw |}.

(** ** Concrete inputs used by the statements below *)

Definition n1_4 : number := Eval vm_compute in Prim2SF 1.4%float.
Definition n1_6 : number := Eval vm_compute in Prim2SF 1.6%float.

(** The end-to-end scenario: the eight metric values are fixed, the row
    id, the employee, the week and the creation time are arbitrary. *)
Definition scenarioMetric (id employeeId : Z) (week : timestamp)
  (createdAt : option timestamp) : EmployeeWeeklyMetric :=
  {| wm_id := id; wm_employeeId := employeeId; weekStart := week;
     tasksAssigned := JS.ofZ 20; tasksCompleted := JS.ofZ 18;
     missedDeadlines := JS.ofZ 1; meetingHours := JS.ofZ 5;
     collaborationScore := n0_8; engagementScore := n0_75;
     learningHours := JS.ofZ 2; stretchAssignments := JS.ofZ 1;
     wm_createdAt := createdAt |}.

(** The rows of [employee_weekly_metrics] stored for an employee. *)
Definition storedMetrics (db : Database) (employeeId : Z)
  : list EmployeeWeeklyMetric :=
  filter (fun row => row.(wm_employeeId) =? employeeId)
    db.(employeeWeeklyMetrics).



(** A health score of employee 1 dated nine days after the epoch. *)
Definition futureScore : HealthScore :=
  {| hs_id := 1; hs_employeeId := 1;
     hs_burnoutRisk := JS.ofZ 90; hs_engagementScore := JS.ofZ 90;
     hs_performanceScore := JS.ofZ 90; hs_workloadScore := JS.ofZ 90;
     hs_date := 9 * msPerDay |}.

Definition futureScoreDatabase : Database :=
  set_healthScores emptyDatabase [futureScore] 2.

(** Fewer than four weekly metrics are stored for the employee. *)
Definition insufficientWindow (db : Database) (employeeId : Z) : bool :=
  (List.length (storedMetrics db employeeId) <? 4)%nat.

(** The cache gate's verdict on a payload. *)
Definition isCached (env : Env) (db : Database) (payload : Payload) : bool :=
  match recentlyCachedPrediction env db payload with
  | Some _ => true
  | None => false
  end.

(** The employees a prediction run is asked about. *)
Definition targets (db : Database) (req : PredictRequest) : list Z :=
  match req with
  | PredictAll => map emp_id (getEmployees db)
  | PredictQuery employeeId | PredictPath employeeId =>
      match getEmployee db employeeId with
      | Some _ => [employeeId]
      | None => []
      end
  end.

(** The week of a payload carries the start and the eight numbers of the
    stored row. *)
Definition carriesWeek (row : EmployeeWeeklyMetric) (week : PayloadWeek) : Prop :=
  week.(week_start) = row.(weekStart)
  /\ week.(tasks_assigned) = row.(tasksAssigned)
  /\ week.(tasks_completed) = row.(tasksCompleted)
  /\ week.(missed_deadlines) = row.(missedDeadlines)
  /\ week.(meeting_hours) = row.(meetingHours)
  /\ week.(collaboration_score) = row.(collaborationScore)
  /\ week.(engagement_score) = row.(engagementScore)
  /\ week.(learning_hours) = row.(learningHours)
  /\ week.(stretch_assignments) = row.(stretchAssignments).

(** The window an employee's payload must hold: four stored rows of the
    employee, oldest first, none older than a row left out, each carried
    by the week at its place. *)
Definition latestFourWeeks (db : Database) (employeeId : Z) (payload : Payload)
  : Prop :=
  exists window rest : list EmployeeWeeklyMetric,
    Forall2 carriesWeek window payload.(weeks)
    /\ List.length window = 4%nat
    /\ Permutation (window ++ rest) (storedMetrics db employeeId)
    /\ (forall r x, In r rest -> In x window -> weekStart r <= weekStart x)
    /\ StronglySorted (fun a b => weekStart a <= weekStart b) window.

(** ** A small database for the concrete statements *)

Definition msPerWeek : Z := 7 * msPerDay.

Definition demoEmployees : list Employee :=
  [ {| emp_id := 1; emp_name := "Alice Chen"; emp_role := "Senior Engineer";
       emp_department := "Engineering"; emp_email := "alice@pulse.ai" |};
    {| emp_id := 2; emp_name := "Bob Smith"; emp_role := "Product Manager";
       emp_department := "Product"; emp_email := "bob@pulse.ai" |} ].

(** Five weeks for employee 1, stored out of order, and three for
    employee 2. *)
Definition demoMetrics : list EmployeeWeeklyMetric :=
  [ scenarioMetric 1 1 (2 * msPerWeek) None;
    scenarioMetric 2 1 0 None;
    scenarioMetric 3 1 (4 * msPerWeek) None;
    scenarioMetric 4 1 (1 * msPerWeek) None;
    scenarioMetric 5 1 (3 * msPerWeek) None;
    scenarioMetric 6 2 0 None;
    scenarioMetric 7 2 (1 * msPerWeek) None;
    scenarioMetric 8 2 (2 * msPerWeek) None ].

Definition demoPredictionData : InsertEmployeeMlPrediction :=
  {| imp_employeeId := 1;
     imp_windowStart := 1 * msPerWeek; imp_windowEnd := 4 * msPerWeek;
     imp_burnoutRisk := "low"; imp_burnoutConfidence := n0_8;
     imp_performanceTrend := "stable"; imp_performanceConfidence := n0_75;
     imp_growthPotential := "high"; imp_growthConfidence := n0_6;
     imp_topFeatures := {| tf_burnout := []; tf_performance := []; tf_growth := [] |};
     imp_recommendations := []; imp_explanation := "" |}.

(** When the stored prediction of employee 1 was created. *)
Definition demoCreatedAt : timestamp := 5 * msPerWeek.

Definition demoDatabase : Database :=
  {| employees := demoEmployees;
     healthScores := []; healthScores_id_seq := 1;
     employeeWeeklyMetrics := demoMetrics;
     employeeMlPredictions :=
       [ {| mp_id := 1; mp_data := demoPredictionData;
            mp_createdAt := Some demoCreatedAt |} ];
     employeeMlPredictions_id_seq := 2 |}.

Definition failingService (toPredict : list Payload) : FetchResponse :=
  {| resp_ok := false; resp_text := "model unavailable"; resp_results := None |}.

(** The TTL variable is unset; the clock is [age] milliseconds past the
    creation of the stored prediction; the ML service answers with a
    non-success status. *)
Definition demoEnv (age : Z) : Env :=
  {| ML_PREDICTION_CACHE_TTL_MS := None;
     dateNow := demoCreatedAt + age;
     dbNow := demoCreatedAt + age;
     fetchPredictBatch := failingService |}.

(** The payload of employee 1: weeks 1 to 4, oldest first. *)
Definition demoPayload : Payload :=
  {| employee_id := 1;
     weeks := map toPayloadWeek
                [ scenarioMetric 4 1 (1 * msPerWeek) None;
                  scenarioMetric 1 1 (2 * msPerWeek) None;
                  scenarioMetric 5 1 (3 * msPerWeek) None;
                  scenarioMetric 3 1 (4 * msPerWeek) None ] |}.

(** ** Sequences of upserts *)

(** The natural key of a health score: the employee and the date. *)
Definition hsKey (row : HealthScore) : Z * timestamp :=
  (row.(hs_employeeId), row.(hs_date)).

Definition scoreKey (score : InsertHealthScore) : Z * timestamp :=
  (score.(ihs_employeeId), score.(ihs_date)).

(** The identity of a row: its id with its natural key. *)
Definition hsIdKey (row : HealthScore) : Z * (Z * timestamp) :=
  (row.(hs_id), hsKey row).

(** The row carries the four values of the score. *)
Definition holdsScore (score : InsertHealthScore) (row : HealthScore) : Prop :=
  row.(hs_burnoutRisk) = score.(ihs_burnoutRisk)
  /\ row.(hs_engagementScore) = score.(ihs_engagementScore)
  /\ row.(hs_performanceScore) = score.(ihs_performanceScore)
  /\ row.(hs_workloadScore) = score.(ihs_workloadScore).

(** [id] is a primary key fed by the serial sequence: the ids are pairwise
    distinct and below the next value of the sequence. *)
Definition primaryKeyed (db : Database) : Prop :=
  NoDup (map hs_id db.(healthScores))
  /\ Forall (fun row => row.(hs_id) < db.(healthScores_id_seq)) db.(healthScores).

(** No two rows share the natural key. *)
Definition oneRowPerKey (db : Database) : Prop :=
  NoDup (map hsKey db.(healthScores)).

(** The database after the upserts of [scores], first to last. *)
Definition upsertAll (db : Database) (scores : list InsertHealthScore) : Database :=
  fold_left (fun db score => snd (upsertHealthScore db score)) scores db.

Definition keyEqb (k1 k2 : Z * timestamp) : bool :=
  (fst k1 =? fst k2) && (snd k1 =? snd k2).

(** The last score of [scores] with the given key. *)
Fixpoint lastUpsert (key : Z * timestamp) (scores : list InsertHealthScore)
  : option InsertHealthScore :=
  match scores with
  | [] => None
  | score :: rest =>
      match lastUpsert key rest with
      | Some later => Some later
      | None => if keyEqb (scoreKey score) key then Some score else None
      end
  end.

Definition demoScore (employeeId : Z) (date : timestamp) (v : Z) : InsertHealthScore :=
  {| ihs_employeeId := employeeId;
     ihs_burnoutRisk := JS.ofZ v; ihs_engagementScore := JS.ofZ v;
     ihs_performanceScore := JS.ofZ v; ihs_workloadScore := JS.ofZ v;
     ihs_date := date |}.

(** Two scores for employee 1 at week 0, with one for employee 2 between. *)
Definition demoScores : list InsertHealthScore :=
  [demoScore 1 0 10; demoScore 2 0 20; demoScore 1 0 30].

(** ** Predicates on numbers *)

(** The value is an integer between 0 and 100. *)
Definition isInteger0to100 (x : number) : Prop :=
  exists n : Z, 0 <= n <= 100 /\ x = JS.ofZ n.

(** A finite number has a mantissa of at most 53 bits; every binary64
    value has. *)
Definition mantissaOk (x : number) : Prop :=
  match x with
  | S754_finite _ m _ => Zpos m < 2 ^ 53
  | _ => True
  end.

(** The number is a zero, or finite with absolute value below [2^k]. *)
Definition finiteBelow (k : Z) (x : number) : Prop :=
  match x with
  | S754_zero _ => True
  | S754_finite _ m e => Zpos m < 2 ^ 53 /\ Zpos (digits2_pos m) + e <= k
  | _ => False
  end.

(** The sign bit of a number that is not NaN is [s]. *)
Definition hasSign (s : bool) (x : number) : Prop :=
  match x with
  | S754_zero sx | S754_infinity sx | S754_finite sx _ _ => sx = s
  | S754_nan => False
  end.

(** The number is canonical binary64 data. *)
Definition isBinary64 (x : number) : bool := valid_binary JS.prec JS.emax x.

(** The number is [+0], or positive, finite and at most 100. *)
Definition inZeroTo100 (x : number) : Prop :=
  x = n0
  \/ exists m e, x = S754_finite false m e /\ Zpos m < 2 ^ 53 /\ JS.le x n100 = true.

(** ** Rows as the schema stores them *)

(** The value of an [integer] column: a 32-bit integer. *)
Definition isInt32 (x : number) : Prop :=
  exists z : Z, - 2 ^ 31 <= z < 2 ^ 31 /\ x = JS.ofZ z.

(** A finite value of a [real] column: single precision ends below
    [2^128]. *)
Definition isReal4 (x : number) : Prop := finiteBelow 128 x.

Definition storedRow (metric : EmployeeWeeklyMetric) : Prop :=
  isInt32 metric.(tasksAssigned)
  /\ isInt32 metric.(tasksCompleted)
  /\ isInt32 metric.(missedDeadlines)
  /\ isInt32 metric.(stretchAssignments)
  /\ isReal4 metric.(meetingHours)
  /\ isReal4 metric.(collaborationScore)
  /\ isReal4 metric.(engagementScore)
  /\ isReal4 metric.(learningHours).

(** Every numeric field is finite binary64 data. *)
Definition finiteFields (metric : EmployeeWeeklyMetric) : bool :=
  forallb (fun x => JS.isFinite x && isBinary64 x)
    [ metric.(tasksAssigned); metric.(tasksCompleted); metric.(missedDeadlines);
      metric.(meetingHours); metric.(collaborationScore);
      metric.(engagementScore); metric.(learningHours);
      metric.(stretchAssignments) ].

(** [Number.MAX_VALUE], about 1.8e308. *)
Definition MAX_VALUE : number := Eval vm_compute in SFmax_float JS.prec JS.emax.

(** A metric of finite fields: the largest number of tasks and the most
    negative number of meeting hours. *)
Definition extremeMetric : EmployeeWeeklyMetric :=
  {| wm_id := 1; wm_employeeId := 1; weekStart := 0;
     tasksAssigned := MAX_VALUE; tasksCompleted := n0;
     missedDeadlines := n0; meetingHours := SFopp MAX_VALUE;
     collaborationScore := n0; engagementScore := n0;
     learningHours := n0; stretchAssignments := n0;
     wm_createdAt := None |}.

(** ** The derived stretch assignments (server/routes.ts, script/import) *)

Definition n3 : number := Eval vm_compute in Prim2SF 3%float.
Definition n15 : number := Eval vm_compute in Prim2SF 15%float.

(** [computeStretchAssignments] of the import script; the CSV handler of
    [routes.ts] has the same expression inline. *)
Definition computeStretchAssignments (tasksAssigned : number) : number :=
  let raw := JS.Math_round (JS.div (JS.sub tasksAssigned n15) n5) in
  JS.Math_max n0 (JS.Math_min n3 raw).

(** The metric with its three counts floored at zero. *)
Definition floorAtZero (x : number) : number := if JS.lt x n0 then n0 else x.

Definition flooredCounts (metric : EmployeeWeeklyMetric) : EmployeeWeeklyMetric :=
  {| wm_id := metric.(wm_id); wm_employeeId := metric.(wm_employeeId);
     weekStart := metric.(weekStart);
     tasksAssigned := floorAtZero metric.(tasksAssigned);
     tasksCompleted := floorAtZero metric.(tasksCompleted);
     missedDeadlines := floorAtZero metric.(missedDeadlines);
     meetingHours := metric.(meetingHours);
     collaborationScore := metric.(collaborationScore);
     engagementScore := metric.(engagementScore);
     learningHours := metric.(learningHours);
     stretchAssignments := metric.(stretchAssignments);
     wm_createdAt := metric.(wm_createdAt) |}.

(** The integers from [lo], [len] of them. *)
Definition zrange (lo : Z) (len : nat) : list Z :=
  map (fun i => lo + Z.of_nat i) (seq 0 len).

(** The two numbers are the same datum. *)
Definition sameNumber (x y : number) : bool :=
  match x, y with
  | S754_zero s, S754_zero s' => Bool.eqb s s'
  | S754_infinity s, S754_infinity s' => Bool.eqb s s'
  | S754_nan, S754_nan => true
  | S754_finite s m e, S754_finite s' m' e' =>
      Bool.eqb s s' && Pos.eqb m m' && Z.eqb e e'
  | _, _ => false
  end.

(** An engagement score given as the percentage [p] and as the fraction
    [p / 100] both come out as [p]. *)
Definition scaleAgrees (p : Z) : bool :=
  sameNumber (JS.Math_round (normalize (JS.ofZ p))) (JS.ofZ p)
  && sameNumber (JS.Math_round (normalize (JS.div (JS.ofZ p) n100))) (JS.ofZ p).

(** ** server/storage.ts and server/routes.ts: reading predictions *)

(** The stored predictions of an employee. *)
Definition mlPredictionsOf (db : Database) (employeeId : Z)
  : list EmployeeMlPrediction :=
  filter (fun row => mp_employeeId row =? employeeId) db.(employeeMlPredictions).

(** [p] sorts no later than [q] under [ORDER BY created_at DESC]. *)
Definition notOlder (p q : EmployeeMlPrediction) : Prop :=
  descNullable mp_createdAt p q = true.

(** [latestByEmployee]: a [Map] keeps the first prediction seen for each
    employee, in insertion order. *)
Definition latestByEmployeeStep (latestByEmployee : list EmployeeMlPrediction)
  (prediction : EmployeeMlPrediction) : list EmployeeMlPrediction :=
  if existsb (fun p => mp_employeeId p =? mp_employeeId prediction) latestByEmployee
  then latestByEmployee
  else latestByEmployee ++ [prediction].

(** [new Map(employeeList.map((emp) => [emp.id, emp.name])).get(id)]: of
    two entries with one key the later one stays. *)
Definition employeeMapGet (employeeList : list Employee) (id : Z) : option string :=
  option_map emp_name (find (fun emp => emp.(emp_id) =? id) (rev employeeList)).

(** A prediction with the [employeeName] spread next to its columns. *)
Record NamedPrediction : Type := {
  np_prediction : EmployeeMlPrediction;
  np_employeeName : string
}.

Definition getLatestMlPredictions (db : Database) : list NamedPrediction :=
  let predictions := orderBy (descNullable mp_createdAt) db.(employeeMlPredictions) in
  let latestByEmployee := fold_left latestByEmployeeStep predictions [] in
  map (fun prediction =>
         {| np_prediction := prediction;
            np_employeeName :=
              orElse (employeeMapGet db.(employees) (mp_employeeId prediction))
                "Employee"%string |})
    latestByEmployee.

(** The answer of a read-only route: a status with a body, or with a
    message. *)
Inductive Reply (A : Type) : Type :=
| Body (code : Z) (content : A)
| Message (code : Z) (text : string).
Arguments Body {A} _ _.
Arguments Message {A} _ _.

(** [GET /api/ml/predictions]. *)
Definition mlPredictionsList (db : Database) : Reply (list NamedPrediction) :=
  Body 200 (getLatestMlPredictions db).

(** [GET /api/ml/predictions/:employeeId]. *)
Definition mlPredictionsGet (db : Database) (employeeId : Z)
  : Reply EmployeeMlPrediction :=
  match getLatestMlPrediction db employeeId with
  | None => Message 404 "Prediction not found"
  | Some prediction => Body 200 prediction
  end.

(** An empty payload naming an employee, for statements about the gate. *)
Definition payloadFor (employeeId : Z) : Payload :=
  {| employee_id := employeeId; weeks := [] |}.

(** A second stored prediction of employee 1, older than the first, and
    one of employee 3, who is not in the employees table. *)
Definition demoPredictions : list EmployeeMlPrediction :=
  [ {| mp_id := 1; mp_data := demoPredictionData; mp_createdAt := Some 100 |};
    {| mp_id := 2; mp_data := demoPredictionData; mp_createdAt := Some 200 |};
    {| mp_id := 3;
       mp_data :=
         {| imp_employeeId := 3;
            imp_windowStart := 0; imp_windowEnd := 0;
            imp_burnoutRisk := "High"; imp_burnoutConfidence := n0_8;
            imp_performanceTrend := "Declining"; imp_performanceConfidence := n0_75;
            imp_growthPotential := "Stable"; imp_growthConfidence := n0_6;
            imp_topFeatures :=
              {| tf_burnout := ["meeting_hours"%string; "tasks_assigned"%string];
                 tf_performance := ["missed_deadlines"%string];
                 tf_growth := [] |};
            imp_recommendations := []; imp_explanation := "" |};
       mp_createdAt := Some 150 |} ].

Definition demoPredictionDatabase : Database :=
  set_mlPredictions demoDatabase demoPredictions 4.

(** ** Statements about prediction runs *)

(** The ids of the stored predictions are pairwise distinct and below the
    next value of the sequence. *)
Definition predictionsKeyed (db : Database) : Prop :=
  NoDup (map mp_id db.(employeeMlPredictions))
  /\ Forall (fun row => row.(mp_id) < db.(employeeMlPredictions_id_seq))
       db.(employeeMlPredictions).

(** The run reports the employees the cache gate held back. *)
Definition countsCached (req : PredictRequest) : bool :=
  match req with
  | PredictQuery _ => false
  | _ => true
  end.

(** A service that answers every batch with one result per payload. *)
Definition echoResult (payload : Payload) : MlResult :=
  {| res_employee_id := payload.(employee_id);
     window_start := 0; window_end := 0;
     burnout_risk := "Low"; burnout_confidence := n0_8;
     performance_trend := "Stable"; performance_confidence := n0_75;
     growth_potential := "Steady"; growth_confidence := n0_6;
     burnout_top_features := None; performance_top_features := None;
     growth_top_features := None; recommendations := None;
     explanation := None |}.

Definition echoService (toPredict : list Payload) : FetchResponse :=
  {| resp_ok := true; resp_text := "";
     resp_results := Some (map echoResult toPredict) |}.

(** The clock is [age] milliseconds past the creation of the stored
    prediction of the demo database; the service answers. *)
Definition echoEnv (age : Z) : Env :=
  {| ML_PREDICTION_CACHE_TTL_MS := None;
     dateNow := demoCreatedAt + age;
     dbNow := demoCreatedAt + age;
     fetchPredictBatch := echoService |}.

(** The predictions a step stored: the rows past those of [db]. *)
Definition storedBy {A : Type} (db : Database) (out : Outcome A)
  : list EmployeeMlPrediction :=
  skipn (List.length db.(employeeMlPredictions))
    out.(database).(employeeMlPredictions).

(** ** server/routes.ts: recomputing the health scores *)

Definition getAllWeeklyMetrics (db : Database) : list EmployeeWeeklyMetric :=
  orderBy (desc weekStart) db.(employeeWeeklyMetrics).

(** The integer a number is, if it is one. *)
Definition integerOf (x : number) : option Z :=
  match x with
  | S754_zero _ => Some 0
  | S754_finite s m e =>
      if 0 <=? e then Some (cond_Zopp s (Zpos m * 2 ^ e))
      else if Zpos m mod 2 ^ (- e) =? 0
           then Some (cond_Zopp s (Zpos m / 2 ^ (- e)))
           else None
  | _ => None
  end.

(** What an [integer] column takes: a 32-bit integer.  NaN, the
    infinities and fractions are refused. *)
Definition fitsInteger (x : number) : bool :=
  match integerOf x with
  | Some z => (- 2 ^ 31 <=? z) && (z <? 2 ^ 31)
  | None => false
  end.

(** The four scores of [health_scores] are [integer] columns: the insert
    or the update of any other score is rejected by the database. *)
Definition acceptsScore (score : InsertHealthScore) : bool :=
  fitsInteger score.(ihs_burnoutRisk)
  && fitsInteger score.(ihs_engagementScore)
  && fitsInteger score.(ihs_performanceScore)
  && fitsInteger score.(ihs_workloadScore).

(** The health score of the metric is one the database accepts. *)
Definition scoreAccepted (metric : EmployeeWeeklyMetric) : bool :=
  acceptsScore (computeHealthScoreFromMetric metric).

(** The loop of the recompute handler: the rows pushed to [updated] and
    the database.  When an upsert is rejected the handler throws: the
    rows are [None] and the database is as the upserts before left it. *)
Fixpoint recomputeLoop (db : Database) (allMetrics : list EmployeeWeeklyMetric)
  (updated : list HealthScore) : option (list HealthScore) * Database :=
  match allMetrics with
  | [] => (Some updated, db)
  | metric :: rest =>
      if scoreAccepted metric then
        let out := upsertHealthScore db (computeHealthScoreFromMetric metric) in
        recomputeLoop (snd out) rest (updated ++ [fst out])
      else (None, db)
  end.

(** [POST /api/team/recompute]: the value is the [updated] of the body,
    or [None] when the handler throws and gives no answer of its own. *)
Definition teamRecompute (db : Database) : Outcome (option nat) :=
  let (updated, db') := recomputeLoop db (getAllWeeklyMetrics db) [] in
  done (option_map (@List.length HealthScore) updated) db'.

(** The demo database with one more weekly metric, of employee 2, whose
    [meeting_hours] is NaN, as a [real] column can hold. *)
Definition nanMetric : EmployeeWeeklyMetric :=
  {| wm_id := 9; wm_employeeId := 2; weekStart := 3 * msPerWeek + msPerDay;
     tasksAssigned := JS.ofZ 20; tasksCompleted := JS.ofZ 18;
     missedDeadlines := JS.ofZ 1; meetingHours := JS.NaN;
     collaborationScore := n0_8; engagementScore := n0_75;
     learningHours := JS.ofZ 2; stretchAssignments := JS.ofZ 1;
     wm_createdAt := None |}.

Definition nanDatabase : Database :=
  {| employees := demoDatabase.(employees);
     healthScores := []; healthScores_id_seq := 1;
     employeeWeeklyMetrics := demoDatabase.(employeeWeeklyMetrics) ++ [nanMetric];
     employeeMlPredictions := demoDatabase.(employeeMlPredictions);
     employeeMlPredictions_id_seq := demoDatabase.(employeeMlPredictions_id_seq) |}.

(** The natural key of the health score of a weekly metric. *)
Definition metricKey (metric : EmployeeWeeklyMetric) : Z * timestamp :=
  (metric.(wm_employeeId), metric.(weekStart)).

(** What a sequence of upserts makes of a row whose key it upserts. *)
Definition applyLast (scores : list InsertHealthScore) (row : HealthScore)
  : HealthScore :=
  match lastUpsert (hsKey row) scores with
  | Some score => setHealthScore score row
  | None => row
  end.

Definition demoScoredDatabase : Database :=
  set_healthScores demoDatabase
    [ insertedHealthScore 1
        {| ihs_employeeId := 1; ihs_burnoutRisk := n0; ihs_engagementScore := n0;
           ihs_performanceScore := n0; ihs_workloadScore := n0;
           ihs_date := 4 * msPerWeek |};
      insertedHealthScore 2
        {| ihs_employeeId := 9; ihs_burnoutRisk := n50; ihs_engagementScore := n50;
           ihs_performanceScore := n50; ihs_workloadScore := n50;
           ihs_date := 0 |} ]
    3.

(** ** server/routes.ts: generating insights *)

Record Insight : Type := {
  in_id : Z;
  in_title : string;
  in_description : string;
  in_type : string;
  in_level : string;
  in_createdAt : option timestamp
}.

Record InsertInsight : Type := {
  ii_title : string;
  ii_description : string;
  ii_type : string;
  ii_level : string
}.

(** The table [insights] in scan order, with the next value of its serial
    sequence. *)
Record InsightsTable : Type := {
  insights : list Insight;
  insights_id_seq : Z
}.

Definition createInsight (table : InsightsTable) (dbNow : timestamp)
  (insight : InsertInsight) : Insight * InsightsTable :=
  let newInsight :=
    {| in_id := table.(insights_id_seq);
       in_title := insight.(ii_title);
       in_description := insight.(ii_description);
       in_type := insight.(ii_type);
       in_level := insight.(ii_level);
       in_createdAt := Some dbNow |} in
  (newInsight,
   {| insights := table.(insights) ++ [newInsight];
      insights_id_seq := table.(insights_id_seq) + 1 |}).

(** The counters of the [reduce]; they count predictions, so they are
    kept as natural numbers. *)
Record InsightCounts : Type := {
  highBurnout : nat;
  decliningPerformance : nat;
  highPotential : nat
}.

Definition countStep (acc : InsightCounts) (pred : NamedPrediction)
  : InsightCounts :=
  let data := pred.(np_prediction).(mp_data) in
  {| highBurnout :=
       if String.eqb data.(imp_burnoutRisk) "High"
       then S acc.(highBurnout) else acc.(highBurnout);
     decliningPerformance :=
       if String.eqb data.(imp_performanceTrend) "Declining"
       then S acc.(decliningPerformance) else acc.(decliningPerformance);
     highPotential :=
       if String.eqb data.(imp_growthPotential) "High-Potential"
       then S acc.(highPotential) else acc.(highPotential) |}.

(** A [Map<string, number>] in insertion order. *)
Definition countMapGet (m : list (string * nat)) (key : string) : option nat :=
  option_map snd (find (fun kv => String.eqb (fst kv) key) m).

Fixpoint countMapSet (m : list (string * nat)) (key : string) (v : nat)
  : list (string * nat) :=
  match m with
  | [] => [(key, v)]
  | (k, x) :: rest =>
      if String.eqb k key then (k, v) :: rest else (k, x) :: countMapSet rest key v
  end.

(** [map.set(value, (map.get(value) || 0) + 1)]. *)
Definition countFeature (m : list (string * nat)) (value : string)
  : list (string * nat) :=
  countMapSet m value (orElse (countMapGet m value) 0 + 1)%nat.

Record FeatureCounts : Type := {
  fc_burnout : list (string * nat);
  fc_performance : list (string * nat);
  fc_growth : list (string * nat)
}.

Definition featureStep (featureCounts : FeatureCounts) (pred : NamedPrediction)
  : FeatureCounts :=
  let top := pred.(np_prediction).(mp_data).(imp_topFeatures) in
  {| fc_burnout := fold_left countFeature top.(tf_burnout) featureCounts.(fc_burnout);
     fc_performance :=
       fold_left countFeature top.(tf_performance) featureCounts.(fc_performance);
     fc_growth := fold_left countFeature top.(tf_growth) featureCounts.(fc_growth) |}.

(** [Array.from(map.entries()).sort((a, b) => b[1] - a[1]).slice(0, 5)
    .map(([feature]) => feature)]. *)
Definition topFeatures (m : list (string * nat)) : list string :=
  map fst (firstn 5 (orderBy (desc (fun kv => Z.of_nat (snd kv))) m)).

Record InsightsPayload : Type := {
  total_employees : nat;
  high_burnout_count : nat;
  declining_performance_count : nat;
  high_potential_count : nat;
  top_burnout_features : list string;
  top_performance_features : list string;
  top_growth_features : list string
}.

Definition insightsPayload (predictions : list NamedPrediction) : InsightsPayload :=
  let counts :=
    fold_left countStep predictions
      {| highBurnout := 0; decliningPerformance := 0; highPotential := 0 |} in
  let featureCounts :=
    fold_left featureStep predictions
      {| fc_burnout := []; fc_performance := []; fc_growth := [] |} in
  {| total_employees := List.length predictions;
     high_burnout_count := counts.(highBurnout);
     declining_performance_count := counts.(decliningPerformance);
     high_potential_count := counts.(highPotential);
     top_burnout_features := topFeatures featureCounts.(fc_burnout);
     top_performance_features := topFeatures featureCounts.(fc_performance);
     top_growth_features := topFeatures featureCounts.(fc_growth) |}.

(** An insight of the reply of the ML service that has a title and a
    description, texts that the columns store; [type] and [level] may be
    missing. *)
Record GeneratedInsight : Type := {
  gi_title : string;
  gi_description : string;
  gi_type : option string;
  gi_level : option string
}.

(** An element of the [insights] array of the reply: an insight with its
    title and description, or any other value (one without a title or a
    description, one with a text that a column refuses, or [null]), at
    which the handler throws: the columns [title] and [description] are
    not nullable. *)
Inductive ReplyInsight : Type :=
| Complete (insight : GeneratedInsight)
| Incomplete.

(** The body of a reply read by [mlResponse.json()]: a body that is not
    JSON, or is [null], at which the handler throws; or a JSON value with
    its [insights] member when that is an array. *)
Inductive InsightsBody : Type :=
| Unreadable
| Readable (insights : option (list ReplyInsight)).

(** What the handler reads of the reply of [/insights/team]. *)
Record InsightsResponse : Type := {
  ir_ok : bool;
  ir_text : string;
  ir_body : InsightsBody
}.

(** [s || d] on a string that may be missing: the empty string is falsy. *)
Definition orDefault (s : option string) (d : string) : string :=
  match s with
  | None | Some EmptyString => d
  | Some v => v
  end.

Definition toInsertInsight (insight : GeneratedInsight) : InsertInsight :=
  {| ii_title := insight.(gi_title);
     ii_description := insight.(gi_description);
     ii_type := orDefault insight.(gi_type) "team_shift";
     ii_level := orDefault insight.(gi_level) "team" |}.

(** The answer of the handler; [InsightsThrew] when it throws and gives
    no answer of its own. *)
Inductive InsightsReply : Type :=
| InsightsMessage (code : Z) (message : string) (detail : option string)
| InsightsCreated (code : Z) (createdInsights : list Insight)
| InsightsThrew.


Record InsightsOutcome : Type := {
  io_reply : InsightsReply;
  io_table : InsightsTable;
  io_posted : list InsightsPayload
}.

(** The loop over [generated]: the rows pushed to [createdInsights] and
    the table; the rows are [None] when the loop throws, and the table
    then holds the rows created before. *)
Fixpoint createInsights (table : InsightsTable) (dbNow : timestamp)
  (generated : list ReplyInsight) (createdInsights : list Insight)
  : option (list Insight) * InsightsTable :=
  match generated with
  | [] => (Some createdInsights, table)
  | Complete insight :: rest =>
      let out := createInsight table dbNow (toInsertInsight insight) in
      createInsights (snd out) dbNow rest (createdInsights ++ [fst out])
  | Incomplete :: _ => (None, table)
  end.

(** [POST /api/insights/generate]; [fetchInsightsTeam] gives [None] when
    [fetch] rejects. *)
Definition insightsGenerate
  (fetchInsightsTeam : InsightsPayload -> option InsightsResponse)
  (dbNow : timestamp) (db : Database) (table : InsightsTable) : InsightsOutcome :=
  let predictions := getLatestMlPredictions db in
  if (List.length predictions =? 0)%nat then
    {| io_reply := InsightsMessage 400 "No predictions available to summarize." None;
       io_table := table; io_posted := [] |}
  else
    let payload := insightsPayload predictions in
    match fetchInsightsTeam payload with
    | None => {| io_reply := InsightsThrew; io_table := table; io_posted := [payload] |}
    | Some mlResponse =>
        if negb mlResponse.(ir_ok) then
          {| io_reply :=
               InsightsMessage 502 "ML service error" (Some mlResponse.(ir_text));
             io_table := table; io_posted := [payload] |}
        else
          match mlResponse.(ir_body) with
          | Unreadable =>
              {| io_reply := InsightsThrew; io_table := table;
                 io_posted := [payload] |}
          | Readable insights =>
              let generated := orElse insights [] in
              if (List.length generated =? 0)%nat then
                {| io_reply := InsightsCreated 200 []; io_table := table;
                   io_posted := [payload] |}
              else
                let (createdInsights, table') :=
                  createInsights table dbNow generated [] in
                {| io_reply :=
                     match createdInsights with
                     | Some rows => InsightsCreated 200 rows
                     | None => InsightsThrew
                     end;
                   io_table := table'; io_posted := [payload] |}
          end
    end.

(** How often the latest predictions name a feature in one of the three
    lists. *)
Definition namedFeatures (select : TopFeatures -> list string)
  (predictions : list NamedPrediction) : list string :=
  List.concat
    (map (fun pred => select pred.(np_prediction).(mp_data).(imp_topFeatures))
       predictions).

Definition occurrences (select : TopFeatures -> list string)
  (predictions : list NamedPrediction) (feature : string) : nat :=
  count_occ string_dec (namedFeatures select predictions) feature.

(** A list of at most five distinct features, each named at least once,
    none named less often than a feature left out, and complete when it
    is shorter than five. *)
Definition rankedTop (occ : string -> nat) (top : list string) : Prop :=
  (List.length top <= 5)%nat
  /\ NoDup top
  /\ (forall f, In f top -> (0 < occ f)%nat)
  /\ (forall f g, In f top -> ~ In g top -> (occ g <= occ f)%nat)
  /\ (forall g, (0 < occ g)%nat -> In g top \/ List.length top = 5%nat).

(** The map holds exactly the features counted by [occ], with their
    counts. *)
Definition countsExactly (occ : string -> nat) (m : list (string * nat)) : Prop :=
  NoDup (map fst m)
  /\ forall k n, In (k, n) m <-> n = occ k /\ (0 < n)%nat.

(** The stored text is the one given, or [d] when none or the empty one
    is given. *)
Definition defaulted (given : option string) (d stored : string) : Prop :=
  (given = None \/ given = Some EmptyString -> stored = d)
  /\ (forall v, given = Some v -> v <> EmptyString -> stored = v).

(** The stored row carries the insight of the service, with the defaults
    of the handler and the time of the database clock. *)
Definition storesInsight (dbNow : timestamp) (insight : GeneratedInsight)
  (row : Insight) : Prop :=
  row.(in_title) = insight.(gi_title)
  /\ row.(in_description) = insight.(gi_description)
  /\ defaulted insight.(gi_type) "team_shift" row.(in_type)
  /\ defaulted insight.(gi_level) "team" row.(in_level)
  /\ row.(in_createdAt) = Some dbNow.


(** A service that answers with two insights, the second without type
    and with an empty level. *)
Definition demoGenerated : list GeneratedInsight :=
  [ {| gi_title := "Workload"; gi_description := "Meetings are up";
       gi_type := Some "pattern"%string; gi_level := Some "individual"%string |};
    {| gi_title := "Growth"; gi_description := "Two emerging talents";
       gi_type := None; gi_level := Some EmptyString |} ].

Definition demoInsightsService (payload : InsightsPayload)
  : option InsightsResponse :=
  Some {| ir_ok := true; ir_text := "ok";
          ir_body := Readable (Some (map Complete demoGenerated)) |}.

(** A service whose second insight has no title. *)
Definition brokenInsightsService (payload : InsightsPayload)
  : option InsightsResponse :=
  Some {| ir_ok := true; ir_text := "ok";
          ir_body :=
            Readable (Some (map Complete (firstn 1 demoGenerated) ++ [Incomplete])) |}.

Definition emptyInsights : InsightsTable :=
  {| insights := []; insights_id_seq := 1 |}.

(** ** server/storage.ts and server/routes.ts: alerts *)

Record Alert : Type := {
  al_id : Z;
  al_employeeId : Z;
  al_type : string;
  al_reason : string;
  al_confidence : string;
  al_status : string;
  al_actionTaken : option bool;
  al_createdAt : option timestamp
}.

(** The [.set({ status: 'resolved', actionTaken: true })] of the update. *)
Definition setResolved (row : Alert) : Alert :=
  {| al_id := row.(al_id);
     al_employeeId := row.(al_employeeId);
     al_type := row.(al_type);
     al_reason := row.(al_reason);
     al_confidence := row.(al_confidence);
     al_status := "resolved";
     al_actionTaken := Some true;
     al_createdAt := row.(al_createdAt) |}.

(** [resolveAlert]: the first row the update returns, if any, and the
    table.  The update writes a new version of each row it hits, and
    PostgreSQL does not fix where a scan lists it; here it comes after the
    rows that were not hit. *)
Definition resolveAlert (alerts : list Alert) (id : Z)
  : option Alert * list Alert :=
  let hit (row : Alert) := row.(al_id) =? id in
  let updated := map setResolved (filter hit alerts) in
  (hd_error updated, filter (fun row => negb (hit row)) alerts ++ updated).

(** An alert with the [employeeName] of the join. *)
Record NamedAlert : Type := {
  na_alert : Alert;
  na_employeeName : string
}.

(** [getActiveAlerts]: the inner join of the active alerts with the
    employees. *)
Definition getActiveAlerts (db : Database) (alerts : list Alert)
  : list NamedAlert :=
  flat_map
    (fun alert =>
       map (fun emp => {| na_alert := alert; na_employeeName := emp.(emp_name) |})
         (filter (fun emp => alert.(al_employeeId) =? emp.(emp_id)) db.(employees)))
    (filter (fun alert => String.eqb alert.(al_status) "active") alerts).

(** The integer of 32 bits a number is, if it is one: what the comparison
    with an [integer] column makes of the number; it refuses every other
    number (NaN, an infinity, a fraction, an integer of more bits). *)
Definition int32Of (x : number) : option Z :=
  match integerOf x with
  | Some z => if (- 2 ^ 31 <=? z) && (z <? 2 ^ 31) then Some z else None
  | None => None
  end.

(** [POST /api/alerts/:id/resolve] for [Number(req.params.id)]: the reply,
    or [None] when the query is refused and the handler throws, and the
    table. *)
Definition alertsResolve (alerts : list Alert) (id : number)
  : option (Reply Alert) * list Alert :=
  match int32Of id with
  | None => (None, alerts)
  | Some key =>
      match resolveAlert alerts key with
      | (None, rows) => (Some (Message 404 "Alert not found"), rows)
      | (Some alert, rows) => (Some (Body 200 alert), rows)
      end
  end.

(** The row is the stored alert, resolved and with its action taken. *)
Definition resolvedFrom (stored row : Alert) : Prop :=
  row.(al_id) = stored.(al_id)
  /\ row.(al_employeeId) = stored.(al_employeeId)
  /\ row.(al_type) = stored.(al_type)
  /\ row.(al_reason) = stored.(al_reason)
  /\ row.(al_confidence) = stored.(al_confidence)
  /\ row.(al_createdAt) = stored.(al_createdAt)
  /\ row.(al_status) = "resolved"%string
  /\ row.(al_actionTaken) = Some true.

Definition demoAlerts : list Alert :=
  [ {| al_id := 1; al_employeeId := 1; al_type := "burnout_risk";
       al_reason := "Sustained overload"; al_confidence := "High";
       al_status := "active"; al_actionTaken := Some false;
       al_createdAt := Some 10 |};
    {| al_id := 2; al_employeeId := 7; al_type := "emerging_talent";
       al_reason := "Fast learner"; al_confidence := "Low";
       al_status := "active"; al_actionTaken := None;
       al_createdAt := None |} ].

(** The text of the bytes given. *)
Definition ofBytes (bytes : list nat) : string :=
  fold_right (fun b s => String (Ascii.ascii_of_nat b) s) EmptyString bytes.

(** The white space and the line terminators of ECMAScript in UTF-8:
    U+0009 to U+000D, U+0020, U+00A0, U+1680, U+2000 to U+200A, U+2028,
    U+2029, U+202F, U+205F, U+3000 and U+FEFF. *)
Definition whiteSpaces : list (list nat) :=
  [ [9]; [10]; [11]; [12]; [13]; [32]; [194; 160]; [225; 154; 128];
    [226; 128; 128]; [226; 128; 129]; [226; 128; 130]; [226; 128; 131];
    [226; 128; 132]; [226; 128; 133]; [226; 128; 134]; [226; 128; 135];
    [226; 128; 136]; [226; 128; 137]; [226; 128; 138]; [226; 128; 168];
    [226; 128; 169]; [226; 128; 175]; [226; 129; 159]; [227; 128; 128];
    [239; 187; 191] ]%nat.

(** Characters that are no white space: U+0085, U+180E, U+200B, U+2060
    and U+001F. *)
Definition otherCharacters : list (list nat) :=
  [ [194; 133]; [225; 160; 142]; [226; 128; 139]; [226; 129; 160]; [31] ]%nat.

(** The TTL variable holds no number. *)
Definition brokenTtlEnv : Env :=
  {| ML_PREDICTION_CACHE_TTL_MS := Some "five minutes"%string;
     dateNow := demoCreatedAt + 1000;
     dbNow := demoCreatedAt + 1000;
     fetchPredictBatch := echoService |}.

(** [getHealthScores]: the history of an employee, newest first. *)
Definition getHealthScores (db : Database) (employeeId : Z) : list HealthScore :=
  orderBy (desc hs_date)
    (filter (fun row => row.(hs_employeeId) =? employeeId) db.(healthScores)).

(** ** server/storage.ts and server/routes.ts: posting weekly metrics *)

Record InsertEmployeeWeeklyMetric : Type := {
  iwm_employeeId : Z;
  iwm_weekStart : timestamp;
  iwm_tasksAssigned : number;
  iwm_tasksCompleted : number;
  iwm_missedDeadlines : number;
  iwm_meetingHours : number;
  iwm_collaborationScore : number;
  iwm_engagementScore : number;
  iwm_learningHours : number;
  iwm_stretchAssignments : number
}.

(** An item of the body.  [MetricItem]: an object of the type
    [InsertEmployeeWeeklyMetric], that is with the ten members of the
    insert schema, numbers where the schema has numbers, a [weekStart]
    that [new Date] turns into a date, and neither [id] nor [createdAt].
    [OtherItem]: a value for which the insert is rejected or the handler
    throws before it, such as [null], an object without one of the
    members, or one whose [weekStart] is no date. *)
Inductive WeeklyItem : Type :=
| MetricItem (metric : InsertEmployeeWeeklyMetric)
| OtherItem.

Definition andThen {A B : Type} (x : option A) (f : A -> option B) : option B :=
  match x with
  | Some a => f a
  | None => None
  end.

(** What an [integer] column returns for the number given: the integer,
    or [None] when the column refuses the number (NaN, an infinity, a
    fraction, an integer of more than 32 bits). *)
Definition integer4 (x : number) : option number :=
  option_map JS.ofZ (int32Of x).

(** The same for the integer [employee_id]. *)
Definition integerColumn (z : Z) : option Z :=
  if (- 2 ^ 31 <=? z) && (z <? 2 ^ 31) then Some z else None.

Definition set_weeklyMetrics (db : Database) (rows : list EmployeeWeeklyMetric)
  : Database :=
  {| employees := db.(employees);
     healthScores := db.(healthScores);
     healthScores_id_seq := db.(healthScores_id_seq);
     employeeWeeklyMetrics := rows;
     employeeMlPredictions := db.(employeeMlPredictions);
     employeeMlPredictions_id_seq := db.(employeeMlPredictions_id_seq) |}.

Section Columns.

(** What a [real] column returns for the number given, or [None] when the
    column refuses it.  The column holds single precision and PostgreSQL
    prints it back as text; the function stands for both and the
    statements below hold whatever it is. *)
Variable real4 : number -> option number.

(** Whether a [timestamp] column holds the date; a date it holds reads
    back with its milliseconds.  The range of the column is not the range
    of [Date], and the statements below hold whatever it is. *)
Variable holdsDate : timestamp -> bool.

Definition timestampColumn (t : timestamp) : option timestamp :=
  if holdsDate t then Some t else None.

(** The row the insert returns for a metric, or [None] when a column
    refuses a value. *)
Definition storedWeeklyMetric (id : Z) (dbNow : timestamp)
  (metric : InsertEmployeeWeeklyMetric) : option EmployeeWeeklyMetric :=
  andThen (integerColumn metric.(iwm_employeeId)) (fun employeeId =>
  andThen (timestampColumn metric.(iwm_weekStart)) (fun week =>
  andThen (integer4 metric.(iwm_tasksAssigned)) (fun assigned =>
  andThen (integer4 metric.(iwm_tasksCompleted)) (fun completed =>
  andThen (integer4 metric.(iwm_missedDeadlines)) (fun missed =>
  andThen (real4 metric.(iwm_meetingHours)) (fun meeting =>
  andThen (real4 metric.(iwm_collaborationScore)) (fun collaboration =>
  andThen (real4 metric.(iwm_engagementScore)) (fun engagement =>
  andThen (real4 metric.(iwm_learningHours)) (fun learning =>
  andThen (integer4 metric.(iwm_stretchAssignments)) (fun stretch =>
  Some {| wm_id := id;
          wm_employeeId := employeeId;
          weekStart := week;
          tasksAssigned := assigned;
          tasksCompleted := completed;
          missedDeadlines := missed;
          meetingHours := meeting;
          collaborationScore := collaboration;
          engagementScore := engagement;
          learningHours := learning;
          stretchAssignments := stretch;
          wm_createdAt := Some dbNow |})))))))))).

(** The rows of one insert of several items: all of them, or none. *)
Fixpoint storedWeeklyMetrics (seq : Z) (dbNow : timestamp)
  (items : list WeeklyItem) : option (list EmployeeWeeklyMetric) :=
  match items with
  | [] => Some []
  | OtherItem :: _ => None
  | MetricItem metric :: rest =>
      andThen (storedWeeklyMetric seq dbNow metric) (fun row =>
      andThen (storedWeeklyMetrics (seq + 1) dbNow rest) (fun rows =>
      Some (row :: rows)))
  end.

(** [createWeeklyMetrics]: the rows returned, or [None] when the insert
    is rejected, and the table.  [id_seq] is the next value of the serial
    sequence of [employee_weekly_metrics], which the record of tables does
    not carry. *)
Definition createWeeklyMetrics (db : Database) (id_seq : Z) (dbNow : timestamp)
  (metrics : list WeeklyItem)
  : option (list EmployeeWeeklyMetric) * Database :=
  if (List.length metrics =? 0)%nat then (Some [], db)
  else
    match storedWeeklyMetrics id_seq dbNow metrics with
    | Some rows =>
        (Some rows, set_weeklyMetrics db (db.(employeeWeeklyMetrics) ++ rows))
    | None => (None, db)
    end.

(** The body of the request: one item, or an array of items. *)
Inductive WeeklyBody : Type :=
| OneMetric (item : WeeklyItem)
| ManyMetrics (items : list WeeklyItem).

Definition bodyItems (body : WeeklyBody) : list WeeklyItem :=
  match body with
  | ManyMetrics items => items
  | OneMetric item => [item]
  end.

(** [POST /api/metrics/weekly]: the status with the created rows, or
    [None] when the handler throws and gives no answer of its own.  The
    loop over the created rows is the loop of the recompute handler: an
    upsert that the [integer] columns of [health_scores] refuse ends it,
    the rows created and the scores upserted before stay stored. *)
Definition metricsWeeklyCreate (db : Database) (id_seq : Z) (dbNow : timestamp)
  (body : WeeklyBody) : Outcome (option (Z * list EmployeeWeeklyMetric)) :=
  let payload := bodyItems body in
  match createWeeklyMetrics db id_seq dbNow payload with
  | (Some created, db1) =>
      match recomputeLoop db1 created [] with
      | (Some _, db2) => done (Some (201, created)) db2
      | (None, db2) => done None db2
      end
  | (None, db1) => done None db1
  end.



End Columns.


(** Two metrics of employee 1 for one week. *)
Definition demoItems : list InsertEmployeeWeeklyMetric :=
  [ {| iwm_employeeId := 1; iwm_weekStart := 4 * msPerWeek;
       iwm_tasksAssigned := JS.ofZ 20; iwm_tasksCompleted := JS.ofZ 18;
       iwm_missedDeadlines := JS.ofZ 1; iwm_meetingHours := JS.ofZ 5;
       iwm_collaborationScore := n0_8; iwm_engagementScore := n0_75;
       iwm_learningHours := JS.ofZ 2; iwm_stretchAssignments := JS.ofZ 1 |};
    {| iwm_employeeId := 1; iwm_weekStart := 4 * msPerWeek;
       iwm_tasksAssigned := JS.ofZ 40; iwm_tasksCompleted := JS.ofZ 10;
       iwm_missedDeadlines := JS.ofZ 5; iwm_meetingHours := JS.ofZ 5;
       iwm_collaborationScore := n0_8; iwm_engagementScore := n0_75;
       iwm_learningHours := JS.ofZ 2; iwm_stretchAssignments := JS.ofZ 1 |} ].

Definition n20_5 : number := Eval vm_compute in Prim2SF 20.5%float.

(** The second demo item with 20.5 tasks assigned. *)
Definition fractionItem : InsertEmployeeWeeklyMetric :=
  {| iwm_employeeId := 1; iwm_weekStart := 4 * msPerWeek;
     iwm_tasksAssigned := n20_5; iwm_tasksCompleted := JS.ofZ 10;
     iwm_missedDeadlines := JS.ofZ 5; iwm_meetingHours := JS.ofZ 5;
     iwm_collaborationScore := n0_8; iwm_engagementScore := n0_75;
     iwm_learningHours := JS.ofZ 2; iwm_stretchAssignments := JS.ofZ 1 |}.

(** Columns for the demo: a [real] column that returns every number as
    given, as the database does for the numbers of the demo items, and a
    [timestamp] column that holds every date. *)
Definition demoReal4 (x : number) : option number := Some x.

Definition demoHoldsDate (t : timestamp) : bool := true.

(** * Facts about numbers *)

Lemma SFcompare_antisym (a b : number) :
  SFcompare b a = option_map CompOpp (SFcompare a b).
Proof.
  destruct a as [sa|sa| |sa ma ea], b as [sb|sb| |sb mb eb]; simpl;
    try reflexivity;
    try (destruct sa; reflexivity);
    try (destruct sb; reflexivity);
    try (destruct sa, sb; reflexivity).
  destruct sa, sb; simpl; try reflexivity;
    rewrite (Z.compare_antisym ea eb);
    destruct (ea ?= eb); simpl; try reflexivity;
    rewrite (Pos.compare_cont_antisym ma mb Eq); simpl;
    destruct (Pos.compare_cont Eq ma mb); reflexivity.
Qed.

Lemma lt_not_le (a b : number) : JS.lt a b = true -> JS.le b a = false.
Proof.
  unfold JS.lt, JS.le, SFltb, SFleb.
  rewrite (SFcompare_antisym a b).
  destruct (SFcompare a b) as [[ | | ]|]; simpl; congruence.
Qed.

Lemma lt_not_nan (a b : number) :
  JS.lt a b = true -> JS.isNaN a = false /\ JS.isNaN b = false.
Proof.
  unfold JS.lt, SFltb.
  destruct a, b; simpl; intros H; try discriminate H; split; reflexivity.
Qed.

Lemma le_not_nan (a b : number) :
  JS.le a b = true -> JS.isNaN a = false /\ JS.isNaN b = false.
Proof.
  unfold JS.le, SFleb.
  destruct a, b; simpl; intros H; try discriminate H; split; reflexivity.
Qed.

(** Every number is NaN, at most [b] or above [b], when [b] is a number. *)
Lemma le_or_gt (a b : number) :
  JS.isNaN b = false ->
  JS.isNaN a = true \/ JS.le a b = true \/ JS.gt a b = true.
Proof.
  intros Hb. unfold JS.le, JS.gt, SFleb, SFltb.
  rewrite (SFcompare_antisym a b).
  destruct a as [sa|sa| |sa ma ea]; [right|right|left; reflexivity|right];
    (destruct b as [sb|sb| |sb mb eb]; [ | |discriminate Hb| ]);
    match goal with
    | |- context [SFcompare ?x ?y] =>
        destruct (SFcompare x y) as [[ | | ]|] eqn:E; simpl; auto;
        simpl in E; discriminate E
    end.
Qed.

(** * The health score of the scenario *)

(** C1: on the scenario metric the calculator returns workload 47,
    performance 84, burnout risk 29 and engagement 75, and it copies the
    employee id and the week start into [employeeId] and [date]. *)
Theorem scenario_health_score (id employeeId : Z) (week : timestamp)
  (createdAt : option timestamp) :
  computeHealthScoreFromMetric (scenarioMetric id employeeId week createdAt)
  = {| ihs_employeeId := employeeId;
       ihs_burnoutRisk := JS.ofZ 29;
       ihs_engagementScore := JS.ofZ 75;
       ihs_performanceScore := JS.ofZ 84;
       ihs_workloadScore := JS.ofZ 47;
       ihs_date := week |}.
Proof. vm_compute. reflexivity. Qed.

(** The employee and the date are copied for every metric. *)
Lemma health_score_carries_key (metric : EmployeeWeeklyMetric) :
  (computeHealthScoreFromMetric metric).(ihs_employeeId) = metric.(wm_employeeId)
  /\ (computeHealthScoreFromMetric metric).(ihs_date) = metric.(weekStart).
Proof. split; reflexivity. Qed.

(** * The Metric Normalizer *)

(** C10: the normalizer is not monotone: 1.4 < 1.6, yet 1.4 is sent to
    100 and 1.6 stays 1.6, which is below 100. *)
Theorem normalize_not_monotone :
  JS.lt n1_4 n1_6 = true
  /\ normalize n1_4 = n100
  /\ normalize n1_6 = n1_6
  /\ exists s1 s2 : number,
       JS.lt s1 s2 = true /\ JS.gt (normalize s1) (normalize s2) = true.
Proof.
  split; [vm_compute; reflexivity|].
  split; [vm_compute; reflexivity|].
  split; [vm_compute; reflexivity|].
  exists n1_4, n1_6. split; vm_compute; reflexivity.
Qed.

(** C3 as stated fails at positive infinity: it is not finite, and the
    normalizer sends it to 100, not to 0. *)
Lemma normalize_infinity_counterexample :
  JS.isFinite JS.Infinity = false
  /\ normalize JS.Infinity = n100
  /\ normalize JS.Infinity <> n0.
Proof.
  split; [reflexivity|]. split; [vm_compute; reflexivity|].
  vm_compute. discriminate.
Qed.

(** C3, amended: a value at most 1.5 is multiplied by 100 and clamped, a
    value above 1.5 is clamped as it is, and these two cases and NaN
    cover every number; NaN and negative infinity give 0, positive
    infinity gives 100. *)
Theorem normalize_cases (v : number) :
  (JS.le v n1_5 = true -> normalize v = clamp3 (JS.mul v n100) n0 n100)
  /\ (JS.gt v n1_5 = true -> normalize v = clamp3 v n0 n100)
  /\ (JS.isNaN v = true -> normalize v = n0)
  /\ (JS.isNaN v = true \/ JS.le v n1_5 = true \/ JS.gt v n1_5 = true)
  /\ normalize JS.NaN = n0
  /\ normalize JS.NegInfinity = n0
  /\ normalize JS.Infinity = n100.
Proof.
  unfold normalize, clamp, toPercent.
  split; [|split; [|split; [|split; [|split; [|split]]]]].
  - intros H. destruct (le_not_nan _ _ H) as [-> _]. rewrite H. reflexivity.
  - intros H. destruct (lt_not_nan _ _ H) as [_ ->].
    rewrite (lt_not_le _ _ H). reflexivity.
  - intros ->. vm_compute. reflexivity.
  - apply le_or_gt. reflexivity.
  - vm_compute. reflexivity.
  - vm_compute. reflexivity.
  - vm_compute. reflexivity.
Qed.

(** [normalize_cases] at 0.8, a fraction, and at 1.6, a percentage. *)
Lemma normalize_cases_witness :
  normalize n0_8 = clamp3 (JS.mul n0_8 n100) n0 n100
  /\ normalize n1_6 = clamp3 n1_6 n0 n100.
Proof.
  split.
  - apply (proj1 (normalize_cases n0_8)). vm_compute. reflexivity.
  - apply (proj1 (proj2 (normalize_cases n1_6))). vm_compute. reflexivity.
Defined.

(** * The team health endpoint *)





(** A score dated a day after the call is within the query: the aggregate
    is that score, not the zeros. *)
Example team_health_future_score :
  let db := futureScoreDatabase in
  let now := 8 * msPerDay in
  ~ Forall (fun row => row.(hs_date) < daysAgo now 7) db.(healthScores)
  /\ Forall (fun row => now < row.(hs_date)) db.(healthScores)
  /\ (getLatestTeamHealth db now).(th_burnoutRisk) = JS.ofZ 90
  /\ (teamHealth db now).(burnoutRisk) = "High"%string.
Proof.
  cbv zeta. split; [|split; [|split]].
  - intros H. apply Forall_inv in H. vm_compute in H. discriminate H.
  - apply Forall_cons; [vm_compute; reflexivity|apply Forall_nil].
  - vm_compute. reflexivity.
  - vm_compute. reflexivity.
Qed.

(** * Ordered queries *)

Section OrderBy.
Context {A : Type} (leb : A -> A -> bool).
Hypothesis leb_total : forall x y, leb x y = true \/ leb y x = true.
Hypothesis leb_trans : forall x y z, leb x y = true -> leb y z = true -> leb x z = true.

Lemma insertBy_perm (x : A) (l : list A) : Permutation (insertBy leb x l) (x :: l).
Proof.
  induction l as [|y t IH]; simpl.
  - apply Permutation_refl.
  - destruct (leb x y).
    + apply Permutation_refl.
    + eapply perm_trans; [apply perm_skip, IH|apply perm_swap].
Qed.

Lemma orderBy_perm (l : list A) : Permutation (orderBy leb l) l.
Proof.
  induction l as [|x t IH]; simpl.
  - apply Permutation_refl.
  - eapply perm_trans; [apply insertBy_perm|apply perm_skip, IH].
Qed.

Lemma insertBy_sorted (x : A) (l : list A) :
  StronglySorted (fun a b => leb a b = true) l ->
  StronglySorted (fun a b => leb a b = true) (insertBy leb x l).
Proof.
  induction 1 as [|y t Hs IH Hy]; simpl.
  - constructor; constructor.
  - destruct (leb x y) eqn:E.
    + constructor; [constructor; assumption|].
      constructor; [exact E|].
      eapply Forall_impl; [|exact Hy].
      intros z Hz. exact (leb_trans _ _ _ E Hz).
    + constructor; [exact IH|].
      eapply Permutation_Forall; [apply Permutation_sym, insertBy_perm|].
      constructor; [|exact Hy].
      destruct (leb_total x y) as [H|H]; [congruence|exact H].
Qed.

Lemma orderBy_sorted (l : list A) :
  StronglySorted (fun a b => leb a b = true) (orderBy leb l).
Proof.
  induction l as [|x t IH]; simpl.
  - constructor.
  - apply insertBy_sorted, IH.
Qed.

End OrderBy.

Lemma StronglySorted_app_inv {A : Type} (R : A -> A -> Prop) (l1 l2 : list A) :
  StronglySorted R (l1 ++ l2) ->
  StronglySorted R l1 /\ StronglySorted R l2
  /\ forall x y, In x l1 -> In y l2 -> R x y.
Proof.
  induction l1 as [|a t IH]; simpl; intros H.
  - repeat split; [constructor|exact H|intros x y []].
  - inversion H as [|? ? Hs Hf]; subst.
    destruct (IH Hs) as (H1 & H2 & H3).
    apply Forall_app in Hf. destruct Hf as [Hf1 Hf2].
    repeat split.
    + constructor; assumption.
    + exact H2.
    + intros x y [<-|Hx] Hy.
      * rewrite Forall_forall in Hf2. exact (Hf2 _ Hy).
      * exact (H3 _ _ Hx Hy).
Qed.

Lemma StronglySorted_snoc {A : Type} (R : A -> A -> Prop) (l : list A) (a : A) :
  StronglySorted R l -> Forall (fun x => R x a) l -> StronglySorted R (l ++ [a]).
Proof.
  induction 1 as [|b t Hs IH Hb]; simpl; intros Hf.
  - constructor; constructor.
  - inversion Hf; subst. constructor.
    + apply IH. assumption.
    + apply Forall_app. split; [exact Hb|]. constructor; [assumption|constructor].
Qed.

Lemma StronglySorted_rev {A : Type} (R : A -> A -> Prop) (l : list A) :
  StronglySorted R l -> StronglySorted (fun x y => R y x) (rev l).
Proof.
  induction 1 as [|a t Hs IH Ha]; simpl.
  - constructor.
  - apply StronglySorted_snoc; [exact IH|].
    apply Forall_rev. exact Ha.
Qed.

Lemma StronglySorted_impl {A : Type} (R R' : A -> A -> Prop) (l : list A) :
  (forall x y, R x y -> R' x y) -> StronglySorted R l -> StronglySorted R' l.
Proof.
  intros HR. induction 1 as [|a t Hs IH Ha]; constructor.
  - exact IH.
  - eapply Forall_impl; [|exact Ha]. intros y. apply HR.
Qed.

(** * The prediction window *)

Lemma desc_total {A : Type} (key : A -> Z) (x y : A) :
  desc key x y = true \/ desc key y x = true.
Proof. unfold desc. destruct (Z.leb_spec (key y) (key x)); [left|right]; [reflexivity|]. apply Z.leb_le. lia. Qed.

Lemma desc_trans {A : Type} (key : A -> Z) (x y z : A) :
  desc key x y = true -> desc key y z = true -> desc key x z = true.
Proof. unfold desc. rewrite !Z.leb_le. lia. Qed.

Lemma getWeeklyMetrics_perm (db : Database) (employeeId : Z) :
  Permutation (getWeeklyMetrics db employeeId) (storedMetrics db employeeId).
Proof. apply orderBy_perm. Qed.

Lemma getWeeklyMetrics_sorted (db : Database) (employeeId : Z) :
  StronglySorted (fun a b => weekStart b <= weekStart a)
    (getWeeklyMetrics db employeeId).
Proof.
  eapply StronglySorted_impl;
    [|apply (orderBy_sorted (desc weekStart) (desc_total _) (desc_trans _))].
  intros x y H. apply Z.leb_le. exact H.
Qed.

Lemma payloadWindow_length (metrics : list EmployeeWeeklyMetric) :
  List.length (payloadWindow metrics) = Nat.min 4 (List.length metrics).
Proof. unfold payloadWindow. rewrite length_rev. apply length_firstn. Qed.

Lemma buildPayload_none (db : Database) (employeeId : Z) :
  insufficientWindow db employeeId = true ->
  buildPayloadForEmployee db employeeId = None.
Proof.
  unfold insufficientWindow, buildPayloadForEmployee. intros H.
  apply Nat.ltb_lt in H.
  rewrite payloadWindow_length, (Permutation_length (getWeeklyMetrics_perm _ _)).
  destruct (Nat.ltb_spec (Nat.min 4 (List.length (storedMetrics db employeeId))) 4);
    [reflexivity|lia].
Qed.

Lemma buildPayload_some (db : Database) (employeeId : Z) :
  insufficientWindow db employeeId = false ->
  buildPayloadForEmployee db employeeId
  = Some {| employee_id := employeeId;
            weeks := map toPayloadWeek
                       (payloadWindow (getWeeklyMetrics db employeeId)) |}.
Proof.
  unfold insufficientWindow, buildPayloadForEmployee. intros H.
  apply Nat.ltb_ge in H.
  rewrite payloadWindow_length, (Permutation_length (getWeeklyMetrics_perm _ _)).
  destruct (Nat.ltb_spec (Nat.min 4 (List.length (storedMetrics db employeeId))) 4);
    [lia|reflexivity].
Qed.

Lemma buildPayload_employee (db : Database) (employeeId : Z) (payload : Payload) :
  buildPayloadForEmployee db employeeId = Some payload ->
  payload.(employee_id) = employeeId /\ insufficientWindow db employeeId = false.
Proof.
  intros H. destruct (insufficientWindow db employeeId) eqn:E.
  - rewrite (buildPayload_none _ _ E) in H. discriminate H.
  - rewrite (buildPayload_some _ _ E) in H. injection H as <-. split; reflexivity.
Qed.

(** * The cache gate and the batch *)

Lemma cacheGate_fold (env : Env) (db : Database) (l : list Payload)
  (acc : list EmployeeMlPrediction * list Payload) :
  let out :=
    fold_left
      (fun acc payload =>
         match recentlyCachedPrediction env db payload with
         | Some cached => (fst acc ++ [cached], snd acc)
         | None => (fst acc, snd acc ++ [payload])
         end) l acc in
  snd out = snd acc ++ filter (fun p => negb (isCached env db p)) l
  /\ List.length (fst out)
     = (List.length (fst acc) + List.length (filter (isCached env db) l))%nat.
Proof.
  revert acc. induction l as [|p l IH]; intros acc; simpl.
  - rewrite app_nil_r. split; [reflexivity|lia].
  - destruct (IH (match recentlyCachedPrediction env db p with
                  | Some cached => (fst acc ++ [cached], snd acc)
                  | None => (fst acc, snd acc ++ [p])
                  end)) as [H1 H2].
    cbv zeta in H1, H2. rewrite H1, H2. unfold isCached.
    destruct (recentlyCachedPrediction env db p); simpl.
    + split; [reflexivity|]. rewrite length_app. simpl. lia.
    + split; [|reflexivity]. rewrite <- app_assoc. reflexivity.
Qed.

Lemma cacheGate_toPredict (env : Env) (db : Database) (batch : list Payload) :
  snd (cacheGate env db batch) = filter (fun p => negb (isCached env db p)) batch.
Proof. exact (proj1 (cacheGate_fold env db batch ([], []))). Qed.

Lemma cacheGate_cached (env : Env) (db : Database) (batch : list Payload) :
  List.length (fst (cacheGate env db batch))
  = List.length (filter (isCached env db) batch).
Proof. exact (proj2 (cacheGate_fold env db batch ([], []))). Qed.

(** What a batch run posts, returns and writes, by the three ways it ends. *)
Lemma runMlBatch_cases (env : Env) (db : Database) (batch : list Payload) :
  let toPredict := filter (fun p => negb (isCached env db p)) batch in
  let cached := List.length (filter (isCached env db) batch) in
  let out := runMlBatch env db batch in
  (toPredict = [] /\ out = done (BatchOk 0 0 cached) db)
  \/ (toPredict <> [] /\ out.(posted) = [toPredict]
      /\ (env.(fetchPredictBatch) toPredict).(resp_ok) = false
      /\ out.(value) = BatchFailed (env.(fetchPredictBatch) toPredict).(resp_text)
      /\ out.(database) = db)
  \/ (toPredict <> [] /\ out.(posted) = [toPredict]
      /\ (env.(fetchPredictBatch) toPredict).(resp_ok) = true
      /\ exists processed saved, out.(value) = BatchOk processed saved cached).
Proof.
  cbv zeta. unfold runMlBatch.
  pose proof (cacheGate_toPredict env db batch) as Hp.
  pose proof (cacheGate_cached env db batch) as Hc.
  destruct (cacheGate env db batch) as [recentlyCached toPredict].
  simpl in Hp, Hc. subst toPredict. rewrite Hc.
  destruct (filter (fun p => negb (isCached env db p)) batch) as [|p tp] eqn:E.
  - left. split; reflexivity.
  - right. cbn [List.length Nat.eqb].
    destruct (resp_ok (fetchPredictBatch env (p :: tp))) eqn:Hok; simpl.
    + right. split; [discriminate|].
      destruct (createMlPredictions db (dbNow env) _) as [saved db'] eqn:Hs.
      simpl. split; [reflexivity|]. split; [reflexivity|].
      eexists _, _. reflexivity.
    + left. split; [discriminate|]. repeat split; reflexivity.
Qed.

Lemma collectPayloads_fold (db : Database) (emps : list Employee)
  (acc : nat * list Payload) :
  let out :=
    fold_left
      (fun acc employee =>
         match buildPayloadForEmployee db employee.(emp_id) with
         | None => (S (fst acc), snd acc)
         | Some payload => (fst acc, snd acc ++ [payload])
         end) emps acc in
  fst out
  = (fst acc
     + List.length (filter (insufficientWindow db) (map emp_id emps)))%nat
  /\ forall p, In p (snd out) ->
       In p (snd acc) \/ buildPayloadForEmployee db p.(employee_id) = Some p.
Proof.
  revert acc. induction emps as [|emp emps IH]; intros acc; simpl.
  - split; [lia|]. intros p Hp. left. exact Hp.
  - destruct (IH (match buildPayloadForEmployee db (emp_id emp) with
                  | Some payload => (fst acc, snd acc ++ [payload])
                  | None => (S (fst acc), snd acc)
                  end)) as [H1 H2].
    cbv zeta in H1, H2. rewrite H1. clear H1.
    destruct (insufficientWindow db (emp_id emp)) eqn:E.
    + rewrite (buildPayload_none _ _ E) in *. simpl. split; [lia|exact H2].
    + rewrite (buildPayload_some _ _ E) in *. simpl. split; [reflexivity|].
      intros p Hp. destruct (H2 p Hp) as [Hin|Hb]; [|right; exact Hb].
      apply in_app_or in Hin. destruct Hin as [Hin|[<-|[]]]; [left; exact Hin|].
      right. simpl. apply buildPayload_some. exact E.
Qed.

Lemma collectPayloads_skipped (db : Database) (emps : list Employee) :
  fst (collectPayloads db emps)
  = List.length (filter (insufficientWindow db) (map emp_id emps)).
Proof. exact (proj1 (collectPayloads_fold db emps (0%nat, []))). Qed.

Lemma collectPayloads_built (db : Database) (emps : list Employee) (p : Payload) :
  In p (snd (collectPayloads db emps)) ->
  buildPayloadForEmployee db p.(employee_id) = Some p.
Proof.
  intros Hp.
  destruct (proj2 (collectPayloads_fold db emps (0%nat, [])) p Hp) as [[]|H].
  exact H.
Qed.

(** A run either ends without a batch, leaving the database as it was and
    posting nothing, or replies to one batch of payloads, each built by
    [buildPayloadForEmployee] for its employee. *)
Lemma handlePredict_shape (env : Env) (req : PredictRequest) (db : Database) :
  (exists resp, handlePredict env req db = done resp db)
  \/ exists batch skipped,
       handlePredict env req db = replyToBatch (runMlBatch env db batch) skipped
       /\ forall p, In p batch ->
            buildPayloadForEmployee db p.(employee_id) = Some p.
Proof.
  destruct req as [|e|e]; simpl.
  - unfold mlPredict.
    pose proof (collectPayloads_built db (getEmployees db)) as Hb.
    destruct (collectPayloads db (getEmployees db)) as [skipped batch].
    simpl in Hb.
    destruct (List.length batch =? 0)%nat.
    + left. eexists. reflexivity.
    + right. exists batch. eexists. split; [reflexivity|exact Hb].
  - unfold mlPredict. destruct (getEmployee db e).
    + destruct (buildPayloadForEmployee db e) as [payload|] eqn:E.
      * right. exists [payload]. eexists. split; [reflexivity|].
        intros p [<-|[]]. destruct (buildPayload_employee _ _ _ E) as [-> _]. exact E.
      * left. eexists. reflexivity.
    + left. eexists. reflexivity.
  - unfold mlPredictOne. destruct (getEmployee db e).
    + destruct (buildPayloadForEmployee db e) as [payload|] eqn:E.
      * right. exists [payload]. eexists. split; [reflexivity|].
        intros p [<-|[]]. destruct (buildPayload_employee _ _ _ E) as [-> _]. exact E.
      * left. eexists. reflexivity.
    + left. eexists. reflexivity.
Qed.

(** Whatever a run posts is one body, made of payloads that were built
    for their employee and that the cache gate let through. *)
Lemma posted_payloads (env : Env) (req : PredictRequest) (db : Database)
  (body : list Payload) (p : Payload) :
  In body (handlePredict env req db).(posted) -> In p body ->
  buildPayloadForEmployee db p.(employee_id) = Some p
  /\ isCached env db p = false.
Proof.
  destruct (handlePredict_shape env req db) as [[resp ->]|(batch & sk & -> & Hb)].
  - intros [].
  - change (posted (replyToBatch (runMlBatch env db batch) sk))
      with (posted (runMlBatch env db batch)).
    intros Hbody Hp.
    destruct (runMlBatch_cases env db batch) as [[_ Hd]|[H|H]].
    + rewrite Hd in Hbody. destruct Hbody.
    + destruct H as (_ & Hposted & _). rewrite Hposted in Hbody.
      destruct Hbody as [<-|[]]. apply filter_In in Hp. destruct Hp as [Hin Hc].
      split; [apply Hb, Hin|]. apply negb_true_iff. exact Hc.
    + destruct H as (_ & Hposted & _). rewrite Hposted in Hbody.
      destruct Hbody as [<-|[]]. apply filter_In in Hp. destruct Hp as [Hin Hc].
      split; [apply Hb, Hin|]. apply negb_true_iff. exact Hc.
Qed.

(** A run posts at most one body. *)
Lemma posted_at_most_once (env : Env) (req : PredictRequest) (db : Database) :
  (List.length (handlePredict env req db).(posted) <= 1)%nat.
Proof.
  destruct (handlePredict_shape env req db) as [[resp ->]|(batch & sk & -> & _)].
  - simpl. lia.
  - change (posted (replyToBatch (runMlBatch env db batch) sk))
      with (posted (runMlBatch env db batch)).
    destruct (runMlBatch_cases env db batch) as [[_ Hd]|[H|H]].
    + rewrite Hd. simpl. lia.
    + destruct H as (_ & Hp & _). rewrite Hp. simpl. lia.
    + destruct H as (_ & Hp & _). rewrite Hp. simpl. lia.
Qed.

Lemma collectPayloads_complete (db : Database) (emps : list Employee)
  (acc : nat * list Payload) :
  let out :=
    fold_left
      (fun acc employee =>
         match buildPayloadForEmployee db employee.(emp_id) with
         | None => (S (fst acc), snd acc)
         | Some payload => (fst acc, snd acc ++ [payload])
         end) emps acc in
  (forall p, In p (snd acc) -> In p (snd out))
  /\ forall employee payload,
       In employee emps ->
       buildPayloadForEmployee db employee.(emp_id) = Some payload ->
       In payload (snd out).
Proof.
  revert acc. induction emps as [|e rest IH]; intros acc; cbv zeta; simpl fold_left.
  - split; [auto|intros ? ? []].
  - destruct (buildPayloadForEmployee db (emp_id e)) as [pe|] eqn:He.
    + destruct (IH (fst acc, snd acc ++ [pe])) as [Hkeep Hall].
      cbv zeta in Hkeep, Hall. simpl fst in *. simpl snd in *.
      split.
      * intros p Hp. apply Hkeep. apply in_or_app. left. exact Hp.
      * intros employee payload [<-|Hin] Hb.
        -- rewrite He in Hb. injection Hb as <-. apply Hkeep.
           apply in_or_app. right. left. reflexivity.
        -- exact (Hall employee payload Hin Hb).
    + destruct (IH (S (fst acc), snd acc)) as [Hkeep Hall].
      cbv zeta in Hkeep, Hall. simpl fst in *. simpl snd in *.
      split; [exact Hkeep|].
      intros employee payload [<-|Hin] Hb.
      * rewrite He in Hb. discriminate Hb.
      * exact (Hall employee payload Hin Hb).
Qed.

Lemma carriesWeek_map (window : list EmployeeWeeklyMetric) :
  Forall2 carriesWeek window (map toPayloadWeek window).
Proof.
  induction window as [|row rest IH]; simpl; constructor; [|exact IH].
  unfold carriesWeek, toPayloadWeek. simpl. repeat split.
Qed.

(** A payload that is not held back by the cache is posted by a run that
    covers its employee. *)
Lemma covered_payload_posted (env : Env) (req : PredictRequest) (db : Database)
  (employeeId : Z) (payload : Payload) :
  In employeeId (targets db req) ->
  buildPayloadForEmployee db employeeId = Some payload ->
  isCached env db payload = false ->
  exists sent, (handlePredict env req db).(posted) = [sent] /\ In payload sent.
Proof.
  intros Htarget Hbuild Hfresh.
  assert (Hposted : forall batch sk, In payload batch ->
            exists sent,
              (replyToBatch (runMlBatch env db batch) sk).(posted) = [sent]
              /\ In payload sent).
  { intros batch sk Hin.
    change (posted (replyToBatch (runMlBatch env db batch) sk))
      with (posted (runMlBatch env db batch)).
    assert (Hkept : In payload (filter (fun p => negb (isCached env db p)) batch)).
    { apply filter_In. split; [exact Hin|]. rewrite Hfresh. reflexivity. }
    destruct (runMlBatch_cases env db batch) as [[Hnil _]|[H|H]].
    - rewrite Hnil in Hkept. destruct Hkept.
    - destruct H as (_ & Hp & _). rewrite Hp. eauto.
    - destruct H as (_ & Hp & _). rewrite Hp. eauto. }
  destruct req as [|e|e]; simpl in Htarget |- *.
  - unfold mlPredict. apply in_map_iff in Htarget.
    destruct Htarget as (employee & Hid & Hin). subst employeeId.
    destruct (collectPayloads_complete db (getEmployees db) (0%nat, []))
      as [_ Hc]. cbv zeta in Hc.
    specialize (Hc employee payload Hin Hbuild).
    fold (collectPayloads db (getEmployees db)) in Hc.
    destruct (collectPayloads db (getEmployees db)) as [skipped batch].
    simpl in Hc. destruct batch as [|p rest]; [destruct Hc|].
    cbn [List.length Nat.eqb]. apply Hposted. exact Hc.
  - unfold mlPredict. destruct (getEmployee db e); [|destruct Htarget].
    destruct Htarget as [<-|[]]. rewrite Hbuild. apply Hposted. left. reflexivity.
  - unfold mlPredictOne. destruct (getEmployee db e); [|destruct Htarget].
    destruct Htarget as [<-|[]]. rewrite Hbuild. apply Hposted. left. reflexivity.
Qed.

(** C9: with at least four stored weeks, a payload is built for the
    employee; it holds exactly four weeks, each carrying the start and
    the eight numbers of a stored row of that employee; the four rows are
    the most recent ones (every other row of the employee is at most as
    recent) and they are listed oldest first; every payload posted for
    the employee during a run is that payload; and a run that covers the
    employee posts it in its one body unless the cache holds it back. *)
Theorem payload_is_latest_four_weeks (env : Env) (req : PredictRequest)
  (db : Database) (employeeId : Z) :
  (4 <= List.length (storedMetrics db employeeId))%nat ->
  exists payload,
    buildPayloadForEmployee db employeeId = Some payload
    /\ payload.(employee_id) = employeeId
    /\ latestFourWeeks db employeeId payload
    /\ (forall body p,
          In body (handlePredict env req db).(posted) -> In p body ->
          p.(employee_id) = employeeId -> p = payload)
    /\ (In employeeId (targets db req) ->
        isCached env db payload = false ->
        exists sent, (handlePredict env req db).(posted) = [sent]
                     /\ In payload sent).
Proof.
  intros Hlen.
  assert (E : insufficientWindow db employeeId = false).
  { unfold insufficientWindow. apply Nat.ltb_ge. exact Hlen. }
  pose proof (getWeeklyMetrics_perm db employeeId) as Hperm.
  pose proof (getWeeklyMetrics_sorted db employeeId) as Hsorted.
  pose proof (buildPayload_some db employeeId E) as Hbuild.
  set (metrics := getWeeklyMetrics db employeeId) in *.
  exists {| employee_id := employeeId;
            weeks := map toPayloadWeek (payloadWindow metrics) |}.
  split; [exact Hbuild|].
  split; [reflexivity|].
  split.
  { exists (payloadWindow metrics), (skipn 4 metrics).
    rewrite <- (firstn_skipn 4 metrics) in Hsorted.
    apply StronglySorted_app_inv in Hsorted.
    destruct Hsorted as (Hfirst & _ & Hcross).
    split; [apply carriesWeek_map|].
    split.
    { rewrite payloadWindow_length, (Permutation_length Hperm). lia. }
    split.
    { eapply perm_trans; [|exact Hperm].
      rewrite <- (firstn_skipn 4 metrics) at 3.
      apply Permutation_app_tail. unfold payloadWindow.
      apply Permutation_sym, Permutation_rev. }
    split.
    { intros r x Hr Hx. apply Hcross; [|exact Hr].
      unfold payloadWindow in Hx. apply in_rev. exact Hx. }
    unfold payloadWindow. exact (StronglySorted_rev _ _ Hfirst). }
  split.
  - intros body p Hbody Hp Hid.
    pose proof (proj1 (posted_payloads env req db body p Hbody Hp)) as Hsame.
    rewrite Hid, Hbuild in Hsame. injection Hsame as <-. reflexivity.
  - intros Htarget Hfresh.
    exact (covered_payload_posted env req db employeeId _ Htarget Hbuild Hfresh).
Qed.

(** [payload_is_latest_four_weeks] for employee 1 of the demo database,
    who has five stored weeks, in a run over all employees. *)
Lemma payload_is_latest_four_weeks_witness :
  exists payload,
    buildPayloadForEmployee demoDatabase 1 = Some payload
    /\ payload.(employee_id) = 1
    /\ latestFourWeeks demoDatabase 1 payload
    /\ (forall body p,
          In body (handlePredict (demoEnv 301000) PredictAll demoDatabase).(posted) ->
          In p body -> p.(employee_id) = 1 -> p = payload)
    /\ (In 1 (targets demoDatabase PredictAll) ->
        isCached (demoEnv 301000) demoDatabase payload = false ->
        exists sent,
          (handlePredict (demoEnv 301000) PredictAll demoDatabase).(posted) = [sent]
          /\ In payload sent).
Proof.
  apply (payload_is_latest_four_weeks (demoEnv 301000) PredictAll demoDatabase 1).
  simpl. lia.
Defined.

(** The demo run posts one body with the payload of employee 1 alone
    (employee 2 has three weeks): weeks 1 to 4 of the five stored, oldest
    first. *)
Example payload_posted_demo :
  (handlePredict (demoEnv 301000) PredictAll demoDatabase).(posted) = [[demoPayload]]
  /\ map week_start demoPayload.(weeks)
     = [1 * msPerWeek; 2 * msPerWeek; 3 * msPerWeek; 4 * msPerWeek].
Proof. vm_compute. split; reflexivity. Qed.

(** * Prediction runs *)

Lemma filter_length_pos {A : Type} (f : A -> bool) (l : list A) (x : A) :
  In x l -> f x = true -> (1 <= List.length (filter f l))%nat.
Proof.
  intros Hin Hf.
  assert (H : In x (filter f l)) by (apply filter_In; split; assumption).
  destruct (filter f l); [destruct H|simpl; lia].
Qed.

Lemma insufficientWindow_lt (db : Database) (employeeId : Z) :
  insufficientWindow db employeeId = true
  <-> (List.length (storedMetrics db employeeId) < 4)%nat.
Proof. unfold insufficientWindow. apply Nat.ltb_lt. Qed.

(** C5: an employee with fewer than four stored weekly metrics is in no
    body posted to the ML service, and when the run covers the employee
    and answers 200, the [skipped] count of the answer counts every
    covered employee with too few weeks, this one included. *)
Theorem insufficient_window_skipped (env : Env) (req : PredictRequest)
  (db : Database) (employeeId : Z) :
  (List.length (storedMetrics db employeeId) < 4)%nat ->
  (forall body p,
     In body (handlePredict env req db).(posted) -> In p body ->
     p.(employee_id) <> employeeId)
  /\ (In employeeId (targets db req) ->
      (handlePredict env req db).(value).(status) = 200 ->
      exists processed skipped saved,
        (handlePredict env req db).(value).(body)
        = PredictSummary processed skipped saved
        /\ (1 <= List.length (filter (insufficientWindow db) (targets db req))
            <= skipped)%nat).
Proof.
  intros Hlt. apply insufficientWindow_lt in Hlt. split.
  - intros body p Hbody Hp Heq.
    destruct (posted_payloads env req db body p Hbody Hp) as [Hb _].
    destruct (buildPayload_employee _ _ _ Hb) as [_ Hs].
    rewrite Heq in Hs. congruence.
  - intros Hin Hok.
    pose proof (filter_length_pos _ _ _ Hin Hlt) as Hpos.
    destruct req as [|e|e]; simpl in *.
    + unfold mlPredict in *.
      pose proof (collectPayloads_skipped db (getEmployees db)) as Hsk.
      destruct (collectPayloads db (getEmployees db)) as [skipped batch].
      simpl in Hsk. unfold getEmployees in *. rewrite <- Hsk in *.
      destruct (List.length batch =? 0)%nat.
      * exists 0%nat, skipped, 0%nat. split; [reflexivity|]. clear - Hpos. lia.
      * unfold replyToBatch in *. cbn [value] in *.
        destruct (value (runMlBatch env db batch)) as [processed saved cached|detail].
        -- exists processed, (skipped + cached)%nat, saved.
           split; [reflexivity|]. clear - Hpos. lia.
        -- discriminate Hok.
    + unfold mlPredict in *. destruct (getEmployee db e); [|destruct Hin].
      destruct Hin as [->|[]].
      rewrite (buildPayload_none _ _ Hlt) in *.
      exists 0%nat, 1%nat, 0%nat. split; [reflexivity|].
      cbn [filter]. rewrite Hlt. simpl. lia.
    + unfold mlPredictOne in *. destruct (getEmployee db e); [|destruct Hin].
      destruct Hin as [->|[]].
      rewrite (buildPayload_none _ _ Hlt) in *.
      exists 0%nat, 1%nat, 0%nat. split; [reflexivity|].
      cbn [filter]. rewrite Hlt. simpl. lia.
Qed.

(** [insufficient_window_skipped] for employee 2 of the demo database, who
    has three stored weeks, in a run over all employees. *)
Lemma insufficient_window_skipped_witness :
  (forall body p,
     In body (handlePredict (demoEnv 10000) PredictAll demoDatabase).(posted) ->
     In p body -> p.(employee_id) <> 2)
  /\ exists processed skipped saved,
       (handlePredict (demoEnv 10000) PredictAll demoDatabase).(value).(body)
       = PredictSummary processed skipped saved
       /\ (1 <= List.length
                  (filter (insufficientWindow demoDatabase)
                     (targets demoDatabase PredictAll))
           <= skipped)%nat.
Proof.
  assert (Hlt : (List.length (storedMetrics demoDatabase 2) < 4)%nat)
    by (simpl; lia).
  destruct (insufficient_window_skipped (demoEnv 10000) PredictAll demoDatabase 2 Hlt)
    as [Hposted Hskipped].
  split; [exact Hposted|].
  apply Hskipped.
  - simpl. right. left. reflexivity.
  - vm_compute. reflexivity.
Defined.

(** C7: when the body a run posted was answered with a non-success status,
    the run answers 502 with the message "ML service error" and the text
    of the upstream answer as detail, and the database, so also the table
    of predictions, is what it was before the run. *)
Theorem upstream_failure_is_502 (env : Env) (req : PredictRequest)
  (db : Database) (sent : list Payload) :
  In sent (handlePredict env req db).(posted) ->
  (env.(fetchPredictBatch) sent).(resp_ok) = false ->
  (handlePredict env req db).(value)
  = {| status := 502;
       body := ErrorMessage "ML service error"
                 (Some (env.(fetchPredictBatch) sent).(resp_text)) |}
  /\ (handlePredict env req db).(database) = db
  /\ (handlePredict env req db).(database).(employeeMlPredictions)
     = db.(employeeMlPredictions).
Proof.
  destruct (handlePredict_shape env req db) as [[resp ->]|(batch & sk & -> & _)].
  - intros [].
  - unfold replyToBatch. cbn [value database posted].
    intros Hsent Hfail.
    destruct (runMlBatch_cases env db batch) as [[_ Hd]|[H|H]].
    + rewrite Hd in Hsent. destruct Hsent.
    + destruct H as (_ & Hp & _ & Hv & Hdb).
      rewrite Hp in Hsent. destruct Hsent as [<-|[]].
      rewrite Hv, Hdb. repeat split; reflexivity.
    + destruct H as (_ & Hp & Hok & _).
      rewrite Hp in Hsent. destruct Hsent as [<-|[]]. congruence.
Qed.

(** [upstream_failure_is_502] for employee 1 of the demo database, 301
    seconds after the stored prediction, with a service that fails. *)
Lemma upstream_failure_is_502_witness :
  (handlePredict (demoEnv 301000) (PredictPath 1) demoDatabase).(value)
  = {| status := 502;
       body := ErrorMessage "ML service error" (Some "model unavailable"%string) |}
  /\ (handlePredict (demoEnv 301000) (PredictPath 1) demoDatabase).(database)
     = demoDatabase
  /\ (handlePredict (demoEnv 301000) (PredictPath 1) demoDatabase).(database).(employeeMlPredictions)
     = demoDatabase.(employeeMlPredictions).
Proof.
  apply (upstream_failure_is_502 (demoEnv 301000) (PredictPath 1) demoDatabase
           [demoPayload]).
  - vm_compute. left. reflexivity.
  - reflexivity.
Defined.

(** * The cache gate *)

(** A stored prediction younger than the TTL makes the gate hold the
    payload back; one at least as old as the TTL lets it through. *)
Lemma isCached_by_age (env : Env) (db : Database) (payload : Payload)
  (cached : EmployeeMlPrediction) (createdAt ttl : Z) :
  getLatestMlPrediction db payload.(employee_id) = Some cached ->
  cached.(mp_createdAt) = Some createdAt ->
  cacheTtlMs env = Some ttl ->
  isCached env db payload = (env.(dateNow) - createdAt <? ttl).
Proof.
  intros Hl Hc Ht. unfold isCached, recentlyCachedPrediction.
  rewrite Hl, Hc, Ht.
  destruct (env.(dateNow) - createdAt <? ttl); reflexivity.
Qed.

(** The TTL is 300000 ms when the variable is unset or empty. *)
Lemma cacheTtlMs_default (env : Env) :
  env.(ML_PREDICTION_CACHE_TTL_MS) = None
  \/ env.(ML_PREDICTION_CACHE_TTL_MS) = Some EmptyString ->
  cacheTtlMs env = Some 300000.
Proof. unfold cacheTtlMs. intros [-> | ->]; reflexivity. Qed.

(** An employee held back by the gate is in no posted body. *)
Lemma cached_employee_not_posted (env : Env) (req : PredictRequest)
  (db : Database) (payload : Payload) :
  isCached env db payload = true ->
  forall body p,
    In body (handlePredict env req db).(posted) -> In p body ->
    p.(employee_id) <> payload.(employee_id).
Proof.
  intros Hc body p Hbody Hp Heq.
  destruct (posted_payloads env req db body p Hbody Hp) as [_ Hn].
  unfold isCached, recentlyCachedPrediction in Hc, Hn.
  rewrite Heq in Hn. congruence.
Qed.

(** The path handler reports an employee held back by the gate as
    skipped, posts nothing and writes nothing. *)
Lemma cached_employee_path (env : Env) (db : Database) (employeeId : Z)
  (employee : Employee) (payload : Payload) :
  getEmployee db employeeId = Some employee ->
  buildPayloadForEmployee db employeeId = Some payload ->
  isCached env db payload = true ->
  handlePredict env (PredictPath employeeId) db
  = done (json (PredictSummary 0 1 0)) db.
Proof.
  intros He Hb Hc. simpl. unfold mlPredictOne. rewrite He, Hb.
  destruct (runMlBatch_cases env db [payload]) as [[_ Hd]|[H|H]].
  - rewrite Hd. simpl. rewrite Hc. reflexivity.
  - destruct H as [Hne _]. simpl in Hne. rewrite Hc in Hne. now destruct Hne.
  - destruct H as [Hne _]. simpl in Hne. rewrite Hc in Hne. now destruct Hne.
Qed.

(** The query handler, in the same situation, answers [skipped: 0]. *)
Lemma cached_employee_query (env : Env) (db : Database) (employeeId : Z)
  (employee : Employee) (payload : Payload) :
  getEmployee db employeeId = Some employee ->
  buildPayloadForEmployee db employeeId = Some payload ->
  isCached env db payload = true ->
  handlePredict env (PredictQuery employeeId) db
  = done (json (PredictSummary 0 0 0)) db.
Proof.
  intros He Hb Hc. simpl. unfold mlPredict. rewrite He, Hb.
  destruct (runMlBatch_cases env db [payload]) as [[_ Hd]|[H|H]].
  - rewrite Hd. reflexivity.
  - destruct H as [Hne _]. simpl in Hne. rewrite Hc in Hne. now destruct Hne.
  - destruct H as [Hne _]. simpl in Hne. rewrite Hc in Hne. now destruct Hne.
Qed.

(** An employee the gate lets through is posted, alone, by the two
    single-employee handlers. *)
Lemma stale_employee_posted (env : Env) (db : Database) (employeeId : Z)
  (employee : Employee) (payload : Payload) :
  getEmployee db employeeId = Some employee ->
  buildPayloadForEmployee db employeeId = Some payload ->
  isCached env db payload = false ->
  (handlePredict env (PredictPath employeeId) db).(posted) = [[payload]]
  /\ (handlePredict env (PredictQuery employeeId) db).(posted) = [[payload]].
Proof.
  intros He Hb Hc. simpl. unfold mlPredictOne, mlPredict. rewrite He, Hb.
  unfold replyToBatch. cbn [posted].
  destruct (runMlBatch_cases env db [payload]) as [[Hnil _]|[H|H]].
  - simpl in Hnil. rewrite Hc in Hnil. discriminate Hnil.
  - destruct H as (_ & Hp & _). rewrite Hp. simpl. rewrite Hc. split; reflexivity.
  - destruct H as (_ & Hp & _). rewrite Hp. simpl. rewrite Hc. split; reflexivity.
Qed.

(** C4, on the demo database, ten seconds after the prediction of
    employee 1 was stored and with the default TTL: the run posts
    nothing, the path handler and the run over all employees count the
    employee as skipped, and the query handler answers [skipped: 0];
    301 seconds after, the employee is posted. *)
Theorem cached_employee_query_reports_no_skip :
  cacheTtlMs (demoEnv 10000) = Some 300000
  /\ option_map mp_createdAt (getLatestMlPrediction demoDatabase 1)
     = Some (Some ((demoEnv 10000).(dateNow) - 10000))
  /\ handlePredict (demoEnv 10000) (PredictQuery 1) demoDatabase
     = done (json (PredictSummary 0 0 0)) demoDatabase
  /\ handlePredict (demoEnv 10000) (PredictPath 1) demoDatabase
     = done (json (PredictSummary 0 1 0)) demoDatabase
  /\ handlePredict (demoEnv 10000) PredictAll demoDatabase
     = done (json (PredictSummary 0 2 0)) demoDatabase
  /\ (handlePredict (demoEnv 301000) (PredictQuery 1) demoDatabase).(posted)
     = [[demoPayload]].
Proof.
  split; [vm_compute; reflexivity|].
  split; [vm_compute; reflexivity|].
  split; [vm_compute; reflexivity|].
  split; [vm_compute; reflexivity|].
  split; vm_compute; reflexivity.
Qed.

(** * Upserts of health scores *)

Lemma matchesKey_iff (score : InsertHealthScore) (row : HealthScore) :
  matchesKey score row = true <-> hsKey row = scoreKey score.
Proof.
  unfold matchesKey, hsKey, scoreKey. rewrite andb_true_iff, !Z.eqb_eq.
  split; [intros [-> ->]; reflexivity|intros H; injection H; auto].
Qed.

Lemma keyEqb_iff (k1 k2 : Z * timestamp) : keyEqb k1 k2 = true <-> k1 = k2.
Proof.
  destruct k1, k2. unfold keyEqb. simpl. rewrite andb_true_iff, !Z.eqb_eq.
  split; [intros [-> ->]; reflexivity|intros H; injection H; auto].
Qed.

Lemma NoDup_map_inj {A B : Type} (f : A -> B) (l : list A) (x y : A) :
  NoDup (map f l) -> In x l -> In y l -> f x = f y -> x = y.
Proof.
  induction l as [|a l IH]; simpl; intros Hnd Hx Hy Hf; [destruct Hx|].
  inversion Hnd as [|? ? Hnotin Hnd']; subst.
  destruct Hx as [->|Hx], Hy as [->|Hy].
  - reflexivity.
  - exfalso. apply Hnotin. rewrite Hf. apply in_map. exact Hy.
  - exfalso. apply Hnotin. rewrite <- Hf. apply in_map. exact Hx.
  - apply IH; assumption.
Qed.

Lemma hd_constant {A : Type} (d : A) (l : list A) :
  (forall x, In x l -> x = d) -> hd d l = d.
Proof. destruct l as [|a l]; simpl; intros H; [reflexivity|apply H; left; reflexivity]. Qed.

Lemma map_hs_id (rows : list HealthScore) :
  map hs_id rows = map fst (map hsIdKey rows).
Proof. rewrite map_map. reflexivity. Qed.

Lemma map_hsKey (rows : list HealthScore) :
  map hsKey rows = map snd (map hsIdKey rows).
Proof. rewrite map_map. reflexivity. Qed.

(** What one upsert does to a table whose ids and natural keys are
    pairwise distinct. *)
Lemma upsert_step (db : Database) (score : InsertHealthScore) :
  primaryKeyed db -> oneRowPerKey db ->
  let out := upsertHealthScore db score in
  primaryKeyed (snd out) /\ oneRowPerKey (snd out)
  /\ In (fst out) (snd out).(healthScores)
  /\ hsKey (fst out) = scoreKey score
  /\ holdsScore score (fst out)
  /\ (forall row, In row db.(healthScores) -> hsKey row <> scoreKey score ->
        In row (snd out).(healthScores))
  /\ (exists added,
        map hsIdKey (snd out).(healthScores)
        = map hsIdKey db.(healthScores) ++ added)
  /\ (forall row, In row db.(healthScores) -> hsKey row = scoreKey score ->
        map hs_id (snd out).(healthScores) = map hs_id db.(healthScores)
        /\ (snd out).(healthScores_id_seq) = db.(healthScores_id_seq)
        /\ hs_id (fst out) = hs_id row).
Proof.
  intros [Hids Hseq] Hkeys. unfold oneRowPerKey, primaryKeyed in *.
  cbv zeta. unfold upsertHealthScore.
  destruct (find (matchesKey score) (healthScores db)) as [existing|] eqn:Hfind.
  - apply find_some in Hfind. destruct Hfind as [Hin Hmatch].
    apply matchesKey_iff in Hmatch.
    set (upd := fun row : HealthScore =>
                  if hs_id row =? hs_id existing
                  then setHealthScore score row else row).
    assert (Hhit : forall row, In row (healthScores db) ->
                     hs_id row = hs_id existing -> row = existing).
    { intros row Hrow Hid. exact (NoDup_map_inj hs_id _ _ _ Hids Hrow Hin Hid). }
    assert (Hsame : map hsIdKey (map upd (healthScores db))
                    = map hsIdKey (healthScores db)).
    { rewrite map_map. apply map_ext_in. intros row Hrow. unfold upd.
      destruct (Z.eqb_spec (hs_id row) (hs_id existing)) as [Hid|]; [|reflexivity].
      rewrite (Hhit row Hrow Hid). unfold hsIdKey, hsKey in *. simpl.
      injection Hmatch as _ <-. reflexivity. }
    assert (Hupd : upd existing = setHealthScore score existing).
    { unfold upd. rewrite Z.eqb_refl. reflexivity. }
    assert (Hret : hd (setHealthScore score existing)
                     (filter (fun row => hs_id row =? hs_id existing)
                        (map upd (healthScores db)))
                   = setHealthScore score existing).
    { apply hd_constant. intros x Hx. apply filter_In in Hx.
      destruct Hx as [Hx Hid]. apply Z.eqb_eq in Hid.
      apply in_map_iff in Hx. destruct Hx as (row & <- & Hrow).
      assert (Hrid : hs_id row = hs_id existing).
      { unfold upd in Hid. destruct (hs_id row =? hs_id existing) eqn:E.
        - apply Z.eqb_eq. exact E.
        - exact Hid. }
      rewrite (Hhit row Hrow Hrid). exact Hupd. }
    fold upd. rewrite Hret. cbn [fst snd healthScores healthScores_id_seq set_healthScores].
    split.
    { split.
      - rewrite map_hs_id, Hsame, <- map_hs_id. exact Hids.
      - apply Forall_forall. intros x Hx. apply in_map_iff in Hx.
        destruct Hx as (row & <- & Hrow). rewrite Forall_forall in Hseq.
        specialize (Hseq row Hrow). unfold upd.
        destruct (hs_id row =? hs_id existing); exact Hseq. }
    split; [rewrite map_hsKey, Hsame, <- map_hsKey; exact Hkeys|].
    split; [rewrite <- Hupd; apply in_map; exact Hin|].
    split.
    { unfold hsKey, scoreKey in *. simpl. injection Hmatch as -> _. reflexivity. }
    split; [repeat split; reflexivity|].
    split.
    { intros row Hrow Hne. apply in_map_iff. exists row. split; [|exact Hrow].
      unfold upd. destruct (Z.eqb_spec (hs_id row) (hs_id existing)) as [Hid|];
        [|reflexivity].
      exfalso. apply Hne. rewrite (Hhit row Hrow Hid). exact Hmatch. }
    split; [exists []; rewrite app_nil_r; exact Hsame|].
    intros row Hrow Hkey.
    split; [rewrite map_hs_id, Hsame, <- map_hs_id; reflexivity|].
    split; [reflexivity|]. simpl.
    f_equal. symmetry.
    exact (NoDup_map_inj hsKey _ _ _ Hkeys Hrow Hin (eq_trans Hkey (eq_sym Hmatch))).
  - assert (Hnone : forall row, In row (healthScores db) -> hsKey row <> scoreKey score).
    { intros row Hrow Hkey. apply matchesKey_iff in Hkey.
      rewrite (find_none _ _ Hfind row Hrow) in Hkey. discriminate Hkey. }
    unfold addHealthScore.
    cbn [fst snd healthScores healthScores_id_seq set_healthScores].
    split.
    { split.
      - rewrite map_app. simpl. apply NoDup_app.
        + exact Hids.
        + constructor; [intros []|constructor].
        + intros x Hx [<-|[]]. apply in_map_iff in Hx.
          destruct Hx as (row & Hid & Hrow). rewrite Forall_forall in Hseq.
          specialize (Hseq row Hrow). lia.
      - apply Forall_app. split.
        + eapply Forall_impl; [|exact Hseq]. intros row Hrow. simpl in *. lia.
        + constructor; [simpl; lia|constructor]. }
    split.
    { rewrite map_app. simpl. apply NoDup_app.
      - exact Hkeys.
      - constructor; [intros []|constructor].
      - intros x Hx [<-|[]]. apply in_map_iff in Hx.
        destruct Hx as (row & Hk & Hrow). exact (Hnone row Hrow Hk). }
    split; [apply in_or_app; right; left; reflexivity|].
    split; [reflexivity|].
    split; [repeat split; reflexivity|].
    split; [intros row Hrow _; apply in_or_app; left; exact Hrow|].
    split; [eexists; rewrite map_app; reflexivity|].
    intros row Hrow Hkey. exfalso. exact (Hnone row Hrow Hkey).
Qed.

Lemma upsertAll_invariant (scores : list InsertHealthScore) (db : Database) :
  primaryKeyed db -> oneRowPerKey db ->
  primaryKeyed (upsertAll db scores) /\ oneRowPerKey (upsertAll db scores).
Proof.
  revert db. induction scores as [|score rest IH]; intros db Hp Hk; simpl.
  - split; assumption.
  - destruct (upsert_step db score Hp Hk) as (Hp' & Hk' & _). apply IH; assumption.
Qed.

(** A row whose key is not upserted stays as it is. *)
Lemma upsertAll_untouched (scores : list InsertHealthScore) (db : Database)
  (row : HealthScore) :
  primaryKeyed db -> oneRowPerKey db ->
  In row db.(healthScores) -> lastUpsert (hsKey row) scores = None ->
  In row (upsertAll db scores).(healthScores).
Proof.
  revert db. induction scores as [|score rest IH]; intros db Hp Hk Hin Hlast; simpl.
  - exact Hin.
  - simpl in Hlast.
    destruct (lastUpsert (hsKey row) rest) eqn:Hrest; [discriminate Hlast|].
    destruct (keyEqb (scoreKey score) (hsKey row)) eqn:Hkey; [discriminate Hlast|].
    destruct (upsert_step db score Hp Hk) as (Hp' & Hk' & _ & _ & _ & Hkeep & _).
    apply IH; try assumption. apply Hkeep; [exact Hin|].
    intros Heq. symmetry in Heq. apply keyEqb_iff in Heq. congruence.
Qed.

Lemma upsertAll_last (scores : list InsertHealthScore) (db : Database)
  (key : Z * timestamp) (score : InsertHealthScore) :
  primaryKeyed db -> oneRowPerKey db ->
  lastUpsert key scores = Some score ->
  exists row, In row (upsertAll db scores).(healthScores)
              /\ hsKey row = key /\ holdsScore score row.
Proof.
  revert db. induction scores as [|s rest IH]; intros db Hp Hk Hlast; simpl.
  - discriminate Hlast.
  - simpl in Hlast.
    destruct (upsert_step db s Hp Hk) as (Hp' & Hk' & Hin & Hkey & Hholds & _).
    destruct (lastUpsert key rest) as [later|] eqn:Hrest.
    + injection Hlast as <-. apply IH; try assumption. reflexivity.
    + destruct (keyEqb (scoreKey s) key) eqn:E; [|discriminate Hlast].
      injection Hlast as <-. apply keyEqb_iff in E.
      exists (fst (upsertHealthScore db s)). split; [|split].
      * apply upsertAll_untouched; try assumption.
        rewrite Hkey, E. exact Hrest.
      * rewrite Hkey. exact E.
      * exact Hholds.
Qed.

Lemma upsertAll_appends (scores : list InsertHealthScore) (db : Database) :
  primaryKeyed db -> oneRowPerKey db ->
  exists added,
    map hsIdKey (upsertAll db scores).(healthScores)
    = map hsIdKey db.(healthScores) ++ added.
Proof.
  revert db. induction scores as [|s rest IH]; intros db Hp Hk; simpl.
  - exists []. rewrite app_nil_r. reflexivity.
  - destruct (upsert_step db s Hp Hk) as (Hp' & Hk' & _ & _ & _ & _ & [a1 H1] & _).
    destruct (IH _ Hp' Hk') as [a2 H2].
    exists (a1 ++ a2). rewrite H2, H1, app_assoc. reflexivity.
Qed.

(** C6: after any sequence of upserts on a table whose ids and natural
    keys are pairwise distinct (the empty table is one), the natural keys
    are still pairwise distinct, so each (employee, date) pair has at most
    one row; the row of a pair carries the values of the last upsert of
    that pair; the rows that were there keep their place, id and key while
    new rows are appended; and one more upsert of a stored key leaves the
    list of ids and the sequence as they are and returns the stored row's
    id with the new values. *)
Theorem upsert_keeps_one_row_per_key (db : Database)
  (scores : list InsertHealthScore) :
  primaryKeyed db -> oneRowPerKey db ->
  let db' := upsertAll db scores in
  NoDup (map hsKey db'.(healthScores))
  /\ NoDup (map hs_id db'.(healthScores))
  /\ (forall key score,
        lastUpsert key scores = Some score ->
        exists row, In row db'.(healthScores)
                    /\ hsKey row = key /\ holdsScore score row)
  /\ (exists added,
        map hsIdKey db'.(healthScores) = map hsIdKey db.(healthScores) ++ added)
  /\ (forall score row,
        In row db'.(healthScores) -> hsKey row = scoreKey score ->
        let out := upsertHealthScore db' score in
        map hs_id (snd out).(healthScores) = map hs_id db'.(healthScores)
        /\ (snd out).(healthScores_id_seq) = db'.(healthScores_id_seq)
        /\ hs_id (fst out) = hs_id row
        /\ hsKey (fst out) = hsKey row
        /\ holdsScore score (fst out)).
Proof.
  intros Hp Hk. cbv zeta.
  destruct (upsertAll_invariant scores db Hp Hk) as [Hp' Hk'].
  split; [exact Hk'|].
  split; [exact (proj1 Hp')|].
  split; [intros key score; apply upsertAll_last; assumption|].
  split; [apply upsertAll_appends; assumption|].
  intros score row Hin Hkey.
  destruct (upsert_step (upsertAll db scores) score Hp' Hk')
    as (_ & _ & _ & Hk1 & Hholds & _ & _ & Hsame).
  destruct (Hsame row Hin Hkey) as (Hids & Hseq & Hid).
  repeat split; try assumption; try apply Hholds.
  rewrite Hk1, Hkey. reflexivity.
Qed.

(** [upsert_keeps_one_row_per_key] for the three demo scores on the empty
    database. *)
Lemma upsert_keeps_one_row_per_key_witness :
  let db' := upsertAll emptyDatabase demoScores in
  NoDup (map hsKey db'.(healthScores))
  /\ NoDup (map hs_id db'.(healthScores))
  /\ (forall key score,
        lastUpsert key demoScores = Some score ->
        exists row, In row db'.(healthScores)
                    /\ hsKey row = key /\ holdsScore score row)
  /\ (exists added,
        map hsIdKey db'.(healthScores)
        = map hsIdKey emptyDatabase.(healthScores) ++ added)
  /\ (forall score row,
        In row db'.(healthScores) -> hsKey row = scoreKey score ->
        let out := upsertHealthScore db' score in
        map hs_id (snd out).(healthScores) = map hs_id db'.(healthScores)
        /\ (snd out).(healthScores_id_seq) = db'.(healthScores_id_seq)
        /\ hs_id (fst out) = hs_id row
        /\ hsKey (fst out) = hsKey row
        /\ holdsScore score (fst out)).
Proof.
  apply (upsert_keeps_one_row_per_key emptyDatabase demoScores).
  - split; constructor.
  - constructor.
Defined.

(** The table after the three demo upserts: two rows, the row of employee 1
    with its first id and the values of the later upsert. *)
Example upsertAll_demo :
  (upsertAll emptyDatabase demoScores).(healthScores)
  = [ insertedHealthScore 1 (demoScore 1 0 30);
      insertedHealthScore 2 (demoScore 2 0 20) ].
Proof. vm_compute. reflexivity. Qed.

(** * Rounding keeps mantissas within 53 bits *)

Lemma digits2_pos_bound (p : positive) : Zpos p < 2 ^ Zpos (digits2_pos p).
Proof.
  induction p as [p IH|p IH|]; simpl digits2_pos.
  - rewrite Pos2Z.inj_succ, Z.pow_succ_r by lia. lia.
  - rewrite Pos2Z.inj_succ, Z.pow_succ_r by lia. lia.
  - simpl. lia.
Qed.

Lemma digits2_pos_lower (p : positive) : 2 ^ (Zpos (digits2_pos p) - 1) <= Zpos p.
Proof.
  induction p as [p IH|p IH|]; simpl digits2_pos.
  - rewrite Pos2Z.inj_succ. replace (Z.succ (Zpos (digits2_pos p)) - 1)
      with (Z.succ (Zpos (digits2_pos p) - 1)) by lia.
    rewrite Z.pow_succ_r by lia. lia.
  - rewrite Pos2Z.inj_succ. replace (Z.succ (Zpos (digits2_pos p)) - 1)
      with (Z.succ (Zpos (digits2_pos p) - 1)) by lia.
    rewrite Z.pow_succ_r by lia. lia.
  - simpl. lia.
Qed.

Lemma Zdigits2_bound (m : Z) : 0 <= m -> m < 2 ^ Zdigits2 m.
Proof.
  destruct m as [|p|p]; simpl; intros H; [lia|apply digits2_pos_bound|lia].
Qed.

Lemma Zdigits2_nonneg (m : Z) : 0 <= Zdigits2 m.
Proof. destruct m; simpl; lia. Qed.

(** A non-negative integer below [2^k] has at most [k] binary digits. *)
Lemma Zdigits2_le (m k : Z) : 0 <= m -> 0 <= k -> m < 2 ^ k -> Zdigits2 m <= k.
Proof.
  intros Hm Hk Hlt. destruct m as [|p|p]; simpl; [lia| |lia].
  pose proof (digits2_pos_lower p) as Hlow.
  destruct (Z.le_gt_cases (Zpos (digits2_pos p)) k) as [|Hgt]; [assumption|].
  exfalso.
  assert (2 ^ k <= 2 ^ (Zpos (digits2_pos p) - 1)) by (apply Z.pow_le_mono_r; lia).
  lia.
Qed.

Lemma shr_1_div2 (mrs : shr_record) :
  0 <= shr_m mrs -> shr_m (shr_1 mrs) = shr_m mrs / 2.
Proof.
  destruct mrs as [m r s]. simpl. intros Hm.
  destruct m as [|[p|p|]|p]; simpl; try lia; try reflexivity.
  - rewrite Pos2Z.inj_xI. apply Z.div_unique with 1; lia.
  - rewrite Pos2Z.inj_xO. apply Z.div_unique with 0; lia.
Qed.

Lemma pow2_xO (p : positive) : 2 ^ Zpos p~0 = 2 ^ Zpos p * 2 ^ Zpos p.
Proof.
  replace (Zpos p~0) with (Zpos p + Zpos p) by lia.
  apply Z.pow_add_r; lia.
Qed.

Lemma pow2_xI (p : positive) : 2 ^ Zpos p~1 = 2 * (2 ^ Zpos p * 2 ^ Zpos p).
Proof.
  replace (Zpos p~1) with (Z.succ (Zpos p + Zpos p)) by lia.
  rewrite Z.pow_succ_r, Z.pow_add_r by lia. reflexivity.
Qed.

Lemma shr_m_iter (p : positive) (mrs : shr_record) :
  0 <= shr_m mrs ->
  shr_m (iter_pos shr_1 p mrs) = shr_m mrs / 2 ^ Zpos p.
Proof.
  assert (Hpow : forall q, 0 < 2 ^ Zpos q) by (intros q; apply Z.pow_pos_nonneg; lia).
  revert mrs. induction p as [p IH|p IH|]; intros mrs Hm; simpl iter_pos.
  - assert (H1 : 0 <= shr_m (shr_1 mrs))
      by (rewrite shr_1_div2 by assumption; apply Z.div_pos; lia).
    assert (H2 : 0 <= shr_m (iter_pos shr_1 p (shr_1 mrs)))
      by (rewrite IH by assumption; apply Z.div_pos; [lia|apply Hpow]).
    rewrite IH, IH, shr_1_div2 by assumption.
    pose proof (Hpow p).
    rewrite !Z.div_div by lia. rewrite pow2_xI. reflexivity.
  - assert (H2 : 0 <= shr_m (iter_pos shr_1 p mrs))
      by (rewrite IH by assumption; apply Z.div_pos; [lia|apply Hpow]).
    rewrite IH, IH by assumption.
    pose proof (Hpow p).
    rewrite Z.div_div by lia. rewrite pow2_xO. reflexivity.
  - rewrite shr_1_div2 by assumption. reflexivity.
Qed.

Lemma fexp_eq (x : Z) : fexp JS.prec JS.emax x = Z.max (x - 53) (-1074).
Proof. reflexivity. Qed.

(** The shift [shr_fexp] applies to a non-negative mantissa. *)
Lemma shr_fexp_eq (m e : Z) (l : location) :
  0 <= m ->
  let sh := Z.max 0 (Z.max (Zdigits2 m + e - 53) (-1074) - e) in
  shr_m (fst (shr_fexp JS.prec JS.emax m e l)) = m / 2 ^ sh
  /\ snd (shr_fexp JS.prec JS.emax m e l) = e + sh.
Proof.
  intros Hm. cbv zeta. unfold shr_fexp. rewrite fexp_eq.
  set (n := Z.max (Zdigits2 m + e - 53) (-1074) - e).
  assert (Hrec : shr_m (shr_record_of_loc m l) = m)
    by (destruct l as [|[ | | ]]; reflexivity).
  unfold shr. destruct n as [|p|p] eqn:En; simpl Z.max.
  - simpl. rewrite Hrec, Z.div_1_r. split; [reflexivity|lia].
  - cbn [fst snd]. rewrite shr_m_iter by (rewrite Hrec; exact Hm).
    rewrite Hrec. replace (Z.max 0 (Zpos p)) with (Zpos p) by lia.
    split; reflexivity.
  - simpl. rewrite Hrec, Z.div_1_r. split; [reflexivity|lia].
Qed.

Lemma shr_fexp_facts (m e : Z) (l : location) :
  0 <= m ->
  let m' := shr_m (fst (shr_fexp JS.prec JS.emax m e l)) in
  let e' := snd (shr_fexp JS.prec JS.emax m e l) in
  0 <= m' < 2 ^ 53
  /\ forall K, -1074 <= K -> Zdigits2 m + e <= K ->
       m' < 2 ^ (K - e') /\ e' <= K /\ e' <= Z.max e (Z.max (K - 53) (-1074)).
Proof.
  intros Hm. cbv zeta.
  destruct (shr_fexp_eq m e l Hm) as [-> ->].
  set (d := Zdigits2 m).
  set (sh := Z.max 0 (Z.max (d + e - 53) (-1074) - e)).
  pose proof (Zdigits2_bound m Hm) as Hd. fold d in Hd.
  pose proof (Zdigits2_nonneg m) as Hd0. fold d in Hd0.
  assert (Hsh : 0 <= sh) by (unfold sh; lia).
  assert (Hpow : 0 < 2 ^ sh) by (apply Z.pow_pos_nonneg; lia).
  split.
  - split; [apply Z.div_pos; lia|].
    apply Z.div_lt_upper_bound; [exact Hpow|].
    rewrite <- Z.pow_add_r by lia.
    eapply Z.lt_le_trans; [exact Hd|].
    apply Z.pow_le_mono_r; [lia|]. unfold sh. lia.
  - intros K HK HdK.
    assert (He : e + sh <= K) by (unfold sh; lia).
    split; [|split; [exact He|unfold sh; lia]].
    apply Z.div_lt_upper_bound; [exact Hpow|].
    rewrite <- Z.pow_add_r by lia.
    eapply Z.lt_le_trans; [exact Hd|].
    apply Z.pow_le_mono_r; lia.
Qed.

Lemma round_nearest_even_bounds (m : Z) (l : location) :
  m <= round_nearest_even m l <= m + 1.
Proof.
  unfold round_nearest_even.
  destruct l as [|[ | | ]]; try lia. destruct (Z.even m); lia.
Qed.

(** The outcome of rounding: never NaN, the sign asked for, a mantissa of
    at most 53 bits, and when the rounded quantity is below [2^K], no
    overflow and a result below [2^(K+1)]. *)
Lemma binary_round_aux_facts (sx : bool) (mx ex : Z) (lx : location) :
  0 <= mx ->
  let r := binary_round_aux JS.prec JS.emax sx mx ex lx in
  hasSign sx r /\ mantissaOk r
  /\ forall K, -1074 <= K -> K <= 1023 -> ex <= 971 -> Zdigits2 mx + ex <= K ->
       finiteBelow (K + 1) r.
Proof.
  intros Hmx. cbv zeta. unfold binary_round_aux.
  pose proof (shr_fexp_facts mx ex lx Hmx) as H1. cbv zeta in H1.
  destruct (shr_fexp JS.prec JS.emax mx ex lx) as [mrs' e'].
  cbn [fst snd] in H1. destruct H1 as [Hm0 HK0].
  pose proof (round_nearest_even_bounds (shr_m mrs') (loc_of_shr_record mrs')) as Hr.
  set (m1 := round_nearest_even (shr_m mrs') (loc_of_shr_record mrs')) in *.
  assert (Hm1 : 0 <= m1) by lia.
  pose proof (shr_fexp_facts m1 e' loc_Exact Hm1) as H2. cbv zeta in H2.
  destruct (shr_fexp JS.prec JS.emax m1 e' loc_Exact) as [mrs'' e''].
  cbn [fst snd] in H2. destruct H2 as [Hm2 HK2].
  destruct (shr_m mrs'') as [|m|m] eqn:Em; [| |lia].
  - simpl. repeat split; trivial.
  - change (JS.emax - JS.prec) with 971.
    destruct (Z.leb_spec e'' 971) as [He|He].
    + unfold hasSign, mantissaOk, finiteBelow.
      split; [reflexivity|]. split; [lia|].
      intros K HKlo HKhi Hex HdK.
      destruct (HK0 K HKlo HdK) as (Hlt0 & He'K & He').
      assert (Hd1 : Zdigits2 m1 + e' <= K + 1).
      { assert (Zdigits2 m1 <= K + 1 - e'); [|lia].
        apply Zdigits2_le; [lia|lia|].
        replace (K + 1 - e') with (Z.succ (K - e')) by lia.
        rewrite Z.pow_succ_r by lia. lia. }
      destruct (HK2 (K + 1) ltac:(lia) Hd1) as (Hlt2 & He''K & He'').
      split; [lia|].
      assert (Hdm : Zdigits2 (Zpos m) <= K + 1 - e'')
        by (apply Zdigits2_le; [lia|lia|exact Hlt2]).
      change (Zdigits2 (Zpos m)) with (Zpos (digits2_pos m)) in Hdm. lia.
    + unfold hasSign, mantissaOk, finiteBelow.
      split; [reflexivity|]. split; [trivial|].
      intros K HKlo HKhi Hex HdK.
      destruct (HK0 K HKlo HdK) as (Hlt0 & He'K & He').
      assert (Hd1 : Zdigits2 m1 + e' <= K + 1).
      { assert (Zdigits2 m1 <= K + 1 - e'); [|lia].
        apply Zdigits2_le; [lia|lia|].
        replace (K + 1 - e') with (Z.succ (K - e')) by lia.
        rewrite Z.pow_succ_r by lia. lia. }
      destruct (HK2 (K + 1) ltac:(lia) Hd1) as (Hlt2 & He''K & He'').
      lia.
Qed.

Lemma iter_xO (m d : positive) : Zpos (Pos.iter xO m d) = Zpos m * 2 ^ Zpos d.
Proof.
  induction d as [|d IH] using Pos.peano_ind.
  - simpl. lia.
  - rewrite Pos.iter_succ, Pos2Z.inj_xO, IH, Pos2Z.inj_succ, Z.pow_succ_r by lia.
    lia.
Qed.

Lemma shl_align_spec (mx : positive) (ex ex' : Z) :
  snd (shl_align mx ex ex') <= ex
  /\ Zpos (fst (shl_align mx ex ex'))
     = Zpos mx * 2 ^ (ex - snd (shl_align mx ex ex')).
Proof.
  unfold shl_align. destruct (ex' - ex) as [|d|d] eqn:E; cbn [fst snd].
  - rewrite Z.sub_diag. simpl. lia.
  - rewrite Z.sub_diag. simpl. lia.
  - split; [lia|]. rewrite iter_xO. f_equal. f_equal. lia.
Qed.

(** A positive mantissa with exponent [e] whose value is below [2^K]. *)
Lemma Zdigits2_value (m e K : Z) :
  0 <= m -> e <= K -> m < 2 ^ (K - e) -> Zdigits2 m + e <= K.
Proof.
  intros Hm He Hlt.
  assert (Zdigits2 m <= K - e) by (apply Zdigits2_le; lia). lia.
Qed.

Lemma binary_round_facts (sx : bool) (mx : positive) (ex : Z) :
  let r := binary_round JS.prec JS.emax sx mx ex in
  hasSign sx r /\ mantissaOk r
  /\ forall K, -1074 <= K -> K <= 1023 -> ex <= 971 ->
       Zpos (digits2_pos mx) + ex <= K -> finiteBelow (K + 1) r.
Proof.
  cbv zeta. unfold binary_round.
  pose proof (shl_align_spec mx ex
                (fexp JS.prec JS.emax (Zpos (digits2_pos mx) + ex))) as Hs.
  destruct (shl_align mx ex _) as [mz ez]. cbn [fst snd] in Hs.
  destruct Hs as [Hez Hmz].
  destruct (binary_round_aux_facts sx (Zpos mz) ez loc_Exact ltac:(lia))
    as (Hsign & Hmant & Hbelow).
  split; [exact Hsign|]. split; [exact Hmant|].
  intros K HKlo HKhi Hex Hd. apply Hbelow; try lia.
  pose proof (digits2_pos_bound mx) as Hb.
  assert (0 < 2 ^ (ex - ez)) by (apply Z.pow_pos_nonneg; lia).
  apply Zdigits2_value; [lia|lia|].
  rewrite Hmz.
  replace (K - ez) with ((K - ex) + (ex - ez)) by lia.
  rewrite Z.pow_add_r by lia.
  apply Z.mul_lt_mono_pos_r; [assumption|].
  eapply Z.lt_le_trans; [exact Hb|]. apply Z.pow_le_mono_r; lia.
Qed.

Lemma binary_normalize_facts (m e : Z) (szero : bool) :
  let r := binary_normalize JS.prec JS.emax m e szero in
  JS.isNaN r = false /\ mantissaOk r
  /\ forall K, -1074 <= K -> K <= 1023 -> e <= 971 -> e <= K ->
       Z.abs m < 2 ^ (K - e) -> finiteBelow (K + 1) r.
Proof.
  cbv zeta. unfold binary_normalize. destruct m as [|p|p].
  - simpl. repeat split; trivial.
  - destruct (binary_round_facts false p e) as (Hs & Hm & Hb).
    split; [destruct (binary_round _ _ _ _ _); simpl in *; tauto|].
    split; [exact Hm|].
    intros K HKlo HKhi He HeK Hlt. apply Hb; try lia.
    apply (Zdigits2_value (Zpos p)); lia.
  - destruct (binary_round_facts true p e) as (Hs & Hm & Hb).
    split; [destruct (binary_round _ _ _ _ _); simpl in *; tauto|].
    split; [exact Hm|].
    intros K HKlo HKhi He HeK Hlt. apply Hb; try lia.
    apply (Zdigits2_value (Zpos p)); lia.
Qed.

(** ** Products *)

Lemma mul_mantissaOk (x y : number) : mantissaOk (JS.mul x y).
Proof.
  destruct x as [sx|sx| |sx mx ex], y as [sy|sy| |sy my ey]; simpl; trivial.
  exact (proj1 (proj2 (binary_round_aux_facts (xorb sx sy) (Zpos (mx * my))
                         (ex + ey) loc_Exact ltac:(lia)))).
Qed.

(** A product with a finite factor that is not zero is NaN only when the
    other factor is. *)
Lemma mul_not_nan (x y : number) (sy : bool) (my : positive) (ey : Z) :
  JS.isNaN x = false -> y = S754_finite sy my ey -> JS.isNaN (JS.mul x y) = false.
Proof.
  intros Hx ->. destruct x as [sx|sx| |sx mx ex]; simpl; try reflexivity.
  - discriminate Hx.
  - destruct (binary_round_aux_facts (xorb sx sy) (Zpos (mx * my)) (ex + ey)
                loc_Exact ltac:(lia)) as (Hs & _).
    destruct (binary_round_aux _ _ _ _ _ _); simpl in *; tauto.
Qed.

Lemma mul_finiteBelow (A B : Z) (x y : number) :
  finiteBelow A x -> finiteBelow B y ->
  -1074 <= A + B -> A + B <= 973 ->
  finiteBelow (A + B + 1) (JS.mul x y).
Proof.
  intros Hx Hy Hlo Hhi.
  destruct x as [sx|sx| |sx mx ex], y as [sy|sy| |sy my ey];
    unfold finiteBelow in Hx, Hy; try contradiction; try exact I.
  destruct Hx as [Hmx Hdx], Hy as [Hmy Hdy].
  apply (proj2 (proj2 (binary_round_aux_facts (xorb sx sy) (Zpos (mx * my))
                         (ex + ey) loc_Exact ltac:(lia)))); try lia.
  pose proof (digits2_pos_bound mx) as Hbx.
  pose proof (digits2_pos_bound my) as Hby.
  assert (Hd : Zdigits2 (Zpos (mx * my))
               <= Zpos (digits2_pos mx) + Zpos (digits2_pos my)).
  { apply Zdigits2_le; [lia|lia|].
    rewrite Pos2Z.inj_mul, Z.pow_add_r by lia.
    apply Z.mul_lt_mono_nonneg; lia. }
  lia.
Qed.

(** ** Quotients *)

Lemma div_core_facts (mx my : positive) (ex ey : Z) :
  let d1 := Zpos (digits2_pos mx) in
  let d2 := Zpos (digits2_pos my) in
  let q := fst (fst (SFdiv_core_binary JS.prec JS.emax (Zpos mx) ex (Zpos my) ey)) in
  let e' := snd (fst (SFdiv_core_binary JS.prec JS.emax (Zpos mx) ex (Zpos my) ey)) in
  0 <= q
  /\ e' <= Z.max (d1 + ex - (d2 + ey) - 53) (-1074)
  /\ forall K, d1 + ex - (d2 + ey) + 1 <= K -> e' <= K -> q < 2 ^ (K - e').
Proof.
  cbv zeta. unfold SFdiv_core_binary. rewrite fexp_eq.
  change (Zdigits2 (Zpos mx)) with (Zpos (digits2_pos mx)).
  change (Zdigits2 (Zpos my)) with (Zpos (digits2_pos my)).
  set (d1 := Zpos (digits2_pos mx)). set (d2 := Zpos (digits2_pos my)).
  set (e' := Z.min (Z.max (d1 + ex - (d2 + ey) - 53) (-1074)) (ex - ey)).
  set (s := ex - ey - e').
  assert (Hs : 0 <= s) by (unfold s, e'; lia).
  set (m' := match s with
             | 0 => Zpos mx
             | Zpos _ => Z.shiftl (Zpos mx) s
             | Zneg _ => 0
             end).
  assert (Hm' : m' = Zpos mx * 2 ^ s).
  { unfold m'. destruct s as [|p|p] eqn:Es.
    - simpl. lia.
    - apply Z.shiftl_mul_pow2. lia.
    - lia. }
  pose proof (Z_div_mod m' (Zpos my) ltac:(lia)) as Hdiv.
  destruct (Z.div_eucl m' (Zpos my)) as [q r]. cbn [fst snd].
  destruct Hdiv as [Hq Hr].
  assert (Hpow : 0 < 2 ^ s) by (apply Z.pow_pos_nonneg; lia).
  assert (Hq0 : 0 <= q) by nia.
  split; [exact Hq0|]. split; [unfold e'; lia|].
  intros K HK HeK.
  pose proof (digits2_pos_bound mx) as Hbx. fold d1 in Hbx.
  pose proof (digits2_pos_lower my) as Hby. fold d2 in Hby.
  destruct (Z.le_gt_cases 0 (d1 - d2 + 1 + s)) as [Hnn|Hneg].
  - apply Z.lt_le_trans with (2 ^ (d1 - d2 + 1 + s));
      [|apply Z.pow_le_mono_r; unfold s; lia].
    assert (Hsplit : 2 ^ (d1 + s) = 2 ^ (d2 - 1) * 2 ^ (d1 - d2 + 1 + s)).
    { rewrite <- Z.pow_add_r by (unfold d2; lia). f_equal. lia. }
    assert (Hlt : m' < 2 ^ (d1 + s)).
    { rewrite Hm', Z.pow_add_r by (unfold d1; lia).
      apply Z.mul_lt_mono_pos_r; assumption. }
    assert (0 < 2 ^ (d2 - 1)) by (apply Z.pow_pos_nonneg; unfold d2; lia).
    assert (0 < 2 ^ (d1 - d2 + 1 + s)) by (apply Z.pow_pos_nonneg; lia).
    nia.
  - assert (Hlt : m' < Zpos my).
    { rewrite Hm'. apply Z.lt_le_trans with (2 ^ (d1 + s)).
      - rewrite Z.pow_add_r by (unfold d1; lia).
        apply Z.mul_lt_mono_pos_r; assumption.
      - eapply Z.le_trans; [|exact Hby]. apply Z.pow_le_mono_r; lia. }
    assert (q = 0) by nia. subst q.
    apply Z.pow_pos_nonneg; lia.
Qed.

Lemma div_mantissaOk (x y : number) : mantissaOk (JS.div x y).
Proof.
  destruct x as [sx|sx| |sx mx ex], y as [sy|sy| |sy my ey]; simpl; trivial.
  pose proof (div_core_facts mx my ex ey) as H. cbv zeta in H.
  destruct (SFdiv_core_binary _ _ _ _ _ _) as [[q e'] l]. cbn [fst snd] in H.
  exact (proj1 (proj2 (binary_round_aux_facts (xorb sx sy) q e' l (proj1 H)))).
Qed.

(** A quotient by a finite divisor that is not zero is NaN only when the
    dividend is. *)
Lemma div_not_nan (x y : number) (sy : bool) (my : positive) (ey : Z) :
  JS.isNaN x = false -> y = S754_finite sy my ey -> JS.isNaN (JS.div x y) = false.
Proof.
  intros Hx ->. destruct x as [sx|sx| |sx mx ex]; simpl; try reflexivity.
  - discriminate Hx.
  - pose proof (div_core_facts mx my ex ey) as H. cbv zeta in H.
    destruct (SFdiv_core_binary _ _ _ _ _ _) as [[q e'] l]. cbn [fst snd] in H.
    destruct (binary_round_aux_facts (xorb sx sy) q e' l (proj1 H)) as (Hs & _).
    destruct (binary_round_aux _ _ _ _ _ _); simpl in *; tauto.
Qed.

(** The quotient of a number below [2^A] by a finite divisor of absolute
    value at least [2^(B-1)] is below [2^(A-B+2)]. *)
Lemma div_finiteBelow (A B : Z) (x y : number) (sy : bool) (my : positive) (ey : Z) :
  finiteBelow A x -> y = S754_finite sy my ey ->
  B <= Zpos (digits2_pos my) + ey ->
  -1075 <= A - B -> A - B <= 1022 ->
  finiteBelow (A - B + 2) (JS.div x y).
Proof.
  intros Hx -> HB Hlo Hhi.
  destruct x as [sx|sx| |sx mx ex]; unfold finiteBelow in Hx;
    try contradiction; try exact I.
  destruct Hx as [Hmx Hdx].
  unfold JS.div, SFdiv.
  pose proof (div_core_facts mx my ex ey) as H. cbv zeta in H.
  destruct (SFdiv_core_binary _ _ _ _ _ _) as [[q e'] l]. cbn [fst snd] in H.
  destruct H as (Hq & He' & Hbound).
  replace (A - B + 2) with (A - B + 1 + 1) by lia.
  apply (proj2 (proj2 (binary_round_aux_facts (xorb sx sy) q e' l Hq))); try lia.
  apply Zdigits2_value; [exact Hq|lia|].
  apply Hbound; lia.
Qed.

(** ** Sums and differences *)

Lemma add_mantissaOk (x y : number) :
  mantissaOk x -> mantissaOk y -> mantissaOk (JS.add x y).
Proof.
  intros Hx Hy.
  destruct x as [sx|sx| |sx mx ex], y as [sy|sy| |sy my ey];
    try (simpl; trivial; destruct sx, sy; simpl; trivial; fail).
  exact (proj1 (proj2 (binary_normalize_facts _ _ _))).
Qed.

Lemma sub_mantissaOk (x y : number) :
  mantissaOk x -> mantissaOk y -> mantissaOk (JS.sub x y).
Proof.
  intros Hx Hy.
  destruct x as [sx|sx| |sx mx ex], y as [sy|sy| |sy my ey];
    try (simpl; trivial; destruct sx, sy; simpl; trivial; fail).
  exact (proj1 (proj2 (binary_normalize_facts _ _ _))).
Qed.

(** Adding or subtracting a finite number never produces NaN from a
    number. *)
Lemma add_not_nan (x y : number) :
  JS.isNaN x = false -> JS.isFinite y = true -> JS.isNaN (JS.add x y) = false.
Proof.
  intros Hx Hy.
  destruct x as [sx|sx| |sx mx ex], y as [sy|sy| |sy my ey];
    try discriminate;
    try (simpl; try reflexivity; destruct sx, sy; reflexivity).
  exact (proj1 (binary_normalize_facts _ _ _)).
Qed.

Lemma sub_not_nan (x y : number) :
  JS.isNaN x = false -> JS.isFinite y = true -> JS.isNaN (JS.sub x y) = false.
Proof.
  intros Hx Hy.
  destruct x as [sx|sx| |sx mx ex], y as [sy|sy| |sy my ey];
    try discriminate;
    try (simpl; try reflexivity; destruct sx, sy; reflexivity).
  exact (proj1 (binary_normalize_facts _ _ _)).
Qed.

Lemma finiteBelow_mono (A B : Z) (x : number) :
  A <= B -> finiteBelow A x -> finiteBelow B x.
Proof. destruct x; unfold finiteBelow; intros; lia || tauto. Qed.

Lemma finiteBelow_isFinite (A : Z) (x : number) :
  finiteBelow A x -> JS.isFinite x = true.
Proof. destruct x; simpl; intros H; try reflexivity; contradiction. Qed.

Lemma finiteBelow_mantissaOk (A : Z) (x : number) :
  finiteBelow A x -> mantissaOk x.
Proof. destruct x; simpl; intros H; trivial. tauto. Qed.

Lemma shl_align_min (mx : positive) (ex ez : Z) :
  ez <= ex ->
  Zpos (fst (shl_align mx ex ez)) = Zpos mx * 2 ^ (ex - ez).
Proof.
  intros He. unfold shl_align. destruct (ez - ex) as [|d|d] eqn:E; cbn [fst].
  - replace (ex - ez) with 0 by lia. simpl. lia.
  - lia.
  - rewrite iter_xO. f_equal. f_equal. lia.
Qed.

Lemma aligned_bound (K : Z) (mx : positive) (ex ez : Z) :
  ez <= ex -> Zpos (digits2_pos mx) + ex <= K ->
  Zpos (fst (shl_align mx ex ez)) < 2 ^ (K - ez).
Proof.
  intros He Hd. rewrite shl_align_min by assumption.
  pose proof (digits2_pos_bound mx) as Hb.
  assert (0 < 2 ^ (ex - ez)) by (apply Z.pow_pos_nonneg; lia).
  replace (K - ez) with ((K - ex) + (ex - ez)) by lia.
  rewrite Z.pow_add_r by lia.
  apply Z.mul_lt_mono_pos_r; [assumption|].
  eapply Z.lt_le_trans; [exact Hb|]. apply Z.pow_le_mono_r; lia.
Qed.

(** The difference of two numbers below [2^K] is below [2^(K+2)]. *)
Lemma sub_finiteBelow (K : Z) (x y : number) :
  finiteBelow K x -> finiteBelow K y -> -1075 <= K -> K <= 970 ->
  finiteBelow (K + 2) (JS.sub x y).
Proof.
  intros Hx Hy Hlo Hhi.
  destruct x as [sx|sx| |sx mx ex], y as [sy|sy| |sy my ey];
    unfold finiteBelow in Hx, Hy; try contradiction.
  - destruct sx, sy; exact I.
  - unfold JS.sub, SFsub, finiteBelow. lia.
  - unfold JS.sub, SFsub, finiteBelow. lia.
  - destruct Hx as [Hmx Hdx], Hy as [Hmy Hdy].
    unfold JS.sub, SFsub. cbv zeta.
    set (ez := Z.min ex ey).
    pose proof (aligned_bound K mx ex ez ltac:(unfold ez; lia) Hdx) as Hax.
    pose proof (aligned_bound K my ey ez ltac:(unfold ez; lia) Hdy) as Hay.
    replace (K + 2) with (K + 1 + 1) by lia.
    apply (proj2 (proj2 (binary_normalize_facts _ _ _))); try (unfold ez; lia).
    replace (K + 1 - ez) with (Z.succ (K - ez)) by lia.
    rewrite Z.pow_succ_r by (unfold ez; lia).
    unfold cond_Zopp. destruct sx, sy; lia.
Qed.

(** ** Clamping and rounding to an integer *)

Lemma lt_le (a b : number) : JS.lt a b = true -> JS.le a b = true.
Proof.
  unfold JS.lt, JS.le, SFltb, SFleb.
  destruct (SFcompare a b) as [[ | | ]|]; congruence.
Qed.

Lemma clamp_nan : clamp JS.NaN = JS.NaN.
Proof. reflexivity. Qed.

Lemma n100_inZeroTo100 : inZeroTo100 n100.
Proof.
  right. exists 7036874417766400%positive, (-46).
  split; [reflexivity|]. split; [lia|]. vm_compute. reflexivity.
Qed.

(** Clamping a number gives [+0] or a positive number up to 100. *)
Lemma clamp_range (v : number) :
  mantissaOk v -> JS.isNaN v = false -> inZeroTo100 (clamp v).
Proof.
  intros Hm Hn. destruct v as [s|s| |s m e].
  - destruct s; left; reflexivity.
  - destruct s; [left; reflexivity|exact n100_inZeroTo100].
  - discriminate Hn.
  - unfold clamp, clamp3.
    change (JS.Math_min n100 (S754_finite s m e))
      with (if JS.lt (S754_finite s m e) n100 then S754_finite s m e else n100).
    destruct (JS.lt (S754_finite s m e) n100) eqn:Hlt.
    + destruct s.
      * left. reflexivity.
      * right. exists m, e. split; [reflexivity|]. split; [exact Hm|].
        apply lt_le. exact Hlt.
    + exact n100_inZeroTo100.
Qed.

Lemma le_finite_positive (m m' : positive) (e e' : Z) :
  JS.le (S754_finite false m e) (S754_finite false m' e') = true ->
  e < e' \/ (e = e' /\ (m <= m')%positive).
Proof.
  unfold JS.le, SFleb, SFcompare.
  destruct (Z.compare_spec e e') as [He|He|He].
  - pose proof (Pos.compare_spec m m') as Hc.
    unfold Pos.compare in Hc.
    destruct Hc as [Hc|Hc|Hc]; intros H.
    + right. split; [exact He|]. rewrite Hc. apply Pos.le_refl.
    + right. split; [exact He|]. apply Pos.lt_le_incl. exact Hc.
    + discriminate H.
  - intros _. left. exact He.
  - discriminate.
Qed.

Lemma le_n100 (m : positive) (e : Z) :
  JS.le (S754_finite false m e) n100 = true ->
  e < -46 \/ (e = -46 /\ Zpos m <= 7036874417766400).
Proof.
  intros H.
  destruct (le_finite_positive m 7036874417766400 e (-46) H) as [He|[He Hm]].
  - left. exact He.
  - right. split; [exact He|]. exact Hm.
Qed.

Lemma inZeroTo100_finiteBelow (x : number) : inZeroTo100 x -> finiteBelow 7 x.
Proof.
  intros [->|(m & e & -> & Hm & Hle)]; [exact I|].
  unfold finiteBelow. split; [exact Hm|].
  assert (Hd : Zdigits2 (Zpos m) <= 53) by (apply Zdigits2_le; lia).
  change (Zdigits2 (Zpos m)) with (Zpos (digits2_pos m)) in Hd.
  destruct (le_n100 m e Hle) as [He|[He Hv]]; lia.
Qed.

(** Rounding a number of that range gives an integer from 0 to 100. *)
Lemma round_range (x : number) :
  inZeroTo100 x -> isInteger0to100 (JS.Math_round x).
Proof.
  intros [->|(m & e & -> & Hm & Hle)].
  - exists 0. split; [lia|reflexivity].
  - apply le_n100 in Hle.
    assert (He : e < 0) by lia.
    unfold JS.Math_round. destruct (Z.leb_spec 0 e) as [|_]; [lia|].
    cbv zeta. unfold cond_Zopp.
    set (n := Z.shiftr (2 * Zpos m + Z.shiftl 1 (- e)) (1 - e)).
    assert (Hn : 0 <= n <= 100).
    { unfold n. rewrite Z.shiftr_div_pow2, Z.shiftl_mul_pow2 by lia.
      rewrite Z.mul_1_l.
      replace (1 - e) with (Z.succ (- e)) by lia.
      rewrite Z.pow_succ_r by lia.
      set (k := - e) in *.
      assert (Hk : 0 < 2 ^ k) by (apply Z.pow_pos_nonneg; lia).
      split; [apply Z.div_pos; lia|].
      apply Z.lt_succ_r. apply Z.div_lt_upper_bound; [lia|].
      destruct Hle as [Hlt|[Heq Hv]].
      - assert (2 ^ 47 <= 2 ^ k) by (apply Z.pow_le_mono_r; lia).
        change (2 ^ 47) with 140737488355328 in *.
        change (2 ^ 53) with 9007199254740992 in *. lia.
      - assert (Hk46 : k = 46) by lia. rewrite Hk46 in *.
        change (2 ^ 46) with 70368744177664 in *. lia. }
    destruct (Z.eqb_spec n 0) as [Hz|Hz].
    + exists 0. split; [lia|reflexivity].
    + exists n. split; [exact Hn|reflexivity].
Qed.

(** A clamped value rounds to NaN when the value is NaN, and to an
    integer from 0 to 100 otherwise. *)
Lemma round_clamp (v : number) :
  mantissaOk v ->
  (JS.isNaN v = true -> JS.Math_round (clamp v) = JS.NaN)
  /\ (JS.isNaN v = false -> isInteger0to100 (JS.Math_round (clamp v))).
Proof.
  intros Hm. split.
  - destruct v; try discriminate. reflexivity.
  - intros Hn. apply round_range, clamp_range; assumption.
Qed.

(** ** Rounding does not shrink a normal number *)

Lemma Zdigits2_lower (m j : Z) : 0 <= j -> 2 ^ j <= m -> j + 1 <= Zdigits2 m.
Proof.
  intros Hj Hle.
  assert (Hm : 0 <= m) by (pose proof (Z.pow_pos_nonneg 2 j); lia).
  pose proof (Zdigits2_bound m Hm) as Hb.
  pose proof (Zdigits2_nonneg m) as Hd.
  assert (Hlt : 2 ^ j < 2 ^ Zdigits2 m) by lia.
  apply Z.pow_lt_mono_r_iff in Hlt; lia.
Qed.

Lemma Zdigits2_mono (a b : Z) : 0 <= a <= b -> Zdigits2 a <= Zdigits2 b.
Proof.
  intros H. apply Zdigits2_le; [lia|apply Zdigits2_nonneg|].
  pose proof (Zdigits2_bound b ltac:(lia)). lia.
Qed.

Lemma Zdigits2_pos_lower (m : Z) : 0 < m -> 2 ^ (Zdigits2 m - 1) <= m.
Proof.
  destruct m as [|p|p]; try lia. intros _. apply digits2_pos_lower.
Qed.

Lemma shr_fexp_lower (m e : Z) (l : location) :
  0 < m -> -1021 <= Zdigits2 m + e ->
  let m' := shr_m (fst (shr_fexp JS.prec JS.emax m e l)) in
  let e' := snd (shr_fexp JS.prec JS.emax m e l) in
  0 < m' /\ Zdigits2 m + e <= Zdigits2 m' + e'.
Proof.
  intros Hm Hn. cbv zeta.
  destruct (shr_fexp_eq m e l ltac:(lia)) as [-> ->].
  set (d := Zdigits2 m) in *.
  set (sh := Z.max 0 (Z.max (d + e - 53) (-1074) - e)).
  pose proof (Zdigits2_pos_lower m Hm) as Hlow. fold d in Hlow.
  assert (Hd : 1 <= d) by (unfold d; destruct m; simpl; lia).
  assert (Hsh : 0 <= sh <= d - 1) by (unfold sh; lia).
  assert (Hpow : 0 < 2 ^ sh) by (apply Z.pow_pos_nonneg; lia).
  assert (Hq : 2 ^ (d - 1 - sh) <= m / 2 ^ sh).
  { apply Z.div_le_lower_bound; [exact Hpow|].
    rewrite <- Z.pow_add_r by lia.
    replace (sh + (d - 1 - sh)) with (d - 1) by lia. exact Hlow. }
  assert (0 < 2 ^ (d - 1 - sh)) by (apply Z.pow_pos_nonneg; lia).
  split; [lia|].
  pose proof (Zdigits2_lower (m / 2 ^ sh) (d - 1 - sh) ltac:(lia) Hq). lia.
Qed.

(** A positive quantity in the normal range rounds to a finite number at
    least as large in magnitude class, or to an infinity. *)
Lemma binary_round_aux_lower (sx : bool) (mx ex : Z) (lx : location) :
  0 < mx -> -1021 <= Zdigits2 mx + ex ->
  match binary_round_aux JS.prec JS.emax sx mx ex lx with
  | S754_finite _ m e => Zdigits2 mx + ex <= Zpos (digits2_pos m) + e
  | S754_infinity _ => True
  | _ => False
  end.
Proof.
  intros Hmx Hn. unfold binary_round_aux.
  pose proof (shr_fexp_lower mx ex lx Hmx Hn) as H1. cbv zeta in H1.
  destruct (shr_fexp JS.prec JS.emax mx ex lx) as [mrs' e'].
  cbn [fst snd] in H1. destruct H1 as [Hm0 Hd0].
  pose proof (round_nearest_even_bounds (shr_m mrs') (loc_of_shr_record mrs')) as Hr.
  set (m1 := round_nearest_even (shr_m mrs') (loc_of_shr_record mrs')) in *.
  pose proof (Zdigits2_mono (shr_m mrs') m1 ltac:(lia)) as Hmono.
  pose proof (shr_fexp_lower m1 e' loc_Exact ltac:(lia) ltac:(lia)) as H2.
  cbv zeta in H2.
  destruct (shr_fexp JS.prec JS.emax m1 e' loc_Exact) as [mrs'' e''].
  cbn [fst snd] in H2. destruct H2 as [Hm2 Hd2].
  destruct (shr_m mrs'') as [|m|m] eqn:Em; [lia| |lia].
  destruct (e'' <=? JS.emax - JS.prec); [|exact I].
  change (Zdigits2 (Zpos m)) with (Zpos (digits2_pos m)) in Hd2. lia.
Qed.

(** ** Integers as numbers *)

Lemma ofZ_not_nan (z : Z) : JS.isNaN (JS.ofZ z) = false.
Proof. exact (proj1 (binary_normalize_facts z 0 false)). Qed.

Lemma ofZ_int32 (z : Z) : - 2 ^ 31 <= z < 2 ^ 31 -> finiteBelow 33 (JS.ofZ z).
Proof.
  intros Hz.
  apply (proj2 (proj2 (binary_normalize_facts z 0 false)) 32); lia.
Qed.

(** A positive integer is a positive finite number of absolute value at
    least 1, or an infinity. *)
Lemma ofZ_positive (z : Z) :
  1 <= z ->
  match JS.ofZ z with
  | S754_finite s m e => s = false /\ 1 <= Zpos (digits2_pos m) + e
  | S754_infinity _ => True
  | _ => False
  end.
Proof.
  intros Hz. destruct z as [|p|p]; try lia.
  unfold JS.ofZ, binary_normalize, binary_round.
  pose proof (shl_align_spec p 0
                (fexp JS.prec JS.emax (Zpos (digits2_pos p) + 0))) as Hs.
  destruct (shl_align p 0 _) as [mz ez]. cbn [fst snd] in Hs.
  destruct Hs as [Hez Hmz].
  assert (Hdig : 1 <= Zdigits2 (Zpos mz) + ez).
  { assert (Hp : 2 ^ (0 - ez) <= Zpos mz).
    { rewrite Hmz. assert (0 < 2 ^ (0 - ez)) by (apply Z.pow_pos_nonneg; lia). nia. }
    pose proof (Zdigits2_lower (Zpos mz) (0 - ez) ltac:(lia) Hp). lia. }
  pose proof (binary_round_aux_lower false (Zpos mz) ez loc_Exact ltac:(lia) ltac:(lia))
    as Hlow.
  destruct (binary_round_aux_facts false (Zpos mz) ez loc_Exact ltac:(lia))
    as (Hsign & _).
  destruct (binary_round_aux JS.prec JS.emax false (Zpos mz) ez loc_Exact);
    try contradiction; try exact I.
  simpl in Hsign. split; [exact Hsign|lia].
Qed.

(** An integer that is not positive is not a positive number. *)
Lemma ofZ_nonpositive (z : Z) :
  z <= 0 -> JS.ofZ z = n0 \/ hasSign true (JS.ofZ z).
Proof.
  intros Hz. destruct z as [|p|p]; try lia.
  - left. reflexivity.
  - right. exact (proj1 (binary_round_facts true p 0)).
Qed.

(** * The range of the health score *)

Ltac const_below :=
  unfold finiteBelow; split; [reflexivity|intros H; discriminate H].

Lemma n100_below : finiteBelow 7 n100. Proof. const_below. Qed.
Lemma n70_below : finiteBelow 7 n70. Proof. const_below. Qed.
Lemma n20_below : finiteBelow 5 n20. Proof. const_below. Qed.
Lemma n10_below : finiteBelow 4 n10. Proof. const_below. Qed.
Lemma n0_6_below : finiteBelow 1 n0_6. Proof. const_below. Qed.
Lemma n0_2_below : finiteBelow 1 n0_2. Proof. const_below. Qed.
Lemma n0_45_below : finiteBelow 1 n0_45. Proof. const_below. Qed.
Lemma n0_25_below : finiteBelow 1 n0_25. Proof. const_below. Qed.
Lemma n0_1_below : finiteBelow 1 n0_1. Proof. const_below. Qed.

Lemma finiteBelow_not_nan (A : Z) (x : number) :
  finiteBelow A x -> JS.isNaN x = false.
Proof. destruct x; simpl; intros H; try reflexivity; contradiction. Qed.

(** The normalized score is [+0] or a positive number up to 100. *)
Lemma normalize_range (v : number) : mantissaOk v -> inZeroTo100 (normalize v).
Proof.
  intros Hm. unfold normalize, toPercent.
  destruct (JS.isNaN v) eqn:Hn; [left; reflexivity|].
  destruct (JS.le v n1_5).
  - apply clamp_range; [apply mul_mantissaOk|].
    eapply mul_not_nan; [exact Hn|reflexivity].
  - apply clamp_range; assumption.
Qed.

(** A count column floored at zero: [+0], or a positive number from 1 to
    below [2^33]. *)
Lemma max0_int32 (x : number) :
  isInt32 x ->
  JS.Math_max n0 x = n0
  \/ exists m e, JS.Math_max n0 x = S754_finite false m e
                 /\ Zpos m < 2 ^ 53
                 /\ 1 <= Zpos (digits2_pos m) + e <= 33.
Proof.
  intros (z & Hz & ->).
  pose proof (ofZ_int32 z Hz) as Hb.
  destruct (Z.le_gt_cases z 0) as [Hle|Hgt].
  - left. destruct (ofZ_nonpositive z Hle) as [->|Hs]; [reflexivity|].
    destruct (JS.ofZ z) as [s|s| |s m e]; simpl in Hs, Hb; try contradiction;
      subst s; reflexivity.
  - right. pose proof (ofZ_positive z ltac:(lia)) as Hp.
    destruct (JS.ofZ z) as [s|s| |s m e]; unfold finiteBelow in Hb;
      try contradiction.
    destruct Hp as [-> Hlow]. exists m, e.
    split; [reflexivity|]. split; lia.
Qed.

Lemma max0_int32_below (x : number) :
  isInt32 x -> finiteBelow 33 (JS.Math_max n0 x).
Proof.
  intros H. destruct (max0_int32 x H) as [->|(m & e & -> & Hm & Hd)].
  - exact I.
  - unfold finiteBelow. split; lia.
Qed.

(** A rate [count / tasksAssigned], or 0 without tasks: below [2^34]. *)
Lemma rate_below (assigned count : number) :
  isInt32 assigned -> isInt32 count ->
  finiteBelow 34
    (if JS.gt (JS.Math_max n0 assigned) n0
     then JS.div (JS.Math_max n0 count) (JS.Math_max n0 assigned)
     else n0).
Proof.
  intros Ha Hc. pose proof (max0_int32_below count Hc) as Hcb.
  destruct (max0_int32 assigned Ha) as [->|(m & e & -> & Hm & Hd)].
  - exact I.
  - change (JS.gt (S754_finite false m e) n0) with true. cbv iota.
    replace 34 with (33 - 1 + 2) by lia.
    eapply div_finiteBelow; [exact Hcb|reflexivity|lia|lia|lia].
Qed.

Section Sums.
Local Open Scope number_scope.

Lemma mul_below_finite (A B : Z) (x c : number) :
  finiteBelow A x -> finiteBelow B c -> (-1074 <= A + B)%Z -> (A + B <= 973)%Z ->
  JS.isFinite (x * c) = true.
Proof.
  intros Hx Hc Hlo Hhi.
  exact (finiteBelow_isFinite _ _ (mul_finiteBelow A B x c Hx Hc Hlo Hhi)).
Qed.

Lemma workload_sum (assigned meeting stretch : number) :
  JS.isNaN assigned = false -> finiteBelow 128 meeting -> finiteBelow 33 stretch ->
  let sum := (assigned / n40) * n70 + (meeting / n10) * n20 + (stretch / n5) * n10 in
  JS.isNaN sum = false /\ mantissaOk sum.
Proof.
  intros Ha Hm Hs. cbv zeta. split.
  - apply add_not_nan; [apply add_not_nan|].
    + eapply mul_not_nan; [|reflexivity]. eapply div_not_nan; [exact Ha|reflexivity].
    + eapply (mul_below_finite 129 5); [|exact n20_below|lia|lia].
      replace 129%Z with (128 - 1 + 2)%Z by lia.
      eapply div_finiteBelow; [exact Hm|reflexivity|simpl; lia|lia|lia].
    + eapply (mul_below_finite 34 4); [|exact n10_below|lia|lia].
      replace 34%Z with (33 - 1 + 2)%Z by lia.
      eapply div_finiteBelow; [exact Hs|reflexivity|simpl; lia|lia|lia].
  - apply add_mantissaOk; [apply add_mantissaOk|]; apply mul_mantissaOk.
Qed.

Lemma scaled_rate_finite (rate c : number) :
  finiteBelow 34 rate -> finiteBelow 1 c -> JS.isFinite (rate * n100 * c) = true.
Proof.
  intros Hr Hc. eapply (mul_below_finite 42 1); [|exact Hc|lia|lia].
  replace 42%Z with (34 + 7 + 1)%Z by lia.
  apply mul_finiteBelow; [exact Hr|exact n100_below|lia|lia].
Qed.

Lemma performance_sum (completion engagement collaboration miss : number) :
  JS.isNaN completion = false ->
  inZeroTo100 engagement -> inZeroTo100 collaboration -> finiteBelow 34 miss ->
  let sum := completion * n100 * n0_6 + engagement * n0_2 + collaboration * n0_2
             - miss * n100 * n0_2 in
  JS.isNaN sum = false /\ mantissaOk sum.
Proof.
  intros Hc He Hco Hm. cbv zeta.
  apply inZeroTo100_finiteBelow in He, Hco. split.
  - apply sub_not_nan; [apply add_not_nan; [apply add_not_nan|]|].
    + eapply mul_not_nan; [|reflexivity]. eapply mul_not_nan; [exact Hc|reflexivity].
    + apply (mul_below_finite 7 1); [exact He|exact n0_2_below|lia|lia].
    + apply (mul_below_finite 7 1); [exact Hco|exact n0_2_below|lia|lia].
    + apply scaled_rate_finite; [exact Hm|exact n0_2_below].
  - apply sub_mantissaOk; [|apply mul_mantissaOk].
    apply add_mantissaOk; [|apply mul_mantissaOk].
    apply add_mantissaOk; apply mul_mantissaOk.
Qed.

Lemma complement_finite (score c : number) :
  inZeroTo100 score -> finiteBelow 1 c -> JS.isFinite ((n100 - score) * c) = true.
Proof.
  intros Hs Hc. apply inZeroTo100_finiteBelow in Hs.
  apply (mul_below_finite 9 1); [|exact Hc|lia|lia].
  replace 9%Z with (7 + 2)%Z by lia.
  apply sub_finiteBelow; [exact n100_below|exact Hs|lia|lia].
Qed.

Lemma burnout_sum (workload engagement collaboration miss : number) :
  inZeroTo100 workload ->
  inZeroTo100 engagement -> inZeroTo100 collaboration -> finiteBelow 34 miss ->
  let sum := workload * n0_45 + miss * n100 * n0_25
             + (n100 - engagement) * n0_2 + (n100 - collaboration) * n0_1 in
  JS.isNaN sum = false /\ mantissaOk sum.
Proof.
  intros Hw He Hco Hm. cbv zeta. split.
  - apply add_not_nan; [apply add_not_nan; [apply add_not_nan|]|].
    + eapply mul_not_nan; [|reflexivity].
      exact (finiteBelow_not_nan _ _ (inZeroTo100_finiteBelow _ Hw)).
    + apply scaled_rate_finite; [exact Hm|exact n0_25_below].
    + apply complement_finite; [exact He|exact n0_2_below].
    + apply complement_finite; [exact Hco|exact n0_1_below].
  - apply add_mantissaOk; [|apply mul_mantissaOk].
    apply add_mantissaOk; [|apply mul_mantissaOk].
    apply add_mantissaOk; apply mul_mantissaOk.
Qed.

End Sums.

Lemma nan_not_integer : ~ isInteger0to100 JS.NaN.
Proof.
  intros (n & _ & H). pose proof (ofZ_not_nan n) as Hn.
  rewrite <- H in Hn. discriminate Hn.
Qed.

(** C2 as stated fails on a metric of finite fields: with the largest
    finite number of tasks and the most negative finite number of meeting
    hours the two terms of the workload overflow to opposite infinities,
    their sum is NaN, and so is the workload score. *)
Lemma health_score_nan_counterexample :
  finiteFields extremeMetric = true
  /\ (computeHealthScoreFromMetric extremeMetric).(ihs_workloadScore) = JS.NaN
  /\ ~ isInteger0to100 (computeHealthScoreFromMetric extremeMetric).(ihs_workloadScore).
Proof.
  assert (H : (computeHealthScoreFromMetric extremeMetric).(ihs_workloadScore) = JS.NaN)
    by (vm_compute; reflexivity).
  split; [vm_compute; reflexivity|]. split; [exact H|].
  rewrite H. exact nan_not_integer.
Qed.

(** Whatever the metric, the engagement score is an integer from 0 to
    100, and each of the other three scores is such an integer or NaN. *)
Lemma health_score_nan_or_bounded (metric : EmployeeWeeklyMetric) :
  mantissaOk metric.(engagementScore) -> mantissaOk metric.(collaborationScore) ->
  let score := computeHealthScoreFromMetric metric in
  isInteger0to100 score.(ihs_engagementScore)
  /\ (isInteger0to100 score.(ihs_burnoutRisk) \/ score.(ihs_burnoutRisk) = JS.NaN)
  /\ (isInteger0to100 score.(ihs_performanceScore)
      \/ score.(ihs_performanceScore) = JS.NaN)
  /\ (isInteger0to100 score.(ihs_workloadScore)
      \/ score.(ihs_workloadScore) = JS.NaN).
Proof.
  intros He Hc. cbv zeta. unfold computeHealthScoreFromMetric.
  cbn [ihs_engagementScore ihs_burnoutRisk ihs_performanceScore ihs_workloadScore].
  assert (Hround : forall v, mantissaOk v ->
            isInteger0to100 (JS.Math_round (clamp v))
            \/ JS.Math_round (clamp v) = JS.NaN).
  { intros v Hv. destruct (round_clamp v Hv) as [Hnan Hint].
    destruct (JS.isNaN v); [right|left]; auto. }
  split; [apply round_range, (normalize_range _ He)|].
  split; [|split]; apply Hround.
  - apply add_mantissaOk; [|apply mul_mantissaOk].
    apply add_mantissaOk; [|apply mul_mantissaOk].
    apply add_mantissaOk; apply mul_mantissaOk.
  - apply sub_mantissaOk; [|apply mul_mantissaOk].
    apply add_mantissaOk; [|apply mul_mantissaOk].
    apply add_mantissaOk; apply mul_mantissaOk.
  - apply add_mantissaOk; [apply add_mantissaOk|]; apply mul_mantissaOk.
Qed.

(** C2, amended: for every metric row as the schema stores it (32-bit
    integers in the integer columns, finite values below [2^128] in
    absolute value in the real columns), each of the four scores is an
    integer from 0 to 100. *)
Theorem health_score_bounded (metric : EmployeeWeeklyMetric) :
  storedRow metric ->
  let score := computeHealthScoreFromMetric metric in
  isInteger0to100 score.(ihs_burnoutRisk)
  /\ isInteger0to100 score.(ihs_engagementScore)
  /\ isInteger0to100 score.(ihs_performanceScore)
  /\ isInteger0to100 score.(ihs_workloadScore).
Proof.
  intros (Hta & Htc & Hmd & Hsa & Hmh & Hco & Hen & _). cbv zeta.
  unfold computeHealthScoreFromMetric.
  cbn [ihs_engagementScore ihs_burnoutRisk ihs_performanceScore ihs_workloadScore].
  pose proof (normalize_range _ (finiteBelow_mantissaOk _ _ Hen)) as Heng.
  pose proof (normalize_range _ (finiteBelow_mantissaOk _ _ Hco)) as Hcol.
  unfold normalize in Heng, Hcol.
  pose proof (rate_below _ _ Hta Htc) as Hcompletion.
  pose proof (rate_below _ _ Hta Hmd) as Hmiss.
  assert (Hstretch : finiteBelow 33 metric.(stretchAssignments)).
  { destruct Hsa as (z & Hz & ->). apply ofZ_int32. exact Hz. }
  destruct (workload_sum _ _ _
              (finiteBelow_not_nan _ _ (max0_int32_below _ Hta)) Hmh Hstretch)
    as [Hwn Hwm].
  pose proof (clamp_range _ Hwm Hwn) as Hworkload.
  destruct (performance_sum _ _ _ _
              (finiteBelow_not_nan _ _ Hcompletion) Heng Hcol Hmiss)
    as [Hpn Hpm].
  destruct (burnout_sum _ _ _ _ Hworkload Heng Hcol Hmiss) as [Hbn Hbm].
  split; [apply round_range, clamp_range; assumption|].
  split; [apply round_range; exact Heng|].
  split; [apply round_range, clamp_range; assumption|].
  apply round_range. exact Hworkload.
Qed.

(** [health_score_bounded] on the scenario metric. *)
Lemma health_score_bounded_witness :
  let score := computeHealthScoreFromMetric (scenarioMetric 1 1 0 None) in
  isInteger0to100 score.(ihs_burnoutRisk)
  /\ isInteger0to100 score.(ihs_engagementScore)
  /\ isInteger0to100 score.(ihs_performanceScore)
  /\ isInteger0to100 score.(ihs_workloadScore).
Proof.
  apply (health_score_bounded (scenarioMetric 1 1 0 None)).
  unfold storedRow, scenarioMetric, isInt32, isReal4.
  cbn [tasksAssigned tasksCompleted missedDeadlines stretchAssignments
       meetingHours collaborationScore engagementScore learningHours].
  split; [exists 20; split; [lia|reflexivity]|].
  split; [exists 18; split; [lia|reflexivity]|].
  split; [exists 1; split; [lia|reflexivity]|].
  split; [exists 1; split; [lia|reflexivity]|].
  split; [split; [reflexivity|intros H; discriminate H]|].
  split; [split; [reflexivity|intros H; discriminate H]|].
  split; split; [reflexivity|intros H; discriminate H|reflexivity|intros H; discriminate H].
Defined.

(** * More on the health score *)

(** X1: the normalizer never returns NaN and its result lies between 0
    and 100, whatever number it is given. *)
Theorem normalize_bounded (v : number) :
  JS.isNaN (normalize v) = false
  /\ JS.le n0 (normalize v) = true
  /\ JS.le (normalize v) n100 = true.
Proof.
  assert (Hclamp : forall x, JS.isNaN x = false ->
            JS.isNaN (clamp x) = false
            /\ JS.le n0 (clamp x) = true /\ JS.le (clamp x) n100 = true).
  { intros x Hx. destruct x as [s|s| |s m e].
    - destruct s; (split; [reflexivity|split; reflexivity]).
    - destruct s; (split; [reflexivity|split; reflexivity]).
    - discriminate Hx.
    - unfold clamp, clamp3.
      change (JS.Math_min n100 (S754_finite s m e))
        with (if JS.lt (S754_finite s m e) n100 then S754_finite s m e else n100).
      destruct (JS.lt (S754_finite s m e) n100) eqn:Hlt.
      + destruct s.
        * split; [reflexivity|split; reflexivity].
        * split; [reflexivity|]. split; [reflexivity|]. apply lt_le. exact Hlt.
      + split; [reflexivity|split; reflexivity]. }
  unfold normalize, toPercent.
  destruct (JS.isNaN v) eqn:Hn.
  - split; [reflexivity|split; reflexivity].
  - destruct (JS.le v n1_5).
    + apply Hclamp. eapply mul_not_nan; [exact Hn|reflexivity].
    + apply Hclamp. exact Hn.
Qed.

Lemma max0_negative (x : number) : JS.lt x n0 = true -> JS.Math_max n0 x = n0.
Proof.
  destruct x as [s|s| |s m e]; simpl; intros H; try discriminate H.
  - destruct s; [reflexivity|discriminate H].
  - destruct s; [reflexivity|discriminate H].
Qed.

Lemma max0_floorAtZero (x : number) :
  JS.Math_max n0 (floorAtZero x) = JS.Math_max n0 x.
Proof.
  unfold floorAtZero. destruct (JS.lt x n0) eqn:H; [|reflexivity].
  rewrite (max0_negative x H). reflexivity.
Qed.

(** X2: negative counts are floored at zero before use: a metric and the
    same metric with its negative [tasksAssigned], [tasksCompleted] and
    [missedDeadlines] replaced by 0 have the same health score. *)
Theorem negative_counts_floored (metric : EmployeeWeeklyMetric) :
  computeHealthScoreFromMetric (flooredCounts metric)
  = computeHealthScoreFromMetric metric.
Proof.
  unfold computeHealthScoreFromMetric, flooredCounts.
  cbn [wm_employeeId weekStart tasksAssigned tasksCompleted missedDeadlines
       meetingHours collaborationScore engagementScore stretchAssignments].
  rewrite !max0_floorAtZero. reflexivity.
Qed.

Lemma sameNumber_eq (x y : number) : sameNumber x y = true -> x = y.
Proof.
  destruct x as [s|s| |s m e], y as [s'|s'| |s' m' e']; simpl; intros H;
    try discriminate H; try reflexivity.
  - apply Bool.eqb_prop in H. congruence.
  - apply Bool.eqb_prop in H. congruence.
  - apply andb_true_iff in H. destruct H as [H He].
    apply andb_true_iff in H. destruct H as [Hs Hm].
    apply Bool.eqb_prop in Hs. apply Pos.eqb_eq in Hm. apply Z.eqb_eq in He.
    congruence.
Qed.

Lemma zrange_In (lo : Z) (len : nat) (p : Z) :
  lo <= p < lo + Z.of_nat len -> In p (zrange lo len).
Proof.
  intros H. unfold zrange. apply in_map_iff.
  exists (Z.to_nat (p - lo)). split; [lia|]. apply in_seq. lia.
Qed.

(** X3: an engagement score of 2 to 100 percent comes out the same whether
    the metric carries it as the percentage [p] or as the fraction
    [p / 100]: the health score reports [p]. *)
Theorem engagement_scale_agrees (metric : EmployeeWeeklyMetric) (p : Z) :
  2 <= p <= 100 ->
  metric.(engagementScore) = JS.ofZ p
  \/ metric.(engagementScore) = JS.div (JS.ofZ p) n100 ->
  (computeHealthScoreFromMetric metric).(ihs_engagementScore) = JS.ofZ p.
Proof.
  intros Hp Hscore.
  assert (Hall : forallb scaleAgrees (zrange 2 99) = true) by (vm_compute; reflexivity).
  rewrite forallb_forall in Hall.
  specialize (Hall p (zrange_In 2 99 p ltac:(lia))).
  unfold scaleAgrees in Hall. apply andb_true_iff in Hall.
  destruct Hall as [H1 H2]. apply sameNumber_eq in H1, H2.
  unfold computeHealthScoreFromMetric. cbn [ihs_engagementScore].
  fold (normalize metric.(engagementScore)).
  destruct Hscore as [-> | ->]; assumption.
Qed.

(** [engagement_scale_agrees] at 75 percent given as 0.75. *)
Lemma engagement_scale_agrees_witness :
  (computeHealthScoreFromMetric (scenarioMetric 1 1 0 None)).(ihs_engagementScore)
  = JS.ofZ 75.
Proof.
  apply (engagement_scale_agrees (scenarioMetric 1 1 0 None) 75).
  - lia.
  - right. vm_compute. reflexivity.
Defined.

(** * The derived stretch assignments *)

(** An integer of at least 4 is a positive number of absolute value at
    least 4, or positive infinity. *)
Lemma ofZ_large (z : Z) :
  4 <= z ->
  match JS.ofZ z with
  | S754_finite s m e => s = false /\ 3 <= Zpos (digits2_pos m) + e /\ Zpos m < 2 ^ 53
  | S754_infinity s => s = false
  | _ => False
  end.
Proof.
  intros Hz. destruct z as [|p|p]; try lia.
  unfold JS.ofZ, binary_normalize, binary_round.
  pose proof (shl_align_spec p 0
                (fexp JS.prec JS.emax (Zpos (digits2_pos p) + 0))) as Hs.
  destruct (shl_align p 0 _) as [mz ez]. cbn [fst snd] in Hs.
  destruct Hs as [Hez Hmz].
  assert (Hdig : 3 <= Zdigits2 (Zpos mz) + ez).
  { assert (Hp : 2 ^ (2 - ez) <= Zpos mz).
    { rewrite Hmz. replace (2 - ez) with (2 + (0 - ez)) by lia.
      rewrite Z.pow_add_r by lia. change (2 ^ 2) with 4.
      assert (0 < 2 ^ (0 - ez)) by (apply Z.pow_pos_nonneg; lia). nia. }
    pose proof (Zdigits2_lower (Zpos mz) (2 - ez) ltac:(lia) Hp). lia. }
  pose proof (binary_round_aux_lower false (Zpos mz) ez loc_Exact ltac:(lia) ltac:(lia))
    as Hlow.
  destruct (binary_round_aux_facts false (Zpos mz) ez loc_Exact ltac:(lia))
    as (Hsign & Hmant & _).
  destruct (binary_round_aux JS.prec JS.emax false (Zpos mz) ez loc_Exact);
    try contradiction.
  - exact Hsign.
  - unfold hasSign, mantissaOk in *. split; [exact Hsign|]. split; [lia|exact Hmant].
Qed.

Lemma lt_finite_exponent (m m' : positive) (e e' : Z) :
  e' < e -> JS.lt (S754_finite false m e) (S754_finite false m' e') = false.
Proof.
  intros H. unfold JS.lt, SFltb, SFcompare.
  destruct (Z.compare_spec e e'); try lia; reflexivity.
Qed.

Section Stretch.

(** [Math.max(0, Math.min(3, raw))]. *)
Let clamp03 (raw : number) : number := JS.Math_max n0 (JS.Math_min n3 raw).

Lemma clamp03_negative (raw : number) : hasSign true raw -> clamp03 raw = n0.
Proof.
  destruct raw as [s|s| |s m e]; simpl; intros H; try contradiction; subst s;
    reflexivity.
Qed.

Lemma clamp03_zero (s : bool) : clamp03 (S754_zero s) = n0.
Proof. destruct s; reflexivity. Qed.

Lemma clamp03_large (m : positive) (e : Z) :
  -50 <= e -> clamp03 (S754_finite false m e) = n3.
Proof.
  intros He. unfold clamp03.
  change (JS.Math_min n3 (S754_finite false m e))
    with (if JS.lt (S754_finite false m e) n3 then S754_finite false m e else n3).
  unfold n3 at 1. rewrite lt_finite_exponent by lia. reflexivity.
Qed.

Lemma clamp03_ofZ (n : Z) :
  clamp03 (JS.ofZ n) = n0 \/ clamp03 (JS.ofZ n) = n1
  \/ clamp03 (JS.ofZ n) = n2 \/ clamp03 (JS.ofZ n) = n3.
Proof.
  destruct (Z.le_gt_cases n 0) as [Hle|Hgt].
  - left. destruct (ofZ_nonpositive n Hle) as [->|Hs]; [reflexivity|].
    apply clamp03_negative. exact Hs.
  - destruct (Z.le_gt_cases 4 n) as [H4|H4].
    + right. right. right. pose proof (ofZ_large n H4) as Hl.
      destruct (JS.ofZ n) as [s|s| |s m e]; try contradiction.
      * subst s. reflexivity.
      * destruct Hl as (-> & Hmag & Hm).
        assert (Hd : Zdigits2 (Zpos m) <= 53) by (apply Zdigits2_le; lia).
        change (Zdigits2 (Zpos m)) with (Zpos (digits2_pos m)) in Hd.
        apply clamp03_large. lia.
    + assert (Hn : n = 1 \/ n = 2 \/ n = 3) by lia.
      destruct Hn as [->|[->| ->]]; [right; left|right; right; left|right; right; right];
        reflexivity.
Qed.

Lemma clamp03_round (y : number) :
  JS.isNaN y = false ->
  let r := clamp03 (JS.Math_round y) in
  r = n0 \/ r = n1 \/ r = n2 \/ r = n3.
Proof.
  intros Hy. cbv zeta. destruct y as [s|s| |s m e].
  - left. apply clamp03_zero.
  - destruct s; [left|right; right; right]; reflexivity.
  - discriminate Hy.
  - unfold JS.Math_round. destruct (Z.leb_spec 0 e) as [He|He].
    + destruct s.
      * left. apply clamp03_negative. reflexivity.
      * right. right. right. apply clamp03_large. lia.
    + cbv zeta.
      destruct (Z.shiftr (2 * cond_Zopp s (Zpos m) + Z.shiftl 1 (- e)) (1 - e) =? 0).
      * left. apply clamp03_zero.
      * apply clamp03_ofZ.
Qed.

(** X4: the derived stretch assignments are 0, 1, 2 or 3 for every task
    count that is a number, and NaN for NaN. *)
Theorem stretch_assignments_range (tasksAssigned : number) :
  (JS.isNaN tasksAssigned = true
   /\ computeStretchAssignments tasksAssigned = JS.NaN)
  \/ (JS.isNaN tasksAssigned = false
      /\ (computeStretchAssignments tasksAssigned = n0
          \/ computeStretchAssignments tasksAssigned = n1
          \/ computeStretchAssignments tasksAssigned = n2
          \/ computeStretchAssignments tasksAssigned = n3)).
Proof.
  destruct (JS.isNaN tasksAssigned) eqn:Hn.
  - left. split; [reflexivity|]. destruct tasksAssigned; try discriminate Hn.
    reflexivity.
  - right. split; [reflexivity|].
    unfold computeStretchAssignments. cbv zeta.
    apply clamp03_round.
    eapply div_not_nan; [|reflexivity].
    apply sub_not_nan; [exact Hn|reflexivity].
Qed.

End Stretch.

(** The thresholds of the derived value: 17 tasks give 0, 18 give 1, 23
    give 2 and 28 give 3 (ties of the rounding go up). *)
Example stretch_assignments_thresholds :
  map computeStretchAssignments (map JS.ofZ [0; 17; 18; 22; 23; 27; 28; 1000])
  = [n0; n0; n1; n1; n2; n2; n3; n3].
Proof. vm_compute. reflexivity. Qed.

(** * Reading predictions *)

Lemma descNullable_total {A : Type} (key : A -> option Z) (x y : A) :
  descNullable key x y = true \/ descNullable key y x = true.
Proof.
  unfold descNullable. destruct (key x) as [a|], (key y) as [b|]; auto.
  destruct (Z.leb_spec b a); [left; reflexivity|right; apply Z.leb_le; lia].
Qed.

Lemma descNullable_trans {A : Type} (key : A -> option Z) (x y z : A) :
  descNullable key x y = true -> descNullable key y z = true ->
  descNullable key x z = true.
Proof.
  unfold descNullable.
  destruct (key x) as [a|], (key y) as [b|], (key z) as [c|];
    try congruence; rewrite ?Z.leb_le; lia.
Qed.

Lemma descNullable_refl {A : Type} (key : A -> option Z) (x : A) :
  descNullable key x x = true.
Proof. destruct (descNullable_total key x x); assumption. Qed.

Lemma sorted_predictions (rows : list EmployeeMlPrediction) :
  StronglySorted notOlder (orderBy (descNullable mp_createdAt) rows).
Proof.
  apply (orderBy_sorted (descNullable mp_createdAt));
    [apply descNullable_total|apply descNullable_trans].
Qed.

Lemma latest_prediction_facts (db : Database) (employeeId : Z) :
  (getLatestMlPrediction db employeeId = None
   <-> mlPredictionsOf db employeeId = [])
  /\ (mlPredictionsGet db employeeId = Message 404 "Prediction not found"
      <-> mlPredictionsOf db employeeId = [])
  /\ forall p, getLatestMlPrediction db employeeId = Some p ->
       mlPredictionsGet db employeeId = Body 200 p
       /\ In p db.(employeeMlPredictions)
       /\ mp_employeeId p = employeeId
       /\ forall q, In q (mlPredictionsOf db employeeId) -> notOlder p q.
Proof.
  unfold mlPredictionsGet, getLatestMlPrediction.
  fold (mlPredictionsOf db employeeId).
  pose proof (orderBy_perm (descNullable mp_createdAt) (mlPredictionsOf db employeeId))
    as Hperm.
  pose proof (sorted_predictions (mlPredictionsOf db employeeId)) as Hsorted.
  destruct (orderBy (descNullable mp_createdAt) (mlPredictionsOf db employeeId))
    as [|p rest] eqn:E; cbn [hd_error].
  - apply Permutation_nil in Hperm.
    split; [tauto|]. split; [tauto|]. intros p H. discriminate H.
  - assert (Hne : mlPredictionsOf db employeeId <> []).
    { intros Hnil. rewrite Hnil in Hperm.
      apply Permutation_sym, Permutation_nil in Hperm. discriminate Hperm. }
    split; [split; [discriminate|contradiction]|].
    split; [split; [discriminate|contradiction]|].
    intros p' Hp. injection Hp as <-.
    assert (Hin : In p (mlPredictionsOf db employeeId))
      by (eapply Permutation_in; [exact Hperm|left; reflexivity]).
    unfold mlPredictionsOf in Hin. apply filter_In in Hin.
    destruct Hin as [Hin Hid]. apply Z.eqb_eq in Hid.
    split; [reflexivity|]. split; [exact Hin|]. split; [exact Hid|].
    intros q Hq.
    apply (Permutation_in _ (Permutation_sym Hperm)) in Hq.
    destruct Hq as [<-|Hq]; [apply descNullable_refl|].
    inversion Hsorted as [|? ? _ Hall]; subst.
    rewrite Forall_forall in Hall. exact (Hall q Hq).
Qed.


Lemma latestByEmployee_has (acc : list EmployeeMlPrediction) (k : Z) :
  existsb (fun p => mp_employeeId p =? k) acc = true
  <-> In k (map mp_employeeId acc).
Proof.
  rewrite existsb_exists, in_map_iff. split.
  - intros (p & Hp & Heq). apply Z.eqb_eq in Heq. exists p. auto.
  - intros (p & Heq & Hp). exists p. split; [exact Hp|apply Z.eqb_eq; exact Heq].
Qed.

(** What the map of first occurrences holds after a pass over [l]. *)
Lemma latestByEmployee_fold (l acc : list EmployeeMlPrediction) :
  let out := fold_left latestByEmployeeStep l acc in
  (NoDup (map mp_employeeId acc) -> NoDup (map mp_employeeId out))
  /\ (forall x, In x acc -> In x out)
  /\ (forall x, In x l -> In (mp_employeeId x) (map mp_employeeId out))
  /\ (forall x, In x out ->
        In x acc
        \/ (~ In (mp_employeeId x) (map mp_employeeId acc)
            /\ exists l1 l2, l = l1 ++ x :: l2
                             /\ ~ In (mp_employeeId x) (map mp_employeeId l1))).
Proof.
  revert acc. induction l as [|a l IH]; intros acc; cbv zeta; simpl.
  - split; [auto|]. split; [auto|]. split; [intros x []|auto].
  - destruct (IH (latestByEmployeeStep acc a)) as (Hnd & Hkeep & Hcover & Hfirst).
    cbv zeta in Hnd, Hkeep, Hcover, Hfirst.
    assert (Hstep : forall x, In x acc -> In x (latestByEmployeeStep acc a)).
    { intros x Hx. unfold latestByEmployeeStep.
      destruct (existsb _ acc); [exact Hx|apply in_or_app; left; exact Hx]. }
    assert (Hkey : In (mp_employeeId a)
                     (map mp_employeeId (latestByEmployeeStep acc a))).
    { unfold latestByEmployeeStep.
      destruct (existsb (fun p => mp_employeeId p =? mp_employeeId a) acc) eqn:Ex.
      - apply latestByEmployee_has. exact Ex.
      - rewrite map_app. apply in_or_app. right. left. reflexivity. }
    split; [|split; [|split]].
    + intros Hacc. apply Hnd. unfold latestByEmployeeStep.
      destruct (existsb (fun p => mp_employeeId p =? mp_employeeId a) acc) eqn:Ex;
        [exact Hacc|].
      rewrite map_app. simpl.
      apply NoDup_app; [exact Hacc|repeat constructor; intros []|].
      intros k Hk [<-|[]]. apply latestByEmployee_has in Hk. congruence.
    + intros x Hx. apply Hkeep, Hstep, Hx.
    + intros x [<-|Hx]; [|apply Hcover, Hx].
      apply in_map_iff in Hkey. destruct Hkey as (p & Heq & Hp).
      rewrite <- Heq. apply in_map, Hkeep, Hp.
    + intros x Hx. destruct (Hfirst x Hx) as [Hin|(Hnew & l1 & l2 & -> & Hnot)].
      * unfold latestByEmployeeStep in Hin.
        destruct (existsb (fun p => mp_employeeId p =? mp_employeeId a) acc) eqn:Ex;
          [left; exact Hin|].
        apply in_app_or in Hin. destruct Hin as [Hin|[<-|[]]]; [left; exact Hin|].
        right. split.
        -- intros Hk. apply latestByEmployee_has in Hk. congruence.
        -- exists [], l. split; [reflexivity|intros []].
      * right. split.
        -- intros Hk. apply Hnew. apply in_map_iff in Hk.
           destruct Hk as (p & Heq & Hp). rewrite <- Heq. apply in_map, Hstep, Hp.
        -- exists (a :: l1), l2. split; [reflexivity|].
           simpl. intros [H|H]; [|exact (Hnot H)].
           apply Hnew. rewrite <- H. exact Hkey.
Qed.

(** X6: the list of latest predictions has one entry for each employee
    with a stored prediction and no other entry; the entry is a stored
    prediction of that employee before which none of the employee's
    predictions sorts by creation time; and it carries the name of the
    employee, or "Employee" when the employees table has no such id. *)
Theorem latest_predictions_spec (db : Database) :
  let latest := getLatestMlPredictions db in
  NoDup (map (fun entry => mp_employeeId entry.(np_prediction)) latest)
  /\ (forall q, In q db.(employeeMlPredictions) ->
        exists entry, In entry latest
                      /\ mp_employeeId entry.(np_prediction) = mp_employeeId q)
  /\ forall entry, In entry latest ->
       In entry.(np_prediction) db.(employeeMlPredictions)
       /\ (forall q, In q db.(employeeMlPredictions) ->
             mp_employeeId q = mp_employeeId entry.(np_prediction) ->
             notOlder entry.(np_prediction) q)
       /\ entry.(np_employeeName)
          = orElse (employeeMapGet db.(employees)
                      (mp_employeeId entry.(np_prediction))) "Employee"%string.
Proof.
  cbv zeta. unfold getLatestMlPredictions.
  pose proof (orderBy_perm (descNullable mp_createdAt) db.(employeeMlPredictions))
    as Hperm.
  pose proof (sorted_predictions db.(employeeMlPredictions)) as Hsorted.
  set (predictions := orderBy (descNullable mp_createdAt) db.(employeeMlPredictions)) in *.
  destruct (latestByEmployee_fold predictions []) as (Hnd & _ & Hcover & Hfirst).
  cbv zeta in Hnd, Hcover, Hfirst.
  set (latest := fold_left latestByEmployeeStep predictions []) in *.
  split; [|split].
  - rewrite map_map. simpl. apply Hnd. constructor.
  - intros q Hq. apply (Permutation_in _ (Permutation_sym Hperm)) in Hq.
    specialize (Hcover q Hq). apply in_map_iff in Hcover.
    destruct Hcover as (p & Heq & Hp).
    eexists. split; [apply in_map; exact Hp|]. exact Heq.
  - intros entry Hentry. apply in_map_iff in Hentry.
    destruct Hentry as (p & <- & Hp). cbn [np_prediction np_employeeName].
    destruct (Hfirst p Hp) as [[]|(_ & l1 & l2 & Hsplit & Hnot)].
    split; [|split; [|reflexivity]].
    + apply (Permutation_in _ Hperm). rewrite Hsplit.
      apply in_or_app. right. left. reflexivity.
    + intros q Hq Hkey.
      apply (Permutation_in _ (Permutation_sym Hperm)) in Hq.
      rewrite Hsplit in Hq, Hsorted.
      apply StronglySorted_app_inv in Hsorted. destruct Hsorted as (_ & Hs2 & _).
      apply in_app_or in Hq. destruct Hq as [Hq|[<-|Hq]].
      * exfalso. apply Hnot. rewrite <- Hkey. apply in_map. exact Hq.
      * apply descNullable_refl.
      * inversion Hs2 as [|? ? _ Hall]; subst.
        rewrite Forall_forall in Hall. exact (Hall q Hq).
Qed.

(** The demo table: employee 1 is listed with its newer prediction and its
    name, employee 3 with the default name, newest first. *)
Example latest_predictions_demo :
  map (fun entry => (mp_id entry.(np_prediction), entry.(np_employeeName)))
    (getLatestMlPredictions demoPredictionDatabase)
  = [(2, "Alice Chen"%string); (3, "Employee"%string)].
Proof. vm_compute. reflexivity. Qed.

(** * Storing predictions *)

Lemma insertedMlPredictions_facts (predictions : list InsertEmployeeMlPrediction)
  (seq dbNow : Z) :
  let rows := insertedMlPredictions seq dbNow predictions in
  map mp_data rows = predictions
  /\ List.length rows = List.length predictions
  /\ Forall (fun row => row.(mp_createdAt) = Some dbNow) rows
  /\ Forall (fun row => seq <= row.(mp_id) < seq + Z.of_nat (List.length predictions)) rows
  /\ NoDup (map mp_id rows).
Proof.
  revert seq. induction predictions as [|p rest IH]; intros seq; cbv zeta.
  - simpl. repeat split; constructor.
  - destruct (IH (seq + 1)) as (Hdata & Hlen & Hcreated & Hids & Hnd).
    cbv zeta in Hdata, Hlen, Hcreated, Hids, Hnd.
    cbn [insertedMlPredictions map List.length].
    split; [rewrite Hdata; reflexivity|].
    split; [rewrite Hlen; reflexivity|].
    split; [constructor; [reflexivity|exact Hcreated]|].
    split.
    + constructor; [cbn [mp_id]; lia|].
      eapply Forall_impl; [|exact Hids]. intros row Hrow. cbv beta in Hrow. lia.
    + constructor; [|exact Hnd]. cbn [mp_id]. intros Hin.
      apply in_map_iff in Hin. destruct Hin as (row & Hid & Hrow).
      rewrite Forall_forall in Hids. specialize (Hids row Hrow). lia.
Qed.

Lemma createMlPredictions_facts (db : Database) (dbNow : timestamp)
  (predictions : list InsertEmployeeMlPrediction) :
  let rows := fst (createMlPredictions db dbNow predictions) in
  let db' := snd (createMlPredictions db dbNow predictions) in
  db'.(employeeMlPredictions) = db.(employeeMlPredictions) ++ rows
  /\ map mp_data rows = predictions
  /\ Forall (fun row => row.(mp_createdAt) = Some dbNow) rows
  /\ db'.(employees) = db.(employees)
  /\ db'.(healthScores) = db.(healthScores)
  /\ db'.(healthScores_id_seq) = db.(healthScores_id_seq)
  /\ db'.(employeeWeeklyMetrics) = db.(employeeWeeklyMetrics)
  /\ (predictions = [] -> db' = db)
  /\ (predictionsKeyed db -> predictionsKeyed db').
Proof.
  cbv zeta. unfold createMlPredictions.
  destruct predictions as [|p rest].
  - simpl. rewrite app_nil_r.
    split; [reflexivity|]. split; [reflexivity|]. split; [constructor|].
    split; [reflexivity|]. split; [reflexivity|]. split; [reflexivity|].
    split; [reflexivity|]. split; [reflexivity|]. intros H. exact H.
  - change (List.length (p :: rest) =? 0)%nat with false. cbv iota.
    cbn [fst snd employeeMlPredictions employees healthScores healthScores_id_seq
         employeeWeeklyMetrics employeeMlPredictions_id_seq set_mlPredictions].
    destruct (insertedMlPredictions_facts (p :: rest)
                db.(employeeMlPredictions_id_seq) dbNow)
      as (Hdata & Hlen & Hcreated & Hids & Hnd).
    cbv zeta in Hdata, Hlen, Hcreated, Hids, Hnd.
    split; [reflexivity|]. split; [exact Hdata|]. split; [exact Hcreated|].
    split; [reflexivity|]. split; [reflexivity|]. split; [reflexivity|].
    split; [reflexivity|]. split; [discriminate|].
    unfold predictionsKeyed.
    cbn [employeeMlPredictions employeeMlPredictions_id_seq set_mlPredictions].
    intros [Hold Hseq]. split.
    + rewrite map_app. apply NoDup_app; [exact Hold|exact Hnd|].
      intros k Hk1 Hk2. apply in_map_iff in Hk1, Hk2.
      destruct Hk1 as (r1 & <- & Hr1), Hk2 as (r2 & Heq & Hr2).
      rewrite Forall_forall in Hseq, Hids.
      specialize (Hseq r1 Hr1). specialize (Hids r2 Hr2). cbv beta in Hids. lia.
    + rewrite Hlen. apply Forall_app. split.
      * eapply Forall_impl; [|exact Hseq]. intros row Hrow. cbv beta in Hrow. lia.
      * eapply Forall_impl; [|exact Hids]. intros row Hrow. cbv beta in Hrow. lia.
Qed.



(** The three ends of a batch run, in full. *)
Lemma runMlBatch_detail (env : Env) (db : Database) (batch : list Payload) :
  let toPredict := filter (fun p => negb (isCached env db p)) batch in
  let cached := List.length (filter (isCached env db) batch) in
  let reply := env.(fetchPredictBatch) toPredict in
  let stored :=
    createMlPredictions db env.(dbNow)
      (map toPrediction (orElse reply.(resp_results) [])) in
  runMlBatch env db batch
  = match toPredict with
    | [] => done (BatchOk 0 0 cached) db
    | _ :: _ =>
        if reply.(resp_ok) then
          {| value := BatchOk (List.length (orElse reply.(resp_results) []))
                        (List.length (fst stored)) cached;
             database := snd stored; posted := [toPredict] |}
        else
          {| value := BatchFailed reply.(resp_text);
             database := db; posted := [toPredict] |}
    end.
Proof.
  cbv zeta. unfold runMlBatch.
  pose proof (cacheGate_toPredict env db batch) as Hp.
  pose proof (cacheGate_cached env db batch) as Hc.
  destruct (cacheGate env db batch) as [recentlyCached toPredict].
  simpl in Hp, Hc. subst toPredict. rewrite Hc.
  destruct (filter (fun p => negb (isCached env db p)) batch) as [|p tp] eqn:E.
  - reflexivity.
  - cbn [List.length Nat.eqb].
    destruct (resp_ok (fetchPredictBatch env (p :: tp))); simpl.
    + destruct (createMlPredictions db (dbNow env) _) as [saved db'].
      rewrite length_map. reflexivity.
    + reflexivity.
Qed.

Lemma filter_partition_length {A : Type} (f : A -> bool) (l : list A) :
  (List.length (filter f l) + List.length (filter (fun x => negb (f x)) l)
   = List.length l)%nat.
Proof.
  induction l as [|a l IH]; simpl; [reflexivity|].
  destruct (f a); simpl; lia.
Qed.

Lemma collectPayloads_count (db : Database) (emps : list Employee)
  (acc : nat * list Payload) :
  let out :=
    fold_left
      (fun acc employee =>
         match buildPayloadForEmployee db employee.(emp_id) with
         | None => (S (fst acc), snd acc)
         | Some payload => (fst acc, snd acc ++ [payload])
         end) emps acc in
  (fst out + List.length (snd out)
   = fst acc + List.length (snd acc) + List.length emps)%nat.
Proof.
  revert acc. induction emps as [|emp emps IH]; intros acc; cbv zeta; simpl.
  - lia.
  - rewrite IH. destruct (buildPayloadForEmployee db (emp_id emp)); simpl.
    + rewrite length_app. simpl. lia.
    + lia.
Qed.

(** * What a prediction run changes *)

(** What a run leaves in the database, by the way it ends. *)
Lemma handlePredict_database (env : Env) (req : PredictRequest) (db : Database) :
  let out := handlePredict env req db in
  (out.(database) = db /\ (out.(posted) = [] \/ out.(value).(status) = 502))
  \/ exists sent results,
       out.(posted) = [sent]
       /\ results = orElse (env.(fetchPredictBatch) sent).(resp_results) []
       /\ out.(value).(status) = 200
       /\ out.(database)
          = snd (createMlPredictions db env.(dbNow) (map toPrediction results))
       /\ exists skipped,
            out.(value).(body)
            = PredictSummary (List.length results)
                skipped
                (List.length
                   (fst (createMlPredictions db env.(dbNow)
                           (map toPrediction results)))).
Proof.
  cbv zeta.
  destruct (handlePredict_shape env req db) as [[resp ->]|(batch & sk & -> & _)].
  - left. split; [reflexivity|left; reflexivity].
  - unfold replyToBatch. cbn [value database posted].
    pose proof (runMlBatch_detail env db batch) as Hd. cbv zeta in Hd.
    rewrite Hd. clear Hd.
    destruct (filter (fun p => negb (isCached env db p)) batch) as [|p tp].
    + left. split; [reflexivity|left; reflexivity].
    + destruct (resp_ok (fetchPredictBatch env (p :: tp))).
      * right. exists (p :: tp), (orElse (resp_results (fetchPredictBatch env (p :: tp))) []).
        cbn [value database posted status body json].
        split; [reflexivity|]. split; [reflexivity|]. split; [reflexivity|].
        split; [reflexivity|]. eexists. reflexivity.
      * left. split; [reflexivity|right; reflexivity].
Qed.

Lemma handlePredict_appends (env : Env) (req : PredictRequest)
  (db : Database) :
  let out := handlePredict env req db in
  out.(database).(employees) = db.(employees)
  /\ out.(database).(healthScores) = db.(healthScores)
  /\ out.(database).(employeeWeeklyMetrics) = db.(employeeWeeklyMetrics)
  /\ out.(database).(employeeMlPredictions)
     = db.(employeeMlPredictions) ++ storedBy db out
  /\ Forall (fun row => row.(mp_createdAt) = Some env.(dbNow)) (storedBy db out)
  /\ (out.(posted) = [] \/ out.(value).(status) <> 200 -> out.(database) = db).
Proof.
  cbv zeta. unfold storedBy.
  destruct (handlePredict_database env req db)
    as [[Hdb Hend]|(sent & results & Hposted & _ & Hstatus & Hdb & _)];
    cbv zeta in *.
  - rewrite Hdb, skipn_all, app_nil_r.
    repeat split; try reflexivity. constructor.
  - rewrite Hdb.
    destruct (createMlPredictions_facts db env.(dbNow) (map toPrediction results))
      as (Hrows & _ & Hcreated & He & Hh & _ & Hw & _).
    cbv zeta in Hrows, Hcreated, He, Hh, Hw.
    rewrite Hrows, skipn_app, skipn_all, Nat.sub_diag. simpl.
    split; [exact He|]. split; [exact Hh|]. split; [exact Hw|].
    split; [reflexivity|]. split; [exact Hcreated|].
    intros [Hnone|Hnot].
    + rewrite Hposted in Hnone. discriminate Hnone.
    + rewrite Hstatus in Hnot. contradiction.
Qed.

(** X8: a prediction run only appends to the table of predictions: the
    employees, the health scores and the weekly metrics stay as they are,
    the stored predictions stay in place, every row it adds carries the
    time of the database clock, and it adds nothing when it posts nothing
    or answers anything but 200. *)
Theorem prediction_run_only_appends (env : Env) (req : PredictRequest)
  (db : Database) :
  let out := handlePredict env req db in
  out.(database).(employees) = db.(employees)
  /\ out.(database).(healthScores) = db.(healthScores)
  /\ out.(database).(employeeWeeklyMetrics) = db.(employeeWeeklyMetrics)
  /\ out.(database).(employeeMlPredictions)
     = db.(employeeMlPredictions) ++ storedBy db out
  /\ Forall (fun row => row.(mp_createdAt) = Some env.(dbNow)) (storedBy db out)
  /\ (out.(posted) = [] \/ out.(value).(status) <> 200 -> out.(database) = db).
Proof. exact (handlePredict_appends env req db). Qed.

(** X9: in every answer 200 [processed] and [predictionsSaved] are both
    the number of rows the run stored; and when the run reports the
    employees held back by the cache (the run over all employees and the
    run by path), every employee it covers is counted once, as skipped
    or as posted. *)
Theorem prediction_run_accounting (env : Env) (req : PredictRequest)
  (db : Database) :
  let out := handlePredict env req db in
  out.(value).(status) = 200 ->
  exists processed skipped saved,
    out.(value).(body) = PredictSummary processed skipped saved
    /\ processed = saved
    /\ saved = List.length (storedBy db out)
    /\ (countsCached req = true ->
        (skipped + List.length (List.concat out.(posted))
         = List.length (targets db req))%nat).
Proof.
  cbv zeta. intros Hok.
  assert (Hbatch : forall batch sk,
            (replyToBatch (runMlBatch env db batch) sk).(value).(status) = 200 ->
            exists processed saved,
              (replyToBatch (runMlBatch env db batch) sk).(value).(body)
              = PredictSummary processed
                  (sk (List.length (filter (isCached env db) batch))) saved
              /\ processed = saved
              /\ saved = List.length
                           (storedBy db (replyToBatch (runMlBatch env db batch) sk))
              /\ (List.length (filter (isCached env db) batch)
                  + List.length
                      (List.concat (replyToBatch (runMlBatch env db batch) sk).(posted))
                  = List.length batch)%nat).
  { intros batch sk. unfold replyToBatch, storedBy. cbn [value database posted].
    pose proof (runMlBatch_detail env db batch) as Hd. cbv zeta in Hd.
    rewrite Hd. clear Hd.
    pose proof (filter_partition_length (isCached env db) batch) as Hpart.
    destruct (filter (fun p => negb (isCached env db p)) batch) as [|p tp].
    - cbn [value database posted]. intros _. exists 0%nat, 0%nat.
      rewrite skipn_all. simpl in *. repeat split; try reflexivity. lia.
    - destruct (resp_ok (fetchPredictBatch env (p :: tp)));
        cbn [value database posted]; [|intros H; discriminate H].
      intros _.
      set (results := orElse (resp_results (fetchPredictBatch env (p :: tp))) []).
      destruct (createMlPredictions_facts db env.(dbNow) (map toPrediction results))
        as (Hrows & Hdata & _).
      cbv zeta in Hrows, Hdata.
      exists (List.length results),
             (List.length (fst (createMlPredictions db env.(dbNow)
                                  (map toPrediction results)))).
      rewrite Hrows, skipn_app, skipn_all, Nat.sub_diag. simpl skipn.
      split; [reflexivity|].
      assert (Hlen : List.length (fst (createMlPredictions db env.(dbNow)
                                         (map toPrediction results)))
                     = List.length results).
      { rewrite <- (length_map mp_data), Hdata, length_map. reflexivity. }
      split; [symmetry; exact Hlen|]. split; [reflexivity|].
      simpl List.concat. rewrite app_nil_r. exact Hpart. }
  destruct req as [|e|e]; simpl in Hok |- *.
  - unfold mlPredict in *.
    pose proof (collectPayloads_count db (getEmployees db) (0%nat, [])) as Hcount.
    cbv zeta in Hcount. fold (collectPayloads db (getEmployees db)) in Hcount.
    destruct (collectPayloads db (getEmployees db)) as [skipped batch].
    simpl in Hcount. rewrite length_map. unfold getEmployees in *.
    destruct (List.length batch =? 0)%nat eqn:Eb.
    + apply Nat.eqb_eq in Eb. exists 0%nat, skipped, 0%nat.
      unfold storedBy. cbn [done value database posted json body].
      rewrite skipn_all. simpl. repeat split; try reflexivity.
      intros _. lia.
    + destruct (Hbatch batch _ Hok) as (processed & saved & Hbody & Heq & Hsaved & Hsum).
      exists processed, (skipped + List.length (filter (isCached env db) batch))%nat, saved.
      split; [exact Hbody|]. split; [exact Heq|]. split; [exact Hsaved|].
      intros _. lia.
  - unfold mlPredict in *. destruct (getEmployee db e); [|discriminate Hok].
    destruct (buildPayloadForEmployee db e) as [payload|].
    + destruct (Hbatch [payload] _ Hok) as (processed & saved & Hbody & Heq & Hsaved & _).
      exists processed, 0%nat, saved.
      split; [exact Hbody|]. split; [exact Heq|]. split; [exact Hsaved|].
      intros H. discriminate H.
    + exists 0%nat, 1%nat, 0%nat. unfold storedBy.
      cbn [done value database posted json body]. rewrite skipn_all.
      repeat split; reflexivity.
  - unfold mlPredictOne in *. destruct (getEmployee db e); [|discriminate Hok].
    destruct (buildPayloadForEmployee db e) as [payload|].
    + destruct (Hbatch [payload] _ Hok) as (processed & saved & Hbody & Heq & Hsaved & Hsum).
      exists processed, (List.length (filter (isCached env db) [payload])), saved.
      split; [exact Hbody|]. split; [exact Heq|]. split; [exact Hsaved|].
      intros _. exact Hsum.
    + exists 0%nat, 1%nat, 0%nat. unfold storedBy.
      cbn [done value database posted json body]. rewrite skipn_all.
      repeat split; reflexivity.
Qed.

(** [prediction_run_accounting] for a run over the two employees of the
    demo database: one has too few weeks, the other is posted. *)
Lemma prediction_run_accounting_witness :
  exists processed skipped saved,
    (handlePredict (echoEnv 301000) PredictAll demoDatabase).(value).(body)
    = PredictSummary processed skipped saved
    /\ processed = saved
    /\ saved = List.length
                 (storedBy demoDatabase
                    (handlePredict (echoEnv 301000) PredictAll demoDatabase))
    /\ (countsCached PredictAll = true ->
        (skipped
         + List.length
             (List.concat (handlePredict (echoEnv 301000) PredictAll demoDatabase).(posted))
         = List.length (targets demoDatabase PredictAll))%nat).
Proof.
  apply (prediction_run_accounting (echoEnv 301000) PredictAll demoDatabase).
  vm_compute. reflexivity.
Defined.

(** X10: a prediction a run stored for an employee holds the employee back
    from every later run that starts less than the TTL after the database
    clock of the first one, whatever the two requests are, provided no
    prediction of the employee stored before has a NULL creation time
    (a NULL sorts first under [ORDER BY created_at DESC] and is never
    fresh). *)
Theorem stored_prediction_is_reused (env1 env2 : Env)
  (req1 req2 : PredictRequest) (db : Database) (employeeId ttl : Z) :
  let out1 := handlePredict env1 req1 db in
  (exists row, In row (storedBy db out1) /\ mp_employeeId row = employeeId) ->
  (forall q, In q (mlPredictionsOf db employeeId) -> q.(mp_createdAt) <> None) ->
  cacheTtlMs env2 = Some ttl ->
  env2.(dateNow) - env1.(dbNow) < ttl ->
  forall body p,
    In body (handlePredict env2 req2 out1.(database)).(posted) -> In p body ->
    p.(employee_id) <> employeeId.
Proof.
  cbv zeta. intros (row & Hrow & Hemp) Hold Httl Hage.
  destruct (handlePredict_appends env1 req1 db)
    as (_ & _ & _ & Hrows & Hcreated & _).
  cbv zeta in Hrows, Hcreated.
  set (db1 := (handlePredict env1 req1 db).(database)) in *.
  rewrite Forall_forall in Hcreated.
  destruct (latest_prediction_facts db1 employeeId) as (Hnone & _ & Hsome).
  assert (Hin : In row (mlPredictionsOf db1 employeeId)).
  { unfold mlPredictionsOf. apply filter_In. split.
    - rewrite Hrows. apply in_or_app. right. exact Hrow.
    - apply Z.eqb_eq. exact Hemp. }
  destruct (getLatestMlPrediction db1 employeeId) as [latest|] eqn:Hlatest.
  2:{ destruct Hnone as [Hn _]. rewrite (Hn eq_refl) in Hin. destruct Hin. }
  destruct (Hsome latest eq_refl) as (_ & Hstored & Hlemp & Hnewest).
  specialize (Hnewest row Hin). unfold notOlder, descNullable in Hnewest.
  rewrite (Hcreated row Hrow) in Hnewest.
  assert (Hsomet : exists t, latest.(mp_createdAt) = Some t /\ env1.(dbNow) <= t).
  { destruct (mp_createdAt latest) as [t|] eqn:Ht.
    - exists t. split; [reflexivity|]. apply Z.leb_le. exact Hnewest.
    - exfalso. rewrite Hrows in Hstored. apply in_app_or in Hstored.
      destruct Hstored as [Hbefore|Hadded].
      + apply (Hold latest); [|exact Ht].
        unfold mlPredictionsOf. apply filter_In. split; [exact Hbefore|].
        apply Z.eqb_eq. exact Hlemp.
      + rewrite (Hcreated latest Hadded) in Ht. discriminate Ht. }
  destruct Hsomet as (t & Ht & Hle).
  assert (Hcached : isCached env2 db1 (payloadFor employeeId) = true).
  { rewrite (isCached_by_age env2 db1 (payloadFor employeeId) latest t ttl
               Hlatest Ht Httl).
    apply Z.ltb_lt. lia. }
  exact (cached_employee_not_posted env2 req2 db1 (payloadFor employeeId) Hcached).
Qed.

(** [stored_prediction_is_reused] on the demo database: a run by path
    stores a prediction for employee 1, and a run over all employees one
    second later posts nothing for employee 1. *)
Lemma stored_prediction_is_reused_witness :
  Forall (Forall (fun p => p.(employee_id) <> 1))
    (handlePredict (echoEnv 302000) PredictAll
       (handlePredict (echoEnv 301000) (PredictPath 1) demoDatabase).(database)).(posted).
Proof.
  apply Forall_forall. intros body Hbody. apply Forall_forall. intros p Hp.
  apply (stored_prediction_is_reused (echoEnv 301000) (echoEnv 302000)
           (PredictPath 1) PredictAll demoDatabase 1 300000) with (body := body).
  - eexists. split; [left; reflexivity|reflexivity].
  - intros q [<-|[]]. discriminate.
  - reflexivity.
  - vm_compute. reflexivity.
  - exact Hbody.
  - exact Hp.
Defined.

(** * Recomputing the health scores *)

Lemma lastUpsert_some (key : Z * timestamp) (scores : list InsertHealthScore)
  (score : InsertHealthScore) :
  lastUpsert key scores = Some score -> In score scores /\ scoreKey score = key.
Proof.
  induction scores as [|s rest IH]; simpl; [discriminate|].
  destruct (lastUpsert key rest) as [later|].
  - intros H. injection H as <-. destruct (IH eq_refl) as [Hin Hkey].
    split; [right; exact Hin|exact Hkey].
  - destruct (keyEqb (scoreKey s) key) eqn:E; [|discriminate].
    intros H. injection H as <-. split; [left; reflexivity|].
    apply keyEqb_iff. exact E.
Qed.

Lemma lastUpsert_in (scores : list InsertHealthScore) (score : InsertHealthScore) :
  In score scores -> exists last, lastUpsert (scoreKey score) scores = Some last.
Proof.
  induction scores as [|s rest IH]; simpl; [intros []|].
  intros [->|Hin].
  - destruct (lastUpsert (scoreKey score) rest) as [later|]; [eauto|].
    assert (E : keyEqb (scoreKey score) (scoreKey score) = true)
      by (apply keyEqb_iff; reflexivity).
    rewrite E. eauto.
  - destruct (IH Hin) as [last ->]. eauto.
Qed.

(** Upserts write to the table of health scores only. *)
Lemma upsertAll_other_tables (scores : list InsertHealthScore) (db : Database) :
  (upsertAll db scores).(employees) = db.(employees)
  /\ (upsertAll db scores).(employeeWeeklyMetrics) = db.(employeeWeeklyMetrics)
  /\ (upsertAll db scores).(employeeMlPredictions) = db.(employeeMlPredictions)
  /\ (upsertAll db scores).(employeeMlPredictions_id_seq)
     = db.(employeeMlPredictions_id_seq).
Proof.
  revert db. induction scores as [|s rest IH]; intros db; simpl.
  - repeat split.
  - destruct (IH (snd (upsertHealthScore db s))) as (-> & -> & -> & ->).
    unfold upsertHealthScore, addHealthScore.
    destruct (find (matchesKey s) (healthScores db)); repeat split.
Qed.

(** What the stored rows give: scores the database accepts. *)
Lemma stored_row_scores (metric : EmployeeWeeklyMetric) :
  storedRow metric ->
  let score := computeHealthScoreFromMetric metric in
  isInteger0to100 score.(ihs_burnoutRisk)
  /\ isInteger0to100 score.(ihs_engagementScore)
  /\ isInteger0to100 score.(ihs_performanceScore)
  /\ isInteger0to100 score.(ihs_workloadScore).
Proof.
  intros (Hta & Htc & Hmd & Hsa & Hmh & Hco & Hen & _). cbv zeta.
  unfold computeHealthScoreFromMetric.
  cbn [ihs_engagementScore ihs_burnoutRisk ihs_performanceScore ihs_workloadScore].
  pose proof (normalize_range _ (finiteBelow_mantissaOk _ _ Hen)) as Heng.
  pose proof (normalize_range _ (finiteBelow_mantissaOk _ _ Hco)) as Hcol.
  unfold normalize in Heng, Hcol.
  pose proof (rate_below _ _ Hta Htc) as Hcompletion.
  pose proof (rate_below _ _ Hta Hmd) as Hmiss.
  assert (Hstretch : finiteBelow 33 metric.(stretchAssignments)).
  { destruct Hsa as (z & Hz & ->). apply ofZ_int32. exact Hz. }
  destruct (workload_sum _ _ _
              (finiteBelow_not_nan _ _ (max0_int32_below _ Hta)) Hmh Hstretch)
    as [Hwn Hwm].
  pose proof (clamp_range _ Hwm Hwn) as Hworkload.
  destruct (performance_sum _ _ _ _
              (finiteBelow_not_nan _ _ Hcompletion) Heng Hcol Hmiss)
    as [Hpn Hpm].
  destruct (burnout_sum _ _ _ _ Hworkload Heng Hcol Hmiss) as [Hbn Hbm].
  split; [apply round_range, clamp_range; assumption|].
  split; [apply round_range; exact Heng|].
  split; [apply round_range, clamp_range; assumption|].
  apply round_range. exact Hworkload.
Qed.

Lemma integer0to100_fits (x : number) : isInteger0to100 x -> fitsInteger x = true.
Proof.
  intros (n & Hn & ->).
  assert (Hall : forallb (fun z => fitsInteger (JS.ofZ z)) (zrange 0 101) = true)
    by (vm_compute; reflexivity).
  rewrite forallb_forall in Hall. apply Hall. apply zrange_In. lia.
Qed.

Lemma stored_row_accepted (metric : EmployeeWeeklyMetric) :
  storedRow metric -> scoreAccepted metric = true.
Proof.
  intros Hrow. destruct (stored_row_scores metric Hrow) as (Hb & He & Hp & Hw).
  cbv zeta in Hb, He, Hp, Hw. unfold scoreAccepted, acceptsScore.
  rewrite (integer0to100_fits _ Hb), (integer0to100_fits _ He),
    (integer0to100_fits _ Hp), (integer0to100_fits _ Hw). reflexivity.
Qed.

Lemma stored_rows_accepted (metrics : list EmployeeWeeklyMetric) :
  Forall storedRow metrics -> forallb scoreAccepted metrics = true.
Proof.
  intros H. apply forallb_forall. intros m Hm. rewrite Forall_forall in H.
  apply stored_row_accepted, H, Hm.
Qed.

Lemma recomputeLoop_cons (db : Database) (metric : EmployeeWeeklyMetric)
  (rest : list EmployeeWeeklyMetric) (updated : list HealthScore) :
  recomputeLoop db (metric :: rest) updated
  = if scoreAccepted metric then
      let out := upsertHealthScore db (computeHealthScoreFromMetric metric) in
      recomputeLoop (snd out) rest (updated ++ [fst out])
    else (None, db).
Proof. reflexivity. Qed.

Lemma recomputeLoop_spec (allMetrics : list EmployeeWeeklyMetric) (db : Database)
  (updated : list HealthScore) :
  let out := recomputeLoop db allMetrics updated in
  (forallb scoreAccepted allMetrics = true ->
   snd out = upsertAll db (map computeHealthScoreFromMetric allMetrics)
   /\ exists rows, fst out = Some (updated ++ rows)
                   /\ List.length rows = List.length allMetrics)
  /\ (forallb scoreAccepted allMetrics = false -> fst out = None)
  /\ exists before rest,
       allMetrics = before ++ rest
       /\ snd out = upsertAll db (map computeHealthScoreFromMetric before).
Proof.
  revert db updated. induction allMetrics as [|m rest IH]; intros db updated;
    cbv zeta.
  - change (recomputeLoop db [] updated) with (Some updated, db).
    cbn [fst snd forallb map]. split; [intros _; split; [reflexivity|]|].
    + exists []. rewrite app_nil_r. split; reflexivity.
    + split; [discriminate|]. exists [], []. split; reflexivity.
  - rewrite recomputeLoop_cons. cbn [forallb].
    destruct (scoreAccepted m) eqn:Hm.
    + cbv zeta. set (out := upsertHealthScore db (computeHealthScoreFromMetric m)).
      destruct (IH (snd out) (updated ++ [fst out]))
        as (Hall & Hsome & (before & after & Hsplit & Hdb)).
      cbv zeta in Hall, Hsome, Hdb. cbn [andb].
      split; [|split].
      * intros Hrest. destruct (Hall Hrest) as [Hd (rows & Hrows & Hlen)].
        split; [exact Hd|].
        exists (fst out :: rows).
        split; [rewrite Hrows, <- app_assoc; reflexivity|].
        cbn [List.length]. rewrite Hlen. reflexivity.
      * exact Hsome.
      * exists (m :: before), after. split; [rewrite Hsplit; reflexivity|].
        exact Hdb.
    + cbn [andb fst snd]. split; [discriminate|]. split; [reflexivity|].
      exists [], (m :: rest). split; reflexivity.
Qed.

Lemma getAllWeeklyMetrics_in (db : Database) (metric : EmployeeWeeklyMetric) :
  In metric (getAllWeeklyMetrics db) <-> In metric db.(employeeWeeklyMetrics).
Proof.
  unfold getAllWeeklyMetrics. split; intros H.
  - eapply Permutation_in; [apply orderBy_perm|exact H].
  - eapply Permutation_in; [apply Permutation_sym, orderBy_perm|exact H].
Qed.

Lemma getAllWeeklyMetrics_accepted (db : Database) :
  forallb scoreAccepted (getAllWeeklyMetrics db) = true
  <-> Forall (fun metric => scoreAccepted metric = true) db.(employeeWeeklyMetrics).
Proof.
  rewrite forallb_forall, Forall_forall. split; intros H m Hm; apply H.
  - apply getAllWeeklyMetrics_in. exact Hm.
  - apply getAllWeeklyMetrics_in. exact Hm.
Qed.

(** The recompute when every score is accepted. *)
Lemma teamRecompute_accepted (db : Database) :
  Forall (fun metric => scoreAccepted metric = true) db.(employeeWeeklyMetrics) ->
  (teamRecompute db).(value) = Some (List.length db.(employeeWeeklyMetrics))
  /\ (teamRecompute db).(database)
     = upsertAll db (map computeHealthScoreFromMetric (getAllWeeklyMetrics db))
  /\ (teamRecompute db).(posted) = [].
Proof.
  intros Hall. apply getAllWeeklyMetrics_accepted in Hall.
  unfold teamRecompute.
  destruct (recomputeLoop_spec (getAllWeeklyMetrics db) db []) as (Hok & _ & _).
  cbv zeta in Hok. destruct (Hok Hall) as [Hd (rows & Hrows & Hlen)].
  destruct (recomputeLoop db (getAllWeeklyMetrics db) []) as [updated db'].
  simpl in *. subst updated. simpl.
  split; [|split; [exact Hd|reflexivity]].
  rewrite Hlen. f_equal. unfold getAllWeeklyMetrics.
  apply Permutation_length, orderBy_perm.
Qed.

(** The recompute on stored rows of finite numbers. *)
Lemma teamRecompute_spec (db : Database) :
  Forall storedRow db.(employeeWeeklyMetrics) ->
  (teamRecompute db).(value) = Some (List.length db.(employeeWeeklyMetrics))
  /\ (teamRecompute db).(database)
     = upsertAll db (map computeHealthScoreFromMetric (getAllWeeklyMetrics db))
  /\ (teamRecompute db).(posted) = [].
Proof.
  intros Hstored. apply teamRecompute_accepted.
  eapply Forall_impl; [|exact Hstored]. intros m. apply stored_row_accepted.
Qed.

(** X11: the recompute handler writes to no table but the health scores
    and posts nothing, whether it answers or not.  It answers exactly
    when the health score of every stored weekly metric fits the integer
    columns, and then with the number of stored weekly metrics; it does
    so when every stored metric holds integers and finite numbers.  A
    metric with a score that does not fit, as one whose meeting hours are
    NaN, leaves the handler without an answer. *)
Theorem recompute_counts_metrics (db : Database) :
  let out := teamRecompute db in
  out.(posted) = []
  /\ out.(database).(employees) = db.(employees)
  /\ out.(database).(employeeWeeklyMetrics) = db.(employeeWeeklyMetrics)
  /\ out.(database).(employeeMlPredictions) = db.(employeeMlPredictions)
  /\ (out.(value) <> None
      <-> Forall (fun metric => scoreAccepted metric = true)
            db.(employeeWeeklyMetrics))
  /\ (forall updated, out.(value) = Some updated ->
        updated = List.length db.(employeeWeeklyMetrics))
  /\ (Forall storedRow db.(employeeWeeklyMetrics) ->
      out.(value) = Some (List.length db.(employeeWeeklyMetrics))).
Proof.
  cbv zeta.
  assert (Hframe : (teamRecompute db).(posted) = []
            /\ exists before,
                 (teamRecompute db).(database)
                 = upsertAll db (map computeHealthScoreFromMetric before)).
  { unfold teamRecompute.
    destruct (recomputeLoop_spec (getAllWeeklyMetrics db) db [])
      as (_ & _ & (before & rest & _ & Hd)).
    cbv zeta in Hd.
    destruct (recomputeLoop db (getAllWeeklyMetrics db) []) as [updated db'].
    simpl in *. split; [reflexivity|]. exists before. exact Hd. }
  destruct Hframe as [Hposted (before & Hdb)].
  destruct (upsertAll_other_tables (map computeHealthScoreFromMetric before) db)
    as (He & Hw & Hm & _).
  assert (Hanswer : (teamRecompute db).(value) <> None
            <-> Forall (fun metric => scoreAccepted metric = true)
                  db.(employeeWeeklyMetrics)).
  { split.
    - intros Hv. apply getAllWeeklyMetrics_accepted.
      destruct (forallb scoreAccepted (getAllWeeklyMetrics db)) eqn:E; [reflexivity|].
      exfalso. apply Hv. unfold teamRecompute.
      destruct (recomputeLoop_spec (getAllWeeklyMetrics db) db []) as (_ & Hno & _).
      cbv zeta in Hno. specialize (Hno E).
      destruct (recomputeLoop db (getAllWeeklyMetrics db) []) as [updated db'].
      simpl in *. subst updated. reflexivity.
    - intros Hall. rewrite (proj1 (teamRecompute_accepted db Hall)). discriminate. }
  split; [exact Hposted|].
  split; [rewrite Hdb; exact He|].
  split; [rewrite Hdb; exact Hw|].
  split; [rewrite Hdb; exact Hm|].
  split; [exact Hanswer|].
  split.
  - intros updated Hv.
    assert (Hsome : (teamRecompute db).(value) <> None) by (rewrite Hv; discriminate).
    apply Hanswer in Hsome.
    rewrite (proj1 (teamRecompute_accepted db Hsome)) in Hv.
    injection Hv as <-. reflexivity.
  - intros Hstored. exact (proj1 (teamRecompute_spec db Hstored)).
Qed.

(** A stored metric whose meeting hours are NaN has a NaN workload score:
    the recompute gives no answer, and the metrics it reached before
    keep their new scores. *)
Example recompute_rejects_nan :
  scoreAccepted nanMetric = false
  /\ (teamRecompute nanDatabase).(value) = None
  /\ map hsKey (teamRecompute nanDatabase).(database).(healthScores)
     = [(1, 4 * msPerWeek)].
Proof. vm_compute. repeat split. Qed.

Lemma demoMetrics_stored : Forall storedRow demoDatabase.(employeeWeeklyMetrics).
Proof.
  assert (Hrow : forall id e w c, storedRow (scenarioMetric id e w c)).
  { intros id e w c. unfold storedRow, scenarioMetric, isInt32, isReal4.
    cbn [tasksAssigned tasksCompleted missedDeadlines stretchAssignments
         meetingHours collaborationScore engagementScore learningHours].
    split; [exists 20; split; [lia|reflexivity]|].
    split; [exists 18; split; [lia|reflexivity]|].
    split; [exists 1; split; [lia|reflexivity]|].
    split; [exists 1; split; [lia|reflexivity]|].
    split; [split; [reflexivity|intros H; discriminate H]|].
    split; [split; [reflexivity|intros H; discriminate H]|].
    split; split; [reflexivity|intros H; discriminate H|reflexivity
                  |intros H; discriminate H]. }
  unfold demoDatabase. cbn [employeeWeeklyMetrics]. unfold demoMetrics.
  repeat (apply Forall_cons; [apply Hrow|]). apply Forall_nil.
Qed.

Lemma demoScored_keyed : primaryKeyed demoScoredDatabase /\ oneRowPerKey demoScoredDatabase.
Proof.
  split; [split|].
  - simpl. repeat constructor; simpl; intuition discriminate.
  - simpl. repeat constructor; simpl; lia.
  - unfold oneRowPerKey. simpl. repeat constructor; simpl; intuition discriminate.
Qed.

(** X12: after a recompute on stored metrics of integers and finite
    numbers and on a table of health scores whose ids and natural keys
    are pairwise distinct, the handler has answered, the keys are still
    pairwise distinct, every stored weekly metric has a health score of
    its employee and week, holding the score computed from a stored
    metric of that employee and week; and a health score of a key that no
    weekly metric has stays as it is. *)
Theorem recompute_scores_every_week (db : Database) :
  Forall storedRow db.(employeeWeeklyMetrics) ->
  primaryKeyed db -> oneRowPerKey db ->
  let out := teamRecompute db in
  let db' := out.(database) in
  out.(value) = Some (List.length db.(employeeWeeklyMetrics))
  /\ NoDup (map hsKey db'.(healthScores))
  /\ (forall metric, In metric db.(employeeWeeklyMetrics) ->
        exists row source,
          In row db'.(healthScores)
          /\ hsKey row = metricKey metric
          /\ In source db.(employeeWeeklyMetrics)
          /\ metricKey source = metricKey metric
          /\ holdsScore (computeHealthScoreFromMetric source) row)
  /\ (forall row, In row db.(healthScores) ->
        (forall metric, In metric db.(employeeWeeklyMetrics) ->
           metricKey metric <> hsKey row) ->
        In row db'.(healthScores)).
Proof.
  intros Hstored Hp Hk. cbv zeta.
  destruct (teamRecompute_spec db Hstored) as (Hv & -> & _).
  split; [exact Hv|].
  set (scores := map computeHealthScoreFromMetric (getAllWeeklyMetrics db)).
  pose proof (getAllWeeklyMetrics_in db) as Hin_all.
  split; [exact (proj2 (upsertAll_invariant scores db Hp Hk))|]. split.
  - intros metric Hin.
    assert (Hs : In (computeHealthScoreFromMetric metric) scores).
    { apply in_map. apply Hin_all. exact Hin. }
    destruct (lastUpsert_in scores _ Hs) as [last Hlast].
    destruct (upsertAll_last scores db _ last Hp Hk Hlast) as (row & Hrow & Hkey & Hholds).
    destruct (lastUpsert_some _ _ _ Hlast) as [Hlin Hlkey].
    apply in_map_iff in Hlin. destruct Hlin as (source & <- & Hsource).
    exists row, source.
    split; [exact Hrow|]. split; [exact Hkey|].
    split; [apply Hin_all; exact Hsource|]. split; [exact Hlkey|exact Hholds].
  - intros row Hrow Hfree. apply upsertAll_untouched; try assumption.
    destruct (lastUpsert (hsKey row) scores) as [last|] eqn:Hlast; [|reflexivity].
    exfalso. destruct (lastUpsert_some _ _ _ Hlast) as [Hlin Hlkey].
    apply in_map_iff in Hlin. destruct Hlin as (source & <- & Hsource).
    apply (Hfree source); [apply Hin_all; exact Hsource|exact Hlkey].
Qed.

(** [recompute_scores_every_week] on the demo database with two health
    scores: one of a stored week, one of an employee without metrics. *)
Lemma recompute_scores_every_week_witness :
  let out := teamRecompute demoScoredDatabase in
  let db' := out.(database) in
  out.(value) = Some (List.length demoScoredDatabase.(employeeWeeklyMetrics))
  /\ NoDup (map hsKey db'.(healthScores))
  /\ (forall metric, In metric demoScoredDatabase.(employeeWeeklyMetrics) ->
        exists row source,
          In row db'.(healthScores)
          /\ hsKey row = metricKey metric
          /\ In source demoScoredDatabase.(employeeWeeklyMetrics)
          /\ metricKey source = metricKey metric
          /\ holdsScore (computeHealthScoreFromMetric source) row)
  /\ (forall row, In row demoScoredDatabase.(healthScores) ->
        (forall metric, In metric demoScoredDatabase.(employeeWeeklyMetrics) ->
           metricKey metric <> hsKey row) ->
        In row db'.(healthScores)).
Proof.
  apply (recompute_scores_every_week demoScoredDatabase).
  - exact demoMetrics_stored.
  - exact (proj1 demoScored_keyed).
  - exact (proj2 demoScored_keyed).
Defined.

(** One upsert of a stored key, row by row. *)
Lemma upsert_covered (db : Database) (score : InsertHealthScore) :
  primaryKeyed db -> oneRowPerKey db ->
  (exists row, In row db.(healthScores) /\ hsKey row = scoreKey score) ->
  snd (upsertHealthScore db score)
  = set_healthScores db
      (map (fun row => if keyEqb (scoreKey score) (hsKey row)
                       then setHealthScore score row else row)
         db.(healthScores))
      db.(healthScores_id_seq).
Proof.
  intros [Hids _] Hkeys (row0 & Hin0 & Hkey0). unfold upsertHealthScore.
  destruct (find (matchesKey score) (healthScores db)) as [existing|] eqn:Hfind.
  - apply find_some in Hfind. destruct Hfind as [Hin Hmatch].
    apply matchesKey_iff in Hmatch.
    cbn [snd]. f_equal. apply map_ext_in. intros row Hrow.
    destruct (Z.eqb_spec (hs_id row) (hs_id existing)) as [Hid|Hid].
    + rewrite (NoDup_map_inj hs_id _ _ _ Hids Hrow Hin Hid).
      rewrite (proj2 (keyEqb_iff _ _) (eq_sym Hmatch)). reflexivity.
    + destruct (keyEqb (scoreKey score) (hsKey row)) eqn:E; [|reflexivity].
      apply keyEqb_iff in E. exfalso. apply Hid. f_equal.
      apply (NoDup_map_inj hsKey _ _ _ Hkeys Hrow Hin). congruence.
  - apply matchesKey_iff in Hkey0.
    rewrite (find_none _ _ Hfind row0 Hin0) in Hkey0. discriminate Hkey0.
Qed.

(** Upserts of stored keys only, row by row. *)
Lemma upsertAll_covered (scores : list InsertHealthScore) (db : Database) :
  primaryKeyed db -> oneRowPerKey db ->
  (forall score, In score scores ->
     exists row, In row db.(healthScores) /\ hsKey row = scoreKey score) ->
  upsertAll db scores
  = set_healthScores db (map (applyLast scores) db.(healthScores))
      db.(healthScores_id_seq).
Proof.
  revert db. induction scores as [|s rest IH]; intros db Hp Hk Hcov.
  - simpl. unfold applyLast. simpl. rewrite map_id. destruct db. reflexivity.
  - simpl upsertAll.
    assert (Hs : exists row, In row db.(healthScores) /\ hsKey row = scoreKey s)
      by (apply Hcov; left; reflexivity).
    destruct (upsert_step db s Hp Hk) as (Hp' & Hk' & _).
    cbv zeta in Hp', Hk'.
    pose proof (upsert_covered db s Hp Hk Hs) as Hone.
    set (upd := fun row => if keyEqb (scoreKey s) (hsKey row)
                           then setHealthScore s row else row) in Hone.
    assert (Hkeep : forall row, hsKey (upd row) = hsKey row).
    { intros row. unfold upd.
      destruct (keyEqb (scoreKey s) (hsKey row)) eqn:E; [|reflexivity].
      apply keyEqb_iff in E. unfold hsKey, scoreKey in *. simpl.
      injection E as _ ->. reflexivity. }
    rewrite IH; try assumption.
    + rewrite Hone. unfold set_healthScores.
      cbn [employees healthScores healthScores_id_seq employeeWeeklyMetrics
           employeeMlPredictions employeeMlPredictions_id_seq].
      f_equal. rewrite map_map. apply map_ext. intros row.
      unfold applyLast. rewrite Hkeep. simpl lastUpsert.
      destruct (lastUpsert (hsKey row) rest) as [later|];
        unfold upd; destruct (keyEqb (scoreKey s) (hsKey row)); reflexivity.
    + intros score Hin. destruct (Hcov score (or_intror Hin)) as (row & Hrow & Hkey).
      exists (upd row). split.
      * rewrite Hone. cbn [healthScores set_healthScores]. apply in_map. exact Hrow.
      * rewrite Hkeep. exact Hkey.
Qed.

(** Upserting the same scores a second time changes nothing. *)
Lemma upsertAll_twice (scores : list InsertHealthScore) (db : Database) :
  primaryKeyed db -> oneRowPerKey db ->
  upsertAll (upsertAll db scores) scores = upsertAll db scores.
Proof.
  intros Hp Hk.
  destruct (upsertAll_invariant scores db Hp Hk) as [Hp1 Hk1].
  set (db1 := upsertAll db scores) in *.
  rewrite upsertAll_covered; try assumption.
  - assert (Hrows : map (applyLast scores) db1.(healthScores) = db1.(healthScores)).
    { rewrite <- (map_id (healthScores db1)) at 2. apply map_ext_in.
      intros row Hrow. unfold applyLast.
      destruct (lastUpsert (hsKey row) scores) as [last|] eqn:Hlast; [|reflexivity].
      destruct (upsertAll_last scores db _ last Hp Hk Hlast)
        as (row' & Hrow' & Hkey' & b & e & p & w).
      fold db1 in Hrow'.
      assert (row' = row)
        by (apply (NoDup_map_inj hsKey _ _ _ Hk1 Hrow' Hrow); exact Hkey').
      subst row'. destruct (lastUpsert_some _ _ _ Hlast) as [_ Hlkey].
      unfold setHealthScore. rewrite <- b, <- e, <- p, <- w.
      unfold hsKey, scoreKey in Hlkey. injection Hlkey as _ Hdate.
      rewrite Hdate. destruct row. reflexivity. }
    rewrite Hrows. destruct db1. reflexivity.
  - intros score Hin. destruct (lastUpsert_in scores score Hin) as [last Hlast].
    destruct (upsertAll_last scores db _ last Hp Hk Hlast) as (row & Hrow & Hkey & _).
    exists row. split; assumption.
Qed.

(** X13: on stored metrics of integers and finite numbers and on a table
    of health scores whose ids and natural keys are pairwise distinct, a
    second recompute changes nothing: it answers the same count as the
    first and leaves the same health scores, the same sequence and the
    same other tables.  Nothing is said of the order of the rows. *)
Theorem recompute_idempotent (db : Database) :
  Forall storedRow db.(employeeWeeklyMetrics) ->
  primaryKeyed db -> oneRowPerKey db ->
  let once := teamRecompute db in
  let twice := teamRecompute once.(database) in
  once.(value) = Some (List.length db.(employeeWeeklyMetrics))
  /\ twice.(value) = once.(value)
  /\ Permutation twice.(database).(healthScores) once.(database).(healthScores)
  /\ twice.(database).(healthScores_id_seq) = once.(database).(healthScores_id_seq)
  /\ twice.(database).(employees) = once.(database).(employees)
  /\ twice.(database).(employeeWeeklyMetrics) = once.(database).(employeeWeeklyMetrics)
  /\ twice.(database).(employeeMlPredictions)
     = once.(database).(employeeMlPredictions).
Proof.
  intros Hstored Hp Hk. cbv zeta.
  destruct (teamRecompute_spec db Hstored) as (Hv & Hd & _).
  set (db1 := (teamRecompute db).(database)) in *.
  set (scores := map computeHealthScoreFromMetric (getAllWeeklyMetrics db)) in *.
  destruct (upsertAll_other_tables scores db) as (_ & Hw & _).
  rewrite <- Hd in Hw.
  assert (Hstored1 : Forall storedRow db1.(employeeWeeklyMetrics))
    by (rewrite Hw; exact Hstored).
  destruct (teamRecompute_spec db1 Hstored1) as (Hv1 & Hd1 & _).
  assert (Hsame : getAllWeeklyMetrics db1 = getAllWeeklyMetrics db).
  { unfold getAllWeeklyMetrics. rewrite Hw. reflexivity. }
  rewrite Hsame in Hd1. fold scores in Hd1.
  assert (Heq : (teamRecompute db1).(database) = db1).
  { rewrite Hd1, Hd. apply upsertAll_twice; assumption. }
  rewrite Heq.
  split; [exact Hv|]. split; [rewrite Hv1, Hv, Hw; reflexivity|].
  split; [apply Permutation_refl|]. repeat split.
Qed.

(** [recompute_idempotent] on the demo database with two health scores. *)
Lemma recompute_idempotent_witness :
  let once := teamRecompute demoScoredDatabase in
  let twice := teamRecompute once.(database) in
  once.(value) = Some (List.length demoScoredDatabase.(employeeWeeklyMetrics))
  /\ twice.(value) = once.(value)
  /\ Permutation twice.(database).(healthScores) once.(database).(healthScores)
  /\ twice.(database).(healthScores_id_seq) = once.(database).(healthScores_id_seq)
  /\ twice.(database).(employees) = once.(database).(employees)
  /\ twice.(database).(employeeWeeklyMetrics) = once.(database).(employeeWeeklyMetrics)
  /\ twice.(database).(employeeMlPredictions)
     = once.(database).(employeeMlPredictions).
Proof.
  apply (recompute_idempotent demoScoredDatabase).
  - exact demoMetrics_stored.
  - exact (proj1 demoScored_keyed).
  - exact (proj2 demoScored_keyed).
Defined.

(** * The trend of the team health *)

Lemma asc_total {A : Type} (key : A -> Z) (x y : A) :
  asc key x y = true \/ asc key y x = true.
Proof.
  unfold asc. destruct (Z.leb_spec (key x) (key y)); [left; reflexivity|right].
  apply Z.leb_le. lia.
Qed.

Lemma asc_trans {A : Type} (key : A -> Z) (x y z : A) :
  asc key x y = true -> asc key y z = true -> asc key x z = true.
Proof. unfold asc. rewrite !Z.leb_le. lia. Qed.

(** Setting a key of the [Map] keeps the keys in place and appends a new
    one. *)
Lemma trendMapSet_keys (m : list (Z * TrendBucket)) (k : Z) (v : TrendBucket) :
  map fst (trendMapSet m k v)
  = if existsb (fun x => x =? k) (map fst m) then map fst m
    else map fst m ++ [k].
Proof.
  induction m as [|[k0 x] rest IH]; simpl; [reflexivity|].
  destruct (k0 =? k) eqn:E; simpl; [reflexivity|].
  rewrite IH. destruct (existsb (fun x => x =? k) (map fst rest)); reflexivity.
Qed.

Lemma trendMap_keys (trendRaw : list HealthScore) (acc : list (Z * TrendBucket)) :
  NoDup (map fst acc) ->
  NoDup (map fst (fold_left trendStep trendRaw acc))
  /\ forall day,
       In day (map fst (fold_left trendStep trendRaw acc))
       <-> In day (map fst acc)
           \/ exists h, In h trendRaw /\ utcDay h.(hs_date) = day.
Proof.
  revert acc. induction trendRaw as [|h rest IH]; intros acc Hnd; simpl.
  - split; [exact Hnd|]. intros day. split; [auto|].
    intros [H|(h & [] & _)]. exact H.
  - assert (Hkeys : map fst (trendStep acc h)
                    = if existsb (fun x => x =? utcDay (hs_date h)) (map fst acc)
                      then map fst acc else map fst acc ++ [utcDay (hs_date h)]).
    { unfold trendStep. cbv zeta. apply trendMapSet_keys. }
    assert (Hnd' : NoDup (map fst (trendStep acc h))).
    { rewrite Hkeys.
      destruct (existsb (fun x => x =? utcDay (hs_date h)) (map fst acc)) eqn:E;
        [exact Hnd|].
      apply NoDup_app; [exact Hnd|constructor; [intros []|constructor]|].
      intros x Hx [<-|[]].
      assert (Ht : existsb (fun y => y =? utcDay (hs_date h)) (map fst acc) = true).
      { apply existsb_exists. exists (utcDay (hs_date h)).
        split; [exact Hx|apply Z.eqb_refl]. }
      rewrite E in Ht. discriminate Ht. }
    destruct (IH _ Hnd') as [Hout Hin]. split; [exact Hout|].
    intros day. rewrite Hin, Hkeys. clear Hin Hout IH.
    destruct (existsb (fun x => x =? utcDay (hs_date h)) (map fst acc)) eqn:E.
    + apply existsb_exists in E. destruct E as (x & Hx & Hxe).
      apply Z.eqb_eq in Hxe. subst x. split.
      * intros [H|(h' & Hh' & Hd)]; [left; exact H|right; exists h'; auto].
      * intros [H|(h' & [<-|Hh'] & Hd)];
          [left; exact H|left; rewrite <- Hd; exact Hx|right; exists h'; auto].
    + rewrite in_app_iff. simpl. split.
      * intros [[H|[<-|[]]]|(h' & Hh' & Hd)];
          [left; exact H|right; exists h; auto|right; exists h'; auto].
      * intros [H|(h' & [<-|Hh'] & Hd)];
          [left; left; exact H|left; right; left; exact Hd|right; exists h'; auto].
Qed.

Lemma sorted_distinct_strict {A : Type} (key : A -> Z) (l : list A) :
  StronglySorted (fun a b => asc key a b = true) l ->
  NoDup (map key l) ->
  StronglySorted (fun a b => key a < key b) l.
Proof.
  induction 1 as [|a l Hs IH Hall]; intros Hnd; constructor.
  - apply IH. inversion Hnd. assumption.
  - inversion Hnd as [|? ? Hnot _]. subst.
    rewrite Forall_forall in *. intros b Hb.
    specialize (Hall b Hb). unfold asc in Hall. apply Z.leb_le in Hall.
    assert (key a <> key b).
    { intros Heq. apply Hnot. rewrite Heq. apply in_map. exact Hb. }
    lia.
Qed.

(** The day of a timestamp is the one whose 24 hours hold it. *)
Lemma utcDay_spec (t day : Z) :
  utcDay t = day <-> day * 86400000 <= t < (day + 1) * 86400000.
Proof.
  unfold utcDay, msPerDay. split.
  - intros <-. pose proof (Z.div_mod t 86400000 ltac:(lia)) as Hd.
    pose proof (Z.mod_pos_bound t 86400000 ltac:(lia)) as Hm. lia.
  - intros H. symmetry. apply (Z.div_unique t 86400000 day (t - 86400000 * day)); lia.
Qed.

(** X14: the trend of the team health has one point per UTC day, the
    days in strictly ascending order, and a day has a point exactly when
    a stored health score dated no more than 14 days before the clock
    falls on that day, that is, within the 86400000 milliseconds that
    start at the day's midnight. *)
Theorem trend_has_one_point_per_day (db : Database) (now : timestamp) :
  let trend := (teamHealth db now).(trendData) in
  StronglySorted (fun a b => a.(tp_date) < b.(tp_date)) trend
  /\ forall day,
       In day (map tp_date trend)
       <-> exists row, In row db.(healthScores)
                       /\ now - 14 * 86400000 <= row.(hs_date)
                       /\ day * 86400000 <= row.(hs_date) < (day + 1) * 86400000.
Proof.
  change 86400000 with msPerDay.
  cbv zeta. unfold teamHealth. cbn [trendData]. unfold trendDataOf. cbv zeta.
  set (trendRaw := getTeamHealthTrend db now 14).
  set (point := fun kv : Z * TrendBucket =>
                  {| tp_date := fst kv;
                     tp_burnout :=
                       JS.Math_round ((snd kv).(tb_burnout) / (snd kv).(tb_count))%num;
                     tp_performance :=
                       JS.Math_round
                         ((snd kv).(tb_performance) / (snd kv).(tb_count))%num |}).
  destruct (trendMap_keys trendRaw [] (NoDup_nil _)) as [Hnd Hin].
  set (trendMap := fold_left trendStep trendRaw []) in *.
  assert (Hdates : map tp_date (map point trendMap) = map fst trendMap).
  { rewrite map_map. reflexivity. }
  pose proof (orderBy_perm (asc tp_date) (map point trendMap)) as Hperm.
  split.
  - apply sorted_distinct_strict.
    + apply (orderBy_sorted (asc tp_date) (asc_total _) (asc_trans _)).
    + eapply Permutation_NoDup;
        [apply Permutation_sym, Permutation_map, Hperm|].
      rewrite Hdates. exact Hnd.
  - intros day.
    assert (Hday : In day (map tp_date (orderBy (asc tp_date) (map point trendMap)))
                   <-> In day (map fst trendMap)).
    { rewrite <- Hdates. split; apply Permutation_in.
      - apply Permutation_map, Hperm.
      - apply Permutation_sym, Permutation_map, Hperm. }
    rewrite Hday, Hin. simpl.
    assert (Hraw : forall h, In h trendRaw
                     <-> In h db.(healthScores) /\ now - 14 * msPerDay <= hs_date h).
    { intros h. unfold trendRaw, getTeamHealthTrend. cbv zeta. split.
      - intros H. apply (Permutation_in _ (orderBy_perm _ _)) in H.
        apply filter_In in H. destruct H as [H1 H2]. apply Z.leb_le in H2.
        unfold daysAgo in H2. split; [exact H1|exact H2].
      - intros [H1 H2].
        apply (Permutation_in _ (Permutation_sym (orderBy_perm _ _))).
        apply filter_In. split; [exact H1|]. apply Z.leb_le. exact H2. }
    split.
    + intros [[]|(h & Hh & Hd)]. apply Hraw in Hh. destruct Hh as [H1 H2].
      exists h. split; [exact H1|]. split; [exact H2|].
      apply utcDay_spec. exact Hd.
    + intros (h & H1 & H2 & Hd). right. exists h.
      split; [|apply utcDay_spec; exact Hd].
      apply Hraw. auto.
Qed.

(** * The payload of the insights *)

Lemma countMapSet_keys (m : list (string * nat)) (key : string) (v : nat) :
  map fst (countMapSet m key v)
  = if existsb (fun k => String.eqb k key) (map fst m) then map fst m
    else map fst m ++ [key].
Proof.
  induction m as [|[k x] rest IH]; simpl; [reflexivity|].
  destruct (String.eqb k key) eqn:E; simpl; [reflexivity|].
  rewrite IH. destruct (existsb (fun k0 => String.eqb k0 key) (map fst rest));
    reflexivity.
Qed.

Lemma countMapSet_in (m : list (string * nat)) (key : string) (v : nat)
  (k : string) (n : nat) :
  NoDup (map fst m) ->
  In (k, n) (countMapSet m key v)
  <-> (k = key /\ n = v) \/ (k <> key /\ In (k, n) m).
Proof.
  induction m as [|[k0 x] rest IH]; simpl; intros Hnd.
  - split.
    + intros [H|[]]. injection H as <- <-. left. auto.
    + intros [[-> ->]|[_ []]]. left. reflexivity.
  - inversion Hnd as [|? ? Hnot Hnd']. subst.
    destruct (String.eqb_spec k0 key) as [->|Hne]; simpl.
    + split.
      * intros [H|H]; [injection H as <- <-; left; auto|].
        right. split; [|right; exact H].
        intros ->. apply Hnot. apply (in_map fst) in H. exact H.
      * intros [[-> ->]|[Hk [H|H]]]; [left; reflexivity| |right; exact H].
        injection H as H _. congruence.
    + rewrite (IH Hnd'). split.
      * intros [H|[H|[Hk H]]].
        -- injection H as <- <-. right. split; [exact Hne|left; reflexivity].
        -- left. exact H.
        -- right. split; [exact Hk|right; exact H].
      * intros [H|[Hk [H|H]]]; [right; left; exact H|left; exact H|].
        right. right. split; assumption.
Qed.

Lemma countMapGet_some (m : list (string * nat)) (key : string) (n : nat) :
  countMapGet m key = Some n -> In (key, n) m.
Proof.
  unfold countMapGet. destruct (find _ m) as [[k x]|] eqn:Hf; [|discriminate].
  simpl. intros H. injection H as <-. apply find_some in Hf.
  destruct Hf as [Hin Hk]. simpl in Hk. apply String.eqb_eq in Hk. subst k.
  exact Hin.
Qed.

Lemma countMapGet_none (m : list (string * nat)) (key : string) (n : nat) :
  countMapGet m key = None -> ~ In (key, n) m.
Proof.
  unfold countMapGet. destruct (find _ m) as [kv|] eqn:Hf; [discriminate|].
  intros _ Hin. pose proof (find_none _ _ Hf _ Hin) as H. simpl in H.
  rewrite String.eqb_refl in H. discriminate H.
Qed.

Lemma countFeature_exact (occ : string -> nat) (m : list (string * nat))
  (value : string) :
  countsExactly occ m ->
  countsExactly (fun k => if string_dec value k then S (occ k) else occ k)
    (countFeature m value).
Proof.
  intros [Hnd Hm]. unfold countFeature.
  assert (Hv : (orElse (countMapGet m value) 0 + 1 = S (occ value))%nat).
  { destruct (countMapGet m value) as [n|] eqn:Hg; simpl.
    - apply countMapGet_some in Hg. apply Hm in Hg. lia.
    - destruct (occ value) as [|c] eqn:Ho; [reflexivity|].
      exfalso. apply (countMapGet_none m value (S c) Hg). apply Hm.
      split; [symmetry; exact Ho|lia]. }
  rewrite Hv. split.
  - rewrite countMapSet_keys.
    destruct (existsb (fun k => String.eqb k value) (map fst m)) eqn:E; [exact Hnd|].
    apply NoDup_app; [exact Hnd|constructor; [intros []|constructor]|].
    intros x Hx [<-|[]].
    assert (Ht : existsb (fun k => String.eqb k value) (map fst m) = true).
    { apply existsb_exists. exists value. split; [exact Hx|apply String.eqb_refl]. }
    rewrite E in Ht. discriminate Ht.
  - intros k n. rewrite (countMapSet_in m value _ k n Hnd), Hm.
    destruct (string_dec value k) as [<-|Hne].
    + split.
      * intros [[_ ->]|[Hk _]]; [split; [reflexivity|lia]|congruence].
      * intros [-> _]. left. auto.
    + split.
      * intros [[Hk _]|[_ H]]; [congruence|exact H].
      * intros H. right. split; [congruence|exact H].
Qed.

Lemma countsExactly_ext (occ occ' : string -> nat) (m : list (string * nat)) :
  (forall k, occ k = occ' k) -> countsExactly occ m -> countsExactly occ' m.
Proof.
  intros Heq [Hnd Hm]. split; [exact Hnd|]. intros k n. rewrite Hm, Heq. reflexivity.
Qed.

Lemma countFeatures_exact (values : list string) (occ : string -> nat)
  (m : list (string * nat)) :
  countsExactly occ m ->
  countsExactly (fun k => (occ k + count_occ string_dec values k)%nat)
    (fold_left countFeature values m).
Proof.
  revert occ m. induction values as [|v rest IH]; intros occ m Hm; simpl fold_left.
  - apply (countsExactly_ext occ); [|exact Hm]. intros k. simpl. lia.
  - eapply countsExactly_ext; [|exact (IH _ _ (countFeature_exact occ m v Hm))].
    intros k. simpl. destruct (string_dec v k); lia.
Qed.

Lemma featureCounts_exact (predictions : list NamedPrediction)
  (fc : FeatureCounts) (ob op og : string -> nat) :
  countsExactly ob fc.(fc_burnout) ->
  countsExactly op fc.(fc_performance) ->
  countsExactly og fc.(fc_growth) ->
  let out := fold_left featureStep predictions fc in
  countsExactly (fun k => (ob k + occurrences tf_burnout predictions k)%nat)
    out.(fc_burnout)
  /\ countsExactly (fun k => (op k + occurrences tf_performance predictions k)%nat)
       out.(fc_performance)
  /\ countsExactly (fun k => (og k + occurrences tf_growth predictions k)%nat)
       out.(fc_growth).
Proof.
  revert fc ob op og.
  induction predictions as [|pred rest IH]; intros fc ob op og Hb Hp Hg; cbv zeta.
  - simpl. unfold occurrences, namedFeatures. simpl.
    split; [|split]; (eapply countsExactly_ext; [|eassumption]);
      intros k; cbv beta; lia.
  - simpl fold_left.
    destruct (IH (featureStep fc pred) _ _ _
                (countFeatures_exact _ _ _ Hb)
                (countFeatures_exact _ _ _ Hp)
                (countFeatures_exact _ _ _ Hg)) as (Rb & Rp & Rg).
    cbv zeta in Rb, Rp, Rg.
    unfold occurrences, namedFeatures in *. simpl map. simpl List.concat.
    split; [|split];
      (eapply countsExactly_ext; [|eassumption]);
      intros k; cbv beta; rewrite count_occ_app; lia.
Qed.

Lemma topFeatures_ranked (occ : string -> nat) (m : list (string * nat)) :
  countsExactly occ m -> rankedTop occ (topFeatures m).
Proof.
  intros [Hnd Hm]. unfold topFeatures.
  set (byCount := desc (fun kv : string * nat => Z.of_nat (snd kv))).
  pose proof (orderBy_perm byCount m) as Hperm.
  pose proof (orderBy_sorted byCount (desc_total _) (desc_trans _) m) as Hsorted.
  set (sorted := orderBy byCount m) in *.
  rewrite <- (firstn_skipn 5 sorted) in Hsorted.
  apply StronglySorted_app_inv in Hsorted. destruct Hsorted as (_ & _ & Hcross).
  assert (Hnds : NoDup (map fst (firstn 5 sorted) ++ map fst (skipn 5 sorted))).
  { rewrite <- map_app, firstn_skipn.
    eapply Permutation_NoDup; [apply Permutation_sym, Permutation_map, Hperm|].
    exact Hnd. }
  assert (Hentry : forall k n, In (k, n) sorted <-> n = occ k /\ (0 < n)%nat).
  { intros k n. rewrite <- Hm. split; apply Permutation_in;
      [exact Hperm|apply Permutation_sym, Hperm]. }
  assert (Hfirst : forall f, In f (map fst (firstn 5 sorted)) ->
                     In (f, occ f) (firstn 5 sorted) /\ (0 < occ f)%nat).
  { intros f Hf. apply in_map_iff in Hf. destruct Hf as ([k n] & <- & Hin).
    simpl. assert (Hs : In (k, n) sorted).
    { rewrite <- (firstn_skipn 5 sorted). apply in_or_app. left. exact Hin. }
    apply Hentry in Hs. destruct Hs as [-> Hpos]. split; [exact Hin|exact Hpos]. }
  split; [rewrite length_map; apply firstn_le_length|].
  split; [exact (NoDup_app_remove_r _ _ Hnds)|].
  split; [intros f Hf; exact (proj2 (Hfirst f Hf))|].
  split.
  - intros f g Hf Hg. destruct (occ g) as [|c] eqn:Hog; [lia|].
    assert (Hs : In (g, S c) sorted) by (apply Hentry; split; [congruence|lia]).
    rewrite <- (firstn_skipn 5 sorted) in Hs. apply in_app_or in Hs.
    destruct Hs as [Hs|Hs].
    + exfalso. apply Hg. apply (in_map fst) in Hs. exact Hs.
    + destruct (Hfirst f Hf) as [Hfin _].
      specialize (Hcross _ _ Hfin Hs). unfold byCount, desc in Hcross.
      simpl in Hcross. apply Z.leb_le in Hcross. lia.
  - intros g Hpos.
    destruct (Nat.le_gt_cases (List.length sorted) 5) as [Hle|Hgt].
    + left. rewrite firstn_all2 by exact Hle.
      apply (in_map fst sorted (g, occ g)). apply Hentry. split; [reflexivity|exact Hpos].
    + right. rewrite length_map, length_firstn. lia.
Qed.

Lemma countStep_bound (predictions : list NamedPrediction) (acc : InsightCounts)
  (bound : nat) :
  (acc.(highBurnout) <= bound /\ acc.(decliningPerformance) <= bound
   /\ acc.(highPotential) <= bound)%nat ->
  let counts := fold_left countStep predictions acc in
  (counts.(highBurnout) <= bound + List.length predictions
   /\ counts.(decliningPerformance) <= bound + List.length predictions
   /\ counts.(highPotential) <= bound + List.length predictions)%nat.
Proof.
  revert acc bound. induction predictions as [|pred rest IH];
    intros acc bound (Hb & Hd & Hp); cbv zeta.
  - simpl. lia.
  - simpl fold_left. specialize (IH (countStep acc pred) (S bound)).
    cbv zeta in IH. simpl List.length.
    replace (bound + S (List.length rest))%nat
      with (S bound + List.length rest)%nat by lia.
    apply IH. unfold countStep. simpl.
    destruct (String.eqb _ "High"), (String.eqb _ "Declining"),
      (String.eqb _ "High-Potential"); lia.
Qed.

(** X15: in the payload sent to the insights service no count exceeds
    [total_employees], and each of the three lists of top features holds
    at most five distinct features that the latest predictions name, none
    named less often than a feature left out, and all of the named
    features when they are fewer than five. *)
Theorem insights_payload_ranks_features (predictions : list NamedPrediction) :
  let payload := insightsPayload predictions in
  (payload.(high_burnout_count) <= payload.(total_employees))%nat
  /\ (payload.(declining_performance_count) <= payload.(total_employees))%nat
  /\ (payload.(high_potential_count) <= payload.(total_employees))%nat
  /\ rankedTop (occurrences tf_burnout predictions) payload.(top_burnout_features)
  /\ rankedTop (occurrences tf_performance predictions)
       payload.(top_performance_features)
  /\ rankedTop (occurrences tf_growth predictions) payload.(top_growth_features).
Proof.
  cbv zeta. unfold insightsPayload. cbv zeta.
  cbn [total_employees high_burnout_count declining_performance_count
       high_potential_count top_burnout_features top_performance_features
       top_growth_features].
  pose proof (countStep_bound predictions
                {| highBurnout := 0; decliningPerformance := 0; highPotential := 0 |}
                0%nat) as Hc.
  cbv zeta in Hc. simpl in Hc.
  destruct Hc as (Hb & Hd & Hp); [lia|].
  assert (Hempty : countsExactly (fun _ => 0%nat) []).
  { split; [constructor|]. intros k n. simpl. split; [intros []|lia]. }
  destruct (featureCounts_exact predictions
              {| fc_burnout := []; fc_performance := []; fc_growth := [] |}
              _ _ _ Hempty Hempty Hempty) as (Fb & Fp & Fg).
  cbv zeta in Fb, Fp, Fg. simpl in Fb, Fp, Fg.
  split; [exact Hb|]. split; [exact Hd|]. split; [exact Hp|].
  split; [|split]; apply topFeatures_ranked; assumption.
Qed.

(** The list of latest predictions is empty exactly when no prediction is
    stored. *)
Lemma latest_predictions_empty (db : Database) :
  getLatestMlPredictions db = [] <-> db.(employeeMlPredictions) = [].
Proof.
  unfold getLatestMlPredictions.
  pose proof (orderBy_perm (descNullable mp_createdAt) db.(employeeMlPredictions))
    as Hperm.
  set (predictions := orderBy (descNullable mp_createdAt) db.(employeeMlPredictions)) in *.
  destruct (latestByEmployee_fold predictions []) as (_ & _ & Hcover & _).
  cbv zeta in Hcover.
  split.
  - intros Hnil. apply map_eq_nil in Hnil.
    destruct (employeeMlPredictions db) as [|q rest] eqn:Hrows; [reflexivity|].
    exfalso. assert (Hq : In q predictions).
    { apply (Permutation_in _ (Permutation_sym Hperm)). left. reflexivity. }
    apply Hcover in Hq. rewrite Hnil in Hq. exact Hq.
  - intros Hnil. rewrite Hnil in Hperm.
    apply Permutation_sym, Permutation_nil in Hperm. rewrite Hperm. reflexivity.
Qed.

Lemma orDefault_defaulted (given : option string) (d : string) :
  defaulted given d (orDefault given d).
Proof.
  unfold defaulted, orDefault. split.
  - intros [-> | ->]; reflexivity.
  - intros v -> Hv. destruct v; [contradiction|reflexivity].
Qed.

Lemma createInsights_spec (dbNow : timestamp) (generated : list ReplyInsight)
  (table : InsightsTable) (created : list Insight) :
  let out := createInsights table dbNow generated created in
  exists before added,
    (snd out).(insights) = table.(insights) ++ added
    /\ (snd out).(insights_id_seq)
       = table.(insights_id_seq) + Z.of_nat (List.length added)
    /\ Forall2 (storesInsight dbNow) before added
    /\ map in_id added
       = map (fun i => table.(insights_id_seq) + Z.of_nat i)
           (seq 0 (List.length added))
    /\ ((generated = map Complete before /\ fst out = Some (created ++ added))
        \/ (exists rest, generated = map Complete before ++ Incomplete :: rest)
           /\ fst out = None).
Proof.
  revert table created. induction generated as [|g rest IH]; intros table created;
    cbv zeta.
  - exists [], []. simpl. rewrite !app_nil_r, Z.add_0_r.
    split; [reflexivity|]. split; [reflexivity|]. split; [constructor|].
    split; [reflexivity|]. left. split; reflexivity.
  - destruct g as [insight|].
    + simpl createInsights.
      set (row := fst (createInsight table dbNow (toInsertInsight insight))).
      destruct (IH (snd (createInsight table dbNow (toInsertInsight insight)))
                  (created ++ [row]))
        as (before & added & Hrows & Hseq & Hall & Hids & Hend).
      cbv zeta in Hrows, Hseq, Hend.
      exists (insight :: before), (row :: added).
      split; [etransitivity; [exact Hrows|simpl; rewrite <- app_assoc; reflexivity]|].
      split.
      { etransitivity; [exact Hseq|]. simpl insights_id_seq. simpl List.length. lia. }
      split.
      { constructor; [|exact Hall]. unfold row, storesInsight. simpl.
        split; [reflexivity|]. split; [reflexivity|].
        split; [apply orDefault_defaulted|]. split; [apply orDefault_defaulted|].
        reflexivity. }
      split.
      { simpl List.length. simpl seq. simpl map. f_equal.
        - unfold row. simpl. lia.
        - rewrite Hids. rewrite <- seq_shift, map_map. apply map_ext.
          intros i. simpl insights_id_seq. lia. }
      destruct Hend as [[Hgen Hfst]|[(after & Hgen) Hfst]].
      * left. split; [simpl; rewrite Hgen; reflexivity|].
        etransitivity; [exact Hfst|]. rewrite <- app_assoc. reflexivity.
      * right. split; [exists after; simpl; rewrite Hgen; reflexivity|exact Hfst].
    + exists [], []. simpl. rewrite app_nil_r, Z.add_0_r.
      split; [reflexivity|]. split; [reflexivity|]. split; [constructor|].
      split; [reflexivity|]. right. split; [exists rest; reflexivity|reflexivity].
Qed.

Lemma complete_not_incomplete (insights : list GeneratedInsight) :
  ~ In Incomplete (map Complete insights).
Proof.
  intros H. apply in_map_iff in H. destruct H as (x & Hx & _). discriminate Hx.
Qed.


(** A reply whose second insight has no title: the handler throws and
    the first insight stays stored. *)
Example insights_partly_stored :
  let out := insightsGenerate brokenInsightsService 1000 demoDatabase emptyInsights in
  out.(io_reply) = InsightsThrew
  /\ map in_title out.(io_table).(insights) = ["Workload"%string].
Proof. vm_compute. split; reflexivity. Qed.

(** X17: when predictions are stored and the insights service answers
    with a list of insights, each with its title and description, the
    answer is 200 with one created row per insight, in order: each row
    carries the title and the description of its insight, the type and
    the level with "team_shift" and "team" in place of a missing or empty
    one, the time of the database clock and the next id of the sequence;
    the rows are appended to the table. *)
Theorem generated_insights_are_stored
  (fetchInsightsTeam : InsightsPayload -> option InsightsResponse)
  (dbNow : timestamp) (db : Database) (table : InsightsTable)
  (mlResponse : InsightsResponse) (generated : list GeneratedInsight) :
  db.(employeeMlPredictions) <> [] ->
  fetchInsightsTeam (insightsPayload (getLatestMlPredictions db)) = Some mlResponse ->
  mlResponse.(ir_ok) = true ->
  mlResponse.(ir_body) = Readable (Some (map Complete generated)) ->
  let out := insightsGenerate fetchInsightsTeam dbNow db table in
  exists created,
    out.(io_reply) = InsightsCreated 200 created
    /\ out.(io_table).(insights) = table.(insights) ++ created
    /\ out.(io_table).(insights_id_seq)
       = table.(insights_id_seq) + Z.of_nat (List.length generated)
    /\ Forall2 (storesInsight dbNow) generated created
    /\ map in_id created
       = map (fun i => table.(insights_id_seq) + Z.of_nat i)
           (seq 0 (List.length generated)).
Proof.
  intros Hrows Hfetch Hok Hbody. cbv zeta. unfold insightsGenerate. cbv zeta.
  destruct (getLatestMlPredictions db) as [|pred rest] eqn:Hlatest.
  { exfalso. apply Hrows. apply latest_predictions_empty. exact Hlatest. }
  cbn [List.length Nat.eqb]. rewrite Hfetch, Hok, Hbody. cbn [negb orElse].
  destruct generated as [|g more].
  - exists []. simpl. rewrite app_nil_r, Z.add_0_r.
    repeat split; try reflexivity. constructor.
  - cbn [map List.length Nat.eqb].
    destruct (createInsights_spec dbNow (map Complete (g :: more)) table [])
      as (before & added & Hins & Hseq & Hall & Hids & Hend).
    cbv zeta in Hins, Hseq, Hend. cbn [map] in Hins, Hseq, Hend.
    destruct (createInsights table dbNow (Complete g :: map Complete more) [])
      as [createdInsights table'].
    cbn [fst snd] in Hins, Hseq, Hend. cbn [io_reply io_table].
    destruct Hend as [[Hgen ->]|[(after & Hgen) _]].
    + assert (Hbefore : before = g :: more).
      { change (Complete g :: map Complete more) with (map Complete (g :: more)) in Hgen.
        clear -Hgen. revert Hgen. generalize (g :: more). intros l.
        revert before. induction l as [|x l IH]; intros [|y before] H;
          try discriminate H; [reflexivity|].
        simpl in H. injection H as -> H. f_equal. apply IH. exact H. }
      subst before. pose proof (Forall2_length Hall) as Hlen.
      exists added. cbn [app].
      split; [reflexivity|]. split; [exact Hins|].
      split; [rewrite Hseq, <- Hlen; reflexivity|].
      split; [exact Hall|]. rewrite Hids, <- Hlen. reflexivity.
    + exfalso.
      apply (complete_not_incomplete (g :: more)).
      change (map Complete (g :: more)) with (Complete g :: map Complete more).
      rewrite Hgen. apply in_or_app. right. left. reflexivity.
Qed.

(** [generated_insights_are_stored] for the demo database and a service
    that answers with two insights. *)
Lemma generated_insights_are_stored_witness :
  exists created,
    (insightsGenerate demoInsightsService 1000 demoDatabase emptyInsights).(io_reply)
    = InsightsCreated 200 created
    /\ (insightsGenerate demoInsightsService 1000 demoDatabase emptyInsights)
         .(io_table).(insights)
       = emptyInsights.(insights) ++ created
    /\ (insightsGenerate demoInsightsService 1000 demoDatabase emptyInsights)
         .(io_table).(insights_id_seq)
       = emptyInsights.(insights_id_seq) + Z.of_nat (List.length demoGenerated)
    /\ Forall2 (storesInsight 1000) demoGenerated created
    /\ map in_id created
       = map (fun i => emptyInsights.(insights_id_seq) + Z.of_nat i)
           (seq 0 (List.length demoGenerated)).
Proof.
  apply (generated_insights_are_stored demoInsightsService 1000 demoDatabase
           emptyInsights
           {| ir_ok := true; ir_text := "ok";
              ir_body := Readable (Some (map Complete demoGenerated)) |}
           demoGenerated).
  - discriminate.
  - reflexivity.
  - reflexivity.
  - reflexivity.
Defined.

(** * Alerts *)

Lemma resolve_none (alerts : list Alert) (id : Z) :
  ~ In id (map al_id alerts) ->
  filter (fun row => al_id row =? id) alerts = []
  /\ filter (fun row => negb (al_id row =? id)) alerts = alerts.
Proof.
  induction alerts as [|a rest IH]; simpl; intros Hno; [split; reflexivity|].
  destruct (Z.eqb_spec (al_id a) id) as [Heq|Hne].
  - exfalso. apply Hno. left. exact Heq.
  - destruct IH as [-> ->]; [intros H; apply Hno; right; exact H|].
    split; reflexivity.
Qed.

Lemma resolve_one (alerts : list Alert) (id : Z) (stored : Alert) :
  NoDup (map al_id alerts) -> In stored alerts -> al_id stored = id ->
  filter (fun row => al_id row =? id) alerts = [stored]
  /\ Permutation (stored :: filter (fun row => negb (al_id row =? id)) alerts) alerts.
Proof.
  induction alerts as [|a rest IH]; simpl; intros Hnd Hin Hid; [destruct Hin|].
  apply NoDup_cons_iff in Hnd. destruct Hnd as [Hnot Hnd].
  destruct Hin as [->|Hin].
  - rewrite Hid, Z.eqb_refl. simpl.
    destruct (resolve_none rest id) as [-> ->].
    + rewrite <- Hid. exact Hnot.
    + split; [reflexivity|apply Permutation_refl].
  - assert (Hne : al_id a <> id).
    { intros Heq. apply Hnot. rewrite Heq, <- Hid. apply in_map. exact Hin. }
    destruct (Z.eqb_spec (al_id a) id) as [|_]; [contradiction|]. simpl.
    destruct (IH Hnd Hin Hid) as [-> Hperm].
    split; [reflexivity|].
    eapply perm_trans; [apply perm_swap|]. apply perm_skip. exact Hperm.
Qed.

(** X18: resolving an alert.  When the id of the request is no integer
    of 32 bits the query is refused: the handler gives no answer and the
    table is as it was.  Otherwise the handler answers 404 exactly when
    no alert has the id, and then leaves the table as it is; and on a
    table with pairwise distinct ids it answers 200 with the stored
    alert of that id marked resolved with its action taken, its other
    columns as they were; the table holds that row, the same ids and
    every other alert unchanged; no alert of that id is among the active
    ones; and a second resolve gives the same answer and the same rows.
    Nothing is said of the order of the rows. *)
Theorem resolve_alert_spec (db : Database) (alerts : list Alert)
  (requested : number) :
  NoDup (map al_id alerts) ->
  let out := alertsResolve alerts requested in
  (int32Of requested = None -> fst out = None /\ snd out = alerts)
  /\ forall id, int32Of requested = Some id ->
       (fst out = Some (Message 404 "Alert not found")
        <-> ~ In id (map al_id alerts))
       /\ (~ In id (map al_id alerts) -> snd out = alerts)
       /\ (forall stored, In stored alerts -> al_id stored = id ->
             exists row,
               fst out = Some (Body 200 row)
               /\ resolvedFrom stored row
               /\ Permutation (snd out)
                    (row :: filter (fun other => negb (al_id other =? id)) alerts))
       /\ Permutation (map al_id (snd out)) (map al_id alerts)
       /\ (forall row, al_id row <> id -> (In row (snd out) <-> In row alerts))
       /\ (forall entry, In entry (getActiveAlerts db (snd out)) ->
             al_id entry.(na_alert) <> id)
       /\ fst (alertsResolve (snd out) requested) = fst out
       /\ Permutation (snd (alertsResolve (snd out) requested)) (snd out).
Proof.
  intros Hnd. cbv zeta. split.
  { intros Hrefused. unfold alertsResolve. rewrite Hrefused. split; reflexivity. }
  intros id Hid32.
  assert (Hshape : forall rows,
            alertsResolve rows requested
            = match map setResolved (filter (fun row => al_id row =? id) rows) with
              | [] => (Some (Message 404 "Alert not found"),
                       filter (fun row => negb (al_id row =? id)) rows ++ [])
              | alert :: more =>
                  (Some (Body 200 alert),
                   filter (fun row => negb (al_id row =? id)) rows ++ alert :: more)
              end).
  { intros rows. unfold alertsResolve, resolveAlert. rewrite Hid32. cbv zeta.
    destruct (map setResolved (filter (fun row => al_id row =? id) rows));
      reflexivity. }
  destruct (in_dec Z.eq_dec id (map al_id alerts)) as [Hin|Hno].
  - apply in_map_iff in Hin. destruct Hin as (stored & Hid & Hin).
    destruct (resolve_one alerts id stored Hnd Hin Hid) as [Hhit Hperm].
    set (others := filter (fun row => negb (al_id row =? id)) alerts) in *.
    assert (Hout : alertsResolve alerts requested
                   = (Some (Body 200 (setResolved stored)),
                      others ++ [setResolved stored])).
    { rewrite Hshape, Hhit. reflexivity. }
    assert (Hother : forall row, In row others -> al_id row <> id).
    { intros row Hrow. apply filter_In in Hrow. destruct Hrow as [_ Hne].
      apply negb_true_iff, Z.eqb_neq in Hne. exact Hne. }
    assert (Hrows : Permutation (others ++ [setResolved stored])
                      (setResolved stored :: others)).
    { apply Permutation_sym, Permutation_cons_append. }
    rewrite Hout. cbn [fst snd].
    split.
    { split; [discriminate|].
      intros Hno. exfalso. apply Hno. rewrite <- Hid. apply in_map. exact Hin. }
    split.
    { intros Hno. exfalso. apply Hno. rewrite <- Hid. apply in_map. exact Hin. }
    split.
    { intros stored' Hin' Hid'.
      assert (stored' = stored).
      { apply (NoDup_map_inj al_id _ _ _ Hnd Hin' Hin). congruence. }
      subst stored'. exists (setResolved stored).
      split; [reflexivity|]. split; [|exact Hrows].
      unfold resolvedFrom, setResolved. cbn. repeat split. }
    split.
    { eapply perm_trans; [apply Permutation_map, Hrows|].
      change (map al_id (setResolved stored :: others))
        with (map al_id (stored :: others)).
      apply Permutation_map. exact Hperm. }
    split.
    { intros row Hne. split.
      - intros Hrow. apply in_app_or in Hrow. destruct Hrow as [Hrow|[<-|[]]].
        + apply filter_In in Hrow. exact (proj1 Hrow).
        + exfalso. apply Hne. exact Hid.
      - intros Hrow. apply in_or_app. left. apply filter_In.
        split; [exact Hrow|]. apply negb_true_iff, Z.eqb_neq. exact Hne. }
    split.
    { intros entry Hentry Heq. unfold getActiveAlerts in Hentry.
      apply in_flat_map in Hentry. destruct Hentry as (alert & Halert & Hemp).
      apply in_map_iff in Hemp. destruct Hemp as (emp & <- & _). simpl in Heq.
      apply filter_In in Halert. destruct Halert as [Hrow Hactive].
      apply in_app_or in Hrow. destruct Hrow as [Hrow|[<-|[]]].
      - exact (Hother alert Hrow Heq).
      - discriminate Hactive. }
    assert (Hnd' : NoDup (map al_id (others ++ [setResolved stored]))).
    { eapply Permutation_NoDup; [|exact Hnd].
      eapply perm_trans.
      - apply Permutation_map, Permutation_sym, Hperm.
      - change (map al_id (stored :: others))
          with (map al_id (setResolved stored :: others)).
        apply Permutation_map, Permutation_sym, Hrows. }
    assert (Hin2 : In (setResolved stored) (others ++ [setResolved stored]))
      by (apply in_or_app; right; left; reflexivity).
    destruct (resolve_one _ id (setResolved stored) Hnd' Hin2 Hid) as [Hhit2 Hperm2].
    rewrite Hshape, Hhit2. cbn [map fst snd].
    split; [reflexivity|].
    eapply perm_trans; [apply Permutation_sym, Permutation_cons_append|].
    exact Hperm2.
  - destruct (resolve_none alerts id Hno) as [Hhit Hkeep].
    assert (Hout : alertsResolve alerts requested
                   = (Some (Message 404 "Alert not found"), alerts)).
    { rewrite Hshape, Hhit, Hkeep. simpl. rewrite app_nil_r. reflexivity. }
    rewrite Hout. cbn [fst snd].
    split; [split; [intros _; exact Hno|reflexivity]|].
    split; [reflexivity|].
    split.
    { intros stored Hin Hid. exfalso. apply Hno. rewrite <- Hid.
      apply in_map. exact Hin. }
    split; [apply Permutation_refl|].
    split; [intros row _; reflexivity|].
    split.
    { intros entry Hentry Heq. unfold getActiveAlerts in Hentry.
      apply in_flat_map in Hentry. destruct Hentry as (alert & Halert & Hemp).
      apply in_map_iff in Hemp. destruct Hemp as (emp & <- & _). simpl in Heq.
      apply filter_In in Halert. destruct Halert as [Hrow _].
      apply Hno. rewrite <- Heq. apply in_map. exact Hrow. }
    rewrite Hout. cbn [fst snd]. split; [reflexivity|apply Permutation_refl].
Qed.

(** [resolve_alert_spec] on the two demo alerts, for the id 1 and for the
    id 1.4. *)
Lemma resolve_alert_spec_witness :
  let out := alertsResolve demoAlerts (JS.ofZ 1) in
  let refused := alertsResolve demoAlerts n1_4 in
  int32Of (JS.ofZ 1) = Some 1
  /\ (fst refused = None /\ snd refused = demoAlerts)
  /\ (fst out = Some (Message 404 "Alert not found")
      <-> ~ In 1 (map al_id demoAlerts))
  /\ (~ In 1 (map al_id demoAlerts) -> snd out = demoAlerts)
  /\ (forall stored, In stored demoAlerts -> al_id stored = 1 ->
        exists row,
          fst out = Some (Body 200 row)
          /\ resolvedFrom stored row
          /\ Permutation (snd out)
               (row :: filter (fun other => negb (al_id other =? 1)) demoAlerts))
  /\ Permutation (map al_id (snd out)) (map al_id demoAlerts)
  /\ (forall row, al_id row <> 1 -> (In row (snd out) <-> In row demoAlerts))
  /\ (forall entry, In entry (getActiveAlerts demoDatabase (snd out)) ->
        al_id entry.(na_alert) <> 1)
  /\ fst (alertsResolve (snd out) (JS.ofZ 1)) = fst out
  /\ Permutation (snd (alertsResolve (snd out) (JS.ofZ 1))) (snd out).
Proof.
  assert (Hnd : NoDup (map al_id demoAlerts)).
  { simpl. repeat constructor; simpl; intuition discriminate. }
  assert (Hid : int32Of (JS.ofZ 1) = Some 1) by (vm_compute; reflexivity).
  assert (Hno : int32Of n1_4 = None) by (vm_compute; reflexivity).
  split; [exact Hid|].
  split; [exact (proj1 (resolve_alert_spec demoDatabase demoAlerts n1_4 Hnd) Hno)|].
  exact (proj2 (resolve_alert_spec demoDatabase demoAlerts (JS.ofZ 1) Hnd) 1 Hid).
Defined.

(** The demo alerts after alert 1 is resolved: the updated row is listed
    after the other, and a request for an id of more than 32 bits is
    refused. *)
Example resolve_alert_demo :
  map (fun row => (al_id row, al_status row, al_actionTaken row))
    (snd (alertsResolve demoAlerts (JS.ofZ 1)))
  = [(2, "active"%string, None); (1, "resolved"%string, Some true)]
  /\ fst (alertsResolve demoAlerts (JS.ofZ 3)) = Some (Message 404 "Alert not found")
  /\ fst (alertsResolve demoAlerts (JS.ofZ (2 ^ 31))) = None
  /\ fst (alertsResolve demoAlerts JS.NaN) = None.
Proof. vm_compute. repeat split. Qed.

(** * What a run stores and when the cache is off *)

(** X19: a run that posts a batch and answers 200 stores one prediction
    per result of the reply, in the order of the reply and for the
    employee the result names, whatever employees were posted; and each
    of these employees then has a latest prediction. *)
Theorem stored_predictions_follow_reply (env : Env) (req : PredictRequest)
  (db : Database) (sent : list Payload) :
  let out := handlePredict env req db in
  out.(posted) = [sent] ->
  out.(value).(status) = 200 ->
  let results := orElse (env.(fetchPredictBatch) sent).(resp_results) [] in
  map mp_employeeId (storedBy db out) = map res_employee_id results
  /\ forall result, In result results ->
       exists p, mlPredictionsGet out.(database) result.(res_employee_id) = Body 200 p
                 /\ mp_employeeId p = result.(res_employee_id).
Proof.
  cbv zeta. intros Hposted Hstatus. unfold storedBy.
  destruct (handlePredict_database env req db)
    as [[_ [Hnone|Hbad]]|(sent' & results & Hp & Hres & _ & Hdb & _)]; cbv zeta in *.
  - rewrite Hnone in Hposted. discriminate Hposted.
  - rewrite Hbad in Hstatus. discriminate Hstatus.
  - rewrite Hp in Hposted. injection Hposted as ->. rewrite <- Hres.
    destruct (createMlPredictions_facts db env.(dbNow) (map toPrediction results))
      as (Hrows & Hdata & _).
    cbv zeta in Hrows, Hdata. rewrite <- Hdb in Hrows.
    set (db' := (handlePredict env req db).(database)) in *.
    rewrite Hrows, skipn_app, skipn_all, Nat.sub_diag. simpl skipn.
    split.
    { transitivity (map imp_employeeId
                      (map mp_data
                         (fst (createMlPredictions db env.(dbNow)
                                 (map toPrediction results))))).
      - rewrite map_map. reflexivity.
      - rewrite Hdata, map_map. reflexivity. }
    intros result Hin.
    assert (Hrow : exists row,
              In row (fst (createMlPredictions db env.(dbNow) (map toPrediction results)))
              /\ mp_data row = toPrediction result).
    { apply (in_map toPrediction) in Hin. rewrite <- Hdata in Hin.
      apply in_map_iff in Hin. destruct Hin as (row & Hd & Hr). eauto. }
    destruct Hrow as (row & Hr & Hd).
    destruct (latest_prediction_facts db' result.(res_employee_id))
      as (Hnone & _ & Hsome).
    destruct (getLatestMlPrediction db' result.(res_employee_id)) as [p|] eqn:Hlatest.
    + destruct (Hsome p eq_refl) as (Hget & _ & Hemp & _). exists p. auto.
    + exfalso. destruct Hnone as [Hn _]. specialize (Hn eq_refl).
      assert (Hof : In row (mlPredictionsOf db' result.(res_employee_id))).
      { unfold mlPredictionsOf. apply filter_In. split.
        - rewrite Hrows. apply in_or_app. right. exact Hr.
        - apply Z.eqb_eq. unfold mp_employeeId. rewrite Hd. reflexivity. }
      rewrite Hn in Hof. destruct Hof.
Qed.

(** [stored_predictions_follow_reply] for a run by path on the demo
    database with a stale prediction. *)
Lemma stored_predictions_follow_reply_witness :
  let out := handlePredict (echoEnv 301000) (PredictPath 1) demoDatabase in
  let results :=
    orElse ((echoEnv 301000).(fetchPredictBatch) [demoPayload]).(resp_results) [] in
  map mp_employeeId (storedBy demoDatabase out) = map res_employee_id results
  /\ forall result, In result results ->
       exists p, mlPredictionsGet out.(database) result.(res_employee_id) = Body 200 p
                 /\ mp_employeeId p = result.(res_employee_id).
Proof.
  apply (stored_predictions_follow_reply (echoEnv 301000) (PredictPath 1)
           demoDatabase [demoPayload]).
  - vm_compute. reflexivity.
  - vm_compute. reflexivity.
Defined.


Lemma isCached_without_ttl (env : Env) (db : Database) (payload : Payload) :
  cacheTtlMs env = None -> isCached env db payload = false.
Proof.
  intros Httl. unfold isCached, recentlyCachedPrediction. rewrite Httl.
  destruct (getLatestMlPrediction db (employee_id payload)) as [cached|];
    [|reflexivity].
  destruct (mp_createdAt cached); reflexivity.
Qed.

(** X20: when the TTL variable holds no number ([parseInt] gives NaN),
    no stored prediction is ever fresh: every run posts one batch with
    the payload of every employee it covers who has four weeks of
    metrics. *)
Theorem unparsable_ttl_disables_cache (env : Env) (req : PredictRequest)
  (db : Database) (employeeId : Z) (payload : Payload) :
  cacheTtlMs env = None ->
  In employeeId (targets db req) ->
  buildPayloadForEmployee db employeeId = Some payload ->
  exists sent, (handlePredict env req db).(posted) = [sent] /\ In payload sent.
Proof.
  intros Httl Htarget Hbuild.
  assert (Hall : forall batch, filter (fun p => negb (isCached env db p)) batch = batch).
  { intros batch. induction batch as [|p rest IH]; [reflexivity|].
    simpl. rewrite (isCached_without_ttl env db p Httl). simpl. rewrite IH.
    reflexivity. }
  assert (Hposted : forall batch sk, batch <> [] ->
            (replyToBatch (runMlBatch env db batch) sk).(posted) = [batch]).
  { intros batch sk Hne. unfold replyToBatch. cbn [posted].
    pose proof (runMlBatch_detail env db batch) as Hd. cbv zeta in Hd.
    rewrite Hd, Hall. destruct batch as [|p rest]; [contradiction|].
    destruct (resp_ok (fetchPredictBatch env (p :: rest))); reflexivity. }
  destruct req as [|e|e]; simpl in Htarget |- *.
  - unfold mlPredict. apply in_map_iff in Htarget.
    destruct Htarget as (employee & Hid & Hin). subst employeeId.
    destruct (collectPayloads_complete db (getEmployees db) (0%nat, []))
      as [_ Hc]. cbv zeta in Hc.
    specialize (Hc employee payload Hin Hbuild).
    fold (collectPayloads db (getEmployees db)) in Hc.
    destruct (collectPayloads db (getEmployees db)) as [skipped batch].
    simpl in Hc. destruct batch as [|p rest]; [destruct Hc|].
    cbn [List.length Nat.eqb]. exists (p :: rest).
    split; [apply Hposted; discriminate|exact Hc].
  - unfold mlPredict. destruct (getEmployee db e); [|destruct Htarget].
    destruct Htarget as [<-|[]]. rewrite Hbuild. exists [payload].
    split; [apply Hposted; discriminate|left; reflexivity].
  - unfold mlPredictOne. destruct (getEmployee db e); [|destruct Htarget].
    destruct Htarget as [<-|[]]. rewrite Hbuild. exists [payload].
    split; [apply Hposted; discriminate|left; reflexivity].
Qed.

(** [unparsable_ttl_disables_cache] on the demo database, whose
    prediction of employee 1 is one second old. *)
Lemma unparsable_ttl_disables_cache_witness :
  exists sent,
    (handlePredict brokenTtlEnv PredictAll demoDatabase).(posted) = [sent]
    /\ In demoPayload sent.
Proof.
  apply (unparsable_ttl_disables_cache brokenTtlEnv PredictAll demoDatabase 1
           demoPayload).
  - reflexivity.
  - left. reflexivity.
  - vm_compute. reflexivity.
Defined.

(** * The history of an employee after a recompute *)

(** The key of a row after an upsert is a key of the table or the key of
    the score. *)
Lemma upsert_keys (db : Database) (score : InsertHealthScore) (row : HealthScore) :
  primaryKeyed db ->
  In row (snd (upsertHealthScore db score)).(healthScores) ->
  In (hsKey row) (map hsKey db.(healthScores)) \/ hsKey row = scoreKey score.
Proof.
  intros [Hids _]. unfold upsertHealthScore.
  destruct (find (matchesKey score) (healthScores db)) as [existing|] eqn:Hfind.
  - apply find_some in Hfind. destruct Hfind as [Hin Hmatch].
    apply matchesKey_iff in Hmatch.
    cbn [snd healthScores set_healthScores]. intros Hrow.
    apply in_map_iff in Hrow. destruct Hrow as (r & <- & Hr).
    destruct (Z.eqb_spec (hs_id r) (hs_id existing)) as [Hid|_].
    + right. rewrite (NoDup_map_inj hs_id _ _ _ Hids Hr Hin Hid).
      unfold hsKey, scoreKey in *. simpl. injection Hmatch as -> _. reflexivity.
    + left. apply in_map. exact Hr.
  - unfold addHealthScore. cbn [snd healthScores set_healthScores]. intros Hrow.
    apply in_app_or in Hrow. destruct Hrow as [Hr|[<-|[]]].
    + left. apply in_map. exact Hr.
    + right. reflexivity.
Qed.

Lemma upsertAll_keys (scores : list InsertHealthScore) (db : Database)
  (row : HealthScore) :
  primaryKeyed db -> oneRowPerKey db ->
  In row (upsertAll db scores).(healthScores) ->
  In (hsKey row) (map hsKey db.(healthScores))
  \/ exists score, In score scores /\ hsKey row = scoreKey score.
Proof.
  revert db. induction scores as [|s rest IH]; intros db Hp Hk; simpl.
  - intros Hrow. left. apply in_map. exact Hrow.
  - intros Hrow. destruct (upsert_step db s Hp Hk) as (Hp' & Hk' & _).
    destruct (IH _ Hp' Hk' Hrow) as [Hold|(score & Hin & Hkey)].
    + apply in_map_iff in Hold. destruct Hold as (r & Hkey & Hr).
      destruct (upsert_keys db s r Hp Hr) as [H|H].
      * left. rewrite <- Hkey. exact H.
      * right. exists s. split; [left; reflexivity|]. rewrite <- Hkey. exact H.
    + right. exists score. split; [right; exact Hin|exact Hkey].
Qed.

Lemma dates_distinct (rows : list HealthScore) (employeeId : Z) :
  NoDup (map hsKey rows) ->
  NoDup (map hs_date (filter (fun row => hs_employeeId row =? employeeId) rows)).
Proof.
  induction rows as [|a rest IH]; simpl; intros Hnd; [constructor|].
  apply NoDup_cons_iff in Hnd. destruct Hnd as [Hnot Hnd].
  destruct (Z.eqb_spec (hs_employeeId a) employeeId) as [He|_]; [|exact (IH Hnd)].
  simpl. constructor; [|exact (IH Hnd)].
  intros Hin. apply Hnot. apply in_map_iff in Hin. destruct Hin as (r & Hd & Hr).
  apply filter_In in Hr. destruct Hr as [Hr Hre]. apply Z.eqb_eq in Hre.
  apply in_map_iff. exists r. split; [|exact Hr].
  unfold hsKey. rewrite Hd, Hre, He. reflexivity.
Qed.

Lemma sorted_distinct_strict_desc {A : Type} (key : A -> Z) (l : list A) :
  StronglySorted (fun a b => desc key a b = true) l ->
  NoDup (map key l) ->
  StronglySorted (fun a b => key b < key a) l.
Proof.
  induction 1 as [|a l Hs IH Hall]; intros Hnd; constructor.
  - apply IH. inversion Hnd. assumption.
  - inversion Hnd as [|? ? Hnot _]. subst.
    rewrite Forall_forall in *. intros b Hb.
    specialize (Hall b Hb). unfold desc in Hall. apply Z.leb_le in Hall.
    assert (key a <> key b).
    { intros Heq. apply Hnot. rewrite Heq. apply in_map. exact Hb. }
    lia.
Qed.

(** X21: after a recompute on stored metrics of integers and finite
    numbers and on a table of health scores whose ids and natural keys
    are pairwise distinct, the history of an employee lists scores of
    that employee only, strictly newest first, so one per date; it has a
    score for every week of the employee's metrics, and every score in it
    is of such a week or of a date the employee had a score for before. *)
Theorem history_after_recompute (db : Database) (employeeId : Z) :
  Forall storedRow db.(employeeWeeklyMetrics) ->
  primaryKeyed db -> oneRowPerKey db ->
  let history := getHealthScores (teamRecompute db).(database) employeeId in
  StronglySorted (fun a b => b.(hs_date) < a.(hs_date)) history
  /\ (forall metric, In metric db.(employeeWeeklyMetrics) ->
        metric.(wm_employeeId) = employeeId ->
        In metric.(weekStart) (map hs_date history))
  /\ (forall row, In row history ->
        row.(hs_employeeId) = employeeId
        /\ (In (hsKey row) (map hsKey db.(healthScores))
            \/ exists metric, In metric db.(employeeWeeklyMetrics)
                              /\ metricKey metric = hsKey row)).
Proof.
  intros Hstored Hp Hk. cbv zeta. unfold getHealthScores.
  destruct (teamRecompute_spec db Hstored) as (_ & -> & _).
  set (scores := map computeHealthScoreFromMetric (getAllWeeklyMetrics db)).
  destruct (upsertAll_invariant scores db Hp Hk) as [_ Hk'].
  set (rows := (upsertAll db scores).(healthScores)) in *.
  set (mine := filter (fun row => hs_employeeId row =? employeeId) rows).
  pose proof (orderBy_perm (desc hs_date) mine) as Hperm.
  pose proof (getAllWeeklyMetrics_in db) as Hstored_in.
  split; [|split].
  - apply sorted_distinct_strict_desc.
    + apply (orderBy_sorted (desc hs_date) (desc_total _) (desc_trans _)).
    + eapply Permutation_NoDup;
        [apply Permutation_sym, Permutation_map, Hperm|].
      apply dates_distinct. exact Hk'.
  - intros metric Hin He.
    assert (Hs : In (computeHealthScoreFromMetric metric) scores).
    { apply in_map. apply Hstored_in. exact Hin. }
    destruct (lastUpsert_in scores _ Hs) as [last Hlast].
    destruct (upsertAll_last scores db _ last Hp Hk Hlast) as (row & Hrow & Hkey & _).
    fold rows in Hrow. unfold hsKey, scoreKey in Hkey. simpl in Hkey.
    injection Hkey as Hemp Hdate. rewrite <- Hdate.
    apply in_map.
    apply (Permutation_in _ (Permutation_sym Hperm)).
    apply filter_In. split; [exact Hrow|]. apply Z.eqb_eq. congruence.
  - intros row Hrow. apply (Permutation_in _ Hperm) in Hrow.
    apply filter_In in Hrow. destruct Hrow as [Hrow He]. apply Z.eqb_eq in He.
    split; [exact He|].
    destruct (upsertAll_keys scores db row Hp Hk Hrow) as [H|(score & Hin & Hkey)].
    + left. exact H.
    + right. apply in_map_iff in Hin. destruct Hin as (metric & <- & Hm).
      exists metric. split; [apply Hstored_in; exact Hm|]. symmetry. exact Hkey.
Qed.

(** [history_after_recompute] for employee 1 of the demo database with
    two health scores. *)
Lemma history_after_recompute_witness :
  let history := getHealthScores (teamRecompute demoScoredDatabase).(database) 1 in
  StronglySorted (fun a b => b.(hs_date) < a.(hs_date)) history
  /\ (forall metric, In metric demoScoredDatabase.(employeeWeeklyMetrics) ->
        metric.(wm_employeeId) = 1 ->
        In metric.(weekStart) (map hs_date history))
  /\ (forall row, In row history ->
        row.(hs_employeeId) = 1
        /\ (In (hsKey row) (map hsKey demoScoredDatabase.(healthScores))
            \/ exists metric, In metric demoScoredDatabase.(employeeWeeklyMetrics)
                              /\ metricKey metric = hsKey row)).
Proof.
  apply (history_after_recompute demoScoredDatabase 1).
  - exact demoMetrics_stored.
  - exact (proj1 demoScored_keyed).
  - exact (proj2 demoScored_keyed).
Defined.

(** * Posting weekly metrics *)

















(** What the columns make of some numbers: 20 and the negative zero are
    integers, 20.5, [2^31] and NaN are refused. *)
Example integer_columns :
  integer4 (JS.ofZ 20) = Some (JS.ofZ 20)
  /\ integer4 (S754_zero true) = Some n0
  /\ integer4 n20_5 = None
  /\ integer4 (JS.ofZ (2 ^ 31)) = None
  /\ integer4 (JS.ofZ (- 2 ^ 31)) = Some (JS.ofZ (- 2 ^ 31))
  /\ integer4 JS.NaN = None
  /\ integerColumn (2 ^ 31) = None
  /\ integerColumn (- 2 ^ 31) = Some (- 2 ^ 31).
Proof. vm_compute. repeat split. Qed.

(** The demo post is answered: two rows are created for one week of
    employee 1, and the one health score of that week holds the score of
    the second.  A body with a value that is no metric, or with 20.5
    tasks, gets no answer and stores nothing. *)
Example weekly_create_demo :
  let db := demoScoredDatabase in
  let post := metricsWeeklyCreate demoReal4 demoHoldsDate db 100 0 in
  let out := post (ManyMetrics (map MetricItem demoItems)) in
  option_map (fun answer => (fst answer, map wm_id (snd answer))) out.(value)
  = Some (201, [100; 101])
  /\ map hsIdKey out.(database).(healthScores)
     = [(1, (1, 4 * msPerWeek)); (2, (9, 0))]
  /\ match find (fun row => row.(hs_id) =? 1) out.(database).(healthScores),
           out.(value) with
     | Some row, Some (_, [_; second]) =>
         (row.(hs_burnoutRisk), row.(hs_engagementScore),
          row.(hs_performanceScore), row.(hs_workloadScore))
         = let score := computeHealthScoreFromMetric second in
           (score.(ihs_burnoutRisk), score.(ihs_engagementScore),
            score.(ihs_performanceScore), score.(ihs_workloadScore))
     | _, _ => False
     end
  /\ post (ManyMetrics (map MetricItem demoItems ++ [OtherItem]))
     = done None db
  /\ post (OneMetric (MetricItem fractionItem)) = done None db.
Proof.
  vm_compute. repeat split.
Qed.




(** * Reading the TTL *)

(** [parseInt] skips every white space and line terminator, alone or one
    after the other, and no other character. *)
Example parseInt10_skips_white_space :
  Forall (fun bytes => parseInt10 (ofBytes bytes ++ "20000") = Some 20000)
    whiteSpaces
  /\ parseInt10 (ofBytes (List.concat whiteSpaces) ++ "-42 ms") = Some (-42)
  /\ Forall (fun bytes => parseInt10 (ofBytes bytes ++ "20000") = None)
       otherCharacters.
Proof.
  split; [|split].
  - unfold whiteSpaces. repeat (apply Forall_cons; [vm_compute; reflexivity|]).
    apply Forall_nil.
  - vm_compute. reflexivity.
  - unfold otherCharacters. repeat (apply Forall_cons; [vm_compute; reflexivity|]).
    apply Forall_nil.
Qed.

(** [parseInt] skips a no-break space, a line separator and a byte order
    mark as it skips a space, and reads no number from other text. *)
Example parseInt10_white_space :
  parseInt10 (String (Ascii.ascii_of_nat 194) (String (Ascii.ascii_of_nat 160) "20000"))
  = Some 20000
  /\ parseInt10
       (String (Ascii.ascii_of_nat 226)
          (String (Ascii.ascii_of_nat 128)
             (String (Ascii.ascii_of_nat 168) " -15 min")))
     = Some (-15)
  /\ parseInt10
       (String (Ascii.ascii_of_nat 239)
          (String (Ascii.ascii_of_nat 187)
             (String (Ascii.ascii_of_nat 191) "+7")))
     = Some 7
  /\ parseInt10 (String (Ascii.ascii_of_nat 194) (String (Ascii.ascii_of_nat 133) "5"))
     = None
  /\ parseInt10 "  12.5e3" = Some 12
  /\ parseInt10 "-" = None.
Proof. vm_compute. repeat split. Qed.
